(** * SceneManager: texture registry, material registry, transform composer
      and per-draw shader configuration

    A shallow embedding of [SceneManager.cpp] (CS-330 final project).  The
    scene manager is modelled as a record of its data members; the OpenGL
    context and the externally owned [ShaderManager] live next to it in a
    [World].  Methods are functions from a world to an [outcome]: either a
    result with the next world, or the undefined behaviour the C++ code runs
    into (a null [m_pShaderManager] dereferenced, an array cell outside
    [m_textureIDs] accessed). *)

From Stdlib Require Import ZArith QArith Reals Lra Floats.SpecFloat.
From stdpp Require Import gmap strings list fin_maps.

Set Default Proof Using "Type".
Local Open Scope Z_scope.

(** ** Scalars

    The code computes with 32-bit [float]s.  Its control flow never looks at
    one, so the model is parametric in the scalar type: a [GLfloat] structure
    gives the operations the code and glm apply to floats and assumes no law
    about them.  Everything proved for an arbitrary [GLfloat] holds for IEEE
    arithmetic as well as for the real numbers.  [GLfloat_binary32] further
    down is the arithmetic the code runs in; [GLfloat_R] is exact arithmetic,
    used to say what the floats approximate and as a scalar type to run the
    methods on where no arithmetic is involved. *)
Class GLfloat (F : Type) : Type := {
  fzero : F;
  fone : F;
  fadd : F -> F -> F;
  fsub : F -> F -> F;
  fmul : F -> F -> F;
  finversesqrt : F -> F;      (* glm::inversesqrt *)
  fcos : F -> F;              (* glm::cos *)
  fsin : F -> F;              (* glm::sin *)
  fradians : F -> F;          (* glm::radians: degrees to radians *)
  fliteral : Q -> F           (* a decimal literal of the source, 0.3f *)
}.

Declare Scope glfloat_scope.
Delimit Scope glfloat_scope with fl.
Infix "+" := fadd : glfloat_scope.
Infix "-" := fsub : glfloat_scope.
Infix "*" := fmul : glfloat_scope.

(** The real numbers as scalars: the idealisation of [float] in which the
    transform composer's arithmetic is exact. *)
#[export] Instance GLfloat_R : GLfloat R := {
  fzero := 0%R;
  fone := 1%R;
  fadd := Rplus;
  fsub := Rminus;
  fmul := Rmult;
  finversesqrt := fun x => (/ sqrt x)%R;
  fcos := cos;
  fsin := sin;
  fradians := fun d => (d * (PI / 180))%R;
  fliteral := Q2R
}.

(** ** glm vectors and matrices *)
Section Glm.
Context {F : Type} `{GLfloat F}.

Record vec2 := mk_vec2 { x2 : F; y2 : F }.
Record vec3 := mk_vec3 { x3 : F; y3 : F; z3 : F }.
Record vec4 := mk_vec4 { x4 : F; y4 : F; z4 : F; w4 : F }.

(** [glm::mat4] is column-major: four column vectors. *)
Record mat4 := mk_mat4 { col0 : vec4; col1 : vec4; col2 : vec4; col3 : vec4 }.

Definition vec4_add (a b : vec4) : vec4 :=
  mk_vec4 (x4 a + x4 b)%fl (y4 a + y4 b)%fl (z4 a + z4 b)%fl (w4 a + w4 b)%fl.

(** vector * scalar *)
Definition vec4_scale (a : vec4) (k : F) : vec4 :=
  mk_vec4 (x4 a * k)%fl (y4 a * k)%fl (z4 a * k)%fl (w4 a * k)%fl.

(** [mat4(1.0f)] *)
Definition mat4_identity : mat4 :=
  mk_mat4 (mk_vec4 fone fzero fzero fzero) (mk_vec4 fzero fone fzero fzero)
          (mk_vec4 fzero fzero fone fzero) (mk_vec4 fzero fzero fzero fone).

(** [operator*(mat4, vec4)]: the linear combination of the columns. *)
Definition mat4_mul_vec4 (m : mat4) (v : vec4) : vec4 :=
  vec4_add (vec4_add (vec4_add (vec4_scale (col0 m) (x4 v))
                               (vec4_scale (col1 m) (y4 v)))
                     (vec4_scale (col2 m) (z4 v)))
           (vec4_scale (col3 m) (w4 v)).

(** [operator*(mat4, mat4)]: column j of the product is [m1 * (column j of m2)]. *)
Definition mat4_mul (m1 m2 : mat4) : mat4 :=
  mk_mat4 (mat4_mul_vec4 m1 (col0 m2)) (mat4_mul_vec4 m1 (col1 m2))
          (mat4_mul_vec4 m1 (col2 m2)) (mat4_mul_vec4 m1 (col3 m2)).

(** [glm::scale(v)] is [glm::scale(mat4(1.0f), v)]: the first three columns
    of the identity scaled by the components of [v]. *)
Definition glm_scale (v : vec3) : mat4 :=
  let m := mat4_identity in
  mk_mat4 (vec4_scale (col0 m) (x3 v)) (vec4_scale (col1 m) (y3 v))
          (vec4_scale (col2 m) (z3 v)) (col3 m).

(** [glm::translate(v)] is [glm::translate(mat4(1.0f), v)]:
    [Result[3] = m[0] * v[0] + m[1] * v[1] + m[2] * v[2] + m[3]]. *)
Definition glm_translate (v : vec3) : mat4 :=
  let m := mat4_identity in
  mk_mat4 (col0 m) (col1 m) (col2 m)
          (vec4_add (vec4_add (vec4_add (vec4_scale (col0 m) (x3 v))
                                        (vec4_scale (col1 m) (y3 v)))
                              (vec4_scale (col2 m) (z3 v)))
                    (col3 m)).

(** [glm::normalize(v)]: [v * inversesqrt(dot(v, v))]. *)
Definition glm_normalize (v : vec3) : vec3 :=
  let d := (x3 v * x3 v + y3 v * y3 v + z3 v * z3 v)%fl in
  let k := finversesqrt d in
  mk_vec3 (x3 v * k)%fl (y3 v * k)%fl (z3 v * k)%fl.

(** [glm::rotate(angle, v)] is [glm::rotate(mat4(1.0f), angle, v)]: the
    axis-angle rotation about the normalised axis. *)
Definition glm_rotate (angle : F) (v : vec3) : mat4 :=
  let m := mat4_identity in
  let c := fcos angle in
  let s := fsin angle in
  let axis := glm_normalize v in
  let temp := mk_vec3 ((fone - c) * x3 axis)%fl ((fone - c) * y3 axis)%fl
                      ((fone - c) * z3 axis)%fl in
  let r00 := (c + x3 temp * x3 axis)%fl in
  let r01 := (x3 temp * y3 axis + s * z3 axis)%fl in
  let r02 := (x3 temp * z3 axis - s * y3 axis)%fl in
  let r10 := (y3 temp * x3 axis - s * z3 axis)%fl in
  let r11 := (c + y3 temp * y3 axis)%fl in
  let r12 := (y3 temp * z3 axis + s * x3 axis)%fl in
  let r20 := (z3 temp * x3 axis + s * y3 axis)%fl in
  let r21 := (z3 temp * y3 axis - s * x3 axis)%fl in
  let r22 := (c + z3 temp * z3 axis)%fl in
  let lin a b c' :=
    vec4_add (vec4_add (vec4_scale (col0 m) a) (vec4_scale (col1 m) b))
             (vec4_scale (col2 m) c') in
  mk_mat4 (lin r00 r01 r02) (lin r10 r11 r12) (lin r20 r21 r22) (col3 m).
End Glm.

Arguments vec2 : clear implicits.
Arguments vec3 : clear implicits.
Arguments vec4 : clear implicits.
Arguments mat4 : clear implicits.

(** ** Undefined behaviour

    The methods return an [outcome].  [Undefined] stands for an execution the
    C++ standard gives no meaning to; it is not an error value the program
    could test for. *)
Inductive fault : Set :=
| NullDereference      (* a member called through a null m_pShaderManager *)
| OutOfBounds.         (* an array or vector cell outside its bounds accessed *)

Inductive outcome (A : Type) : Type :=
| Ok (a : A)
| Undefined (f : fault).
Arguments Ok {A} a.
Arguments Undefined {A} f.

#[export] Instance outcome_ret : MRet outcome := fun A a => Ok a.
#[export] Instance outcome_bind : MBind outcome := fun A B k c =>
  match c with
  | Ok a => k a
  | Undefined f => Undefined f
  end.

(** ** The OpenGL context, as far as the scene manager drives it *)

(** [GLuint]: an unsigned 32-bit texture name. *)
Abbreviation GLuint := Z (only parsing).

(** The conversion of a [GLuint] to [int] done by [FindTextureID]
    (two's complement wrap-around). *)
Definition int_of_GLuint (n : GLuint) : Z := (n + 2 ^ 31) mod 2 ^ 32 - 2 ^ 31.

Inductive GLformat : Set := GL_RGB | GL_RGBA.
Inductive GLparam : Set :=
| GL_TEXTURE_WRAP_S | GL_TEXTURE_WRAP_T | GL_TEXTURE_MIN_FILTER | GL_TEXTURE_MAG_FILTER.
Inductive GLparamValue : Set := GL_REPEAT | GL_LINEAR.

(** The calls on the texture API.  [glDeleteTextures] is the call that frees a
    texture name; it is part of the API, whether or not the code issues it. *)
Inductive GLcall : Set :=
| glGenTextures (name : GLuint)                 (* the name handed out *)
| glBindTexture (texture : GLuint)              (* target GL_TEXTURE_2D *)
| glActiveTexture (unit : nat)                  (* GL_TEXTURE0 + unit *)
| glTexParameteri (pname : GLparam) (param : GLparamValue)
| glTexImage2D (format : GLformat) (width height : Z)
| glGenerateMipmap
| glDeleteTextures (name : GLuint).

Record GLcontext := mk_GLcontext {
  gl_next_name : GLuint;           (* the next unused texture name *)
  gl_active_unit : nat;            (* the active texture unit *)
  gl_bound_2D : gmap nat GLuint;   (* unit -> texture bound to GL_TEXTURE_2D *)
  gl_calls : list GLcall           (* the calls issued, oldest first *)
}.

Definition gl_log (c : GLcall) (g : GLcontext) : GLcontext :=
  mk_GLcontext (gl_next_name g) (gl_active_unit g) (gl_bound_2D g) (gl_calls g ++ [c]).

(** [glGenTextures(1, &id)]: hands out an unused name. *)
Definition do_glGenTextures (g : GLcontext) : GLuint * GLcontext :=
  let name := gl_next_name g in
  (name, mk_GLcontext (name + 1) (gl_active_unit g) (gl_bound_2D g)
                      (gl_calls g ++ [glGenTextures name])).

(** [glBindTexture(GL_TEXTURE_2D, texture)]: binds on the active unit. *)
Definition do_glBindTexture (texture : GLuint) (g : GLcontext) : GLcontext :=
  mk_GLcontext (gl_next_name g) (gl_active_unit g)
               (<[gl_active_unit g := texture]> (gl_bound_2D g))
               (gl_calls g ++ [glBindTexture texture]).

(** [glActiveTexture(GL_TEXTURE0 + unit)]. *)
Definition do_glActiveTexture (unit : nat) (g : GLcontext) : GLcontext :=
  mk_GLcontext (gl_next_name g) unit (gl_bound_2D g)
               (gl_calls g ++ [glActiveTexture unit]).

(** What [stbi_load] returns for a file it can decode. *)
Record stb_image := mk_stb_image { width : Z; height : Z; colorChannels : Z }.

(** ** Uniforms and the shader gateway *)
Section Scene.
Context {F : Type} `{GLfloat F}.

(** The value of a uniform, by the setter that wrote it. *)
Inductive uniform : Type :=
| UMat4 (m : mat4 F)
| UVec2 (v : vec2 F)
| UVec3 (v : vec3 F)
| UVec4 (v : vec4 F)
| UFloat (f : F)
| UInt (i : Z)
| UBool (b : bool)
| USampler2D (slot : Z).

(** Modelled from the spec: the [ShaderManager] class (ShaderManager.h and
    ShaderManager.cpp are not among the sources).  The spec's Shader State
    Gateway: named-uniform setters whose writes are immediate, with no
    batching and no dirty-tracking.  [uniforms] is the uniform state of the
    shader program; [written] records every write in program order. *)
Record ShaderManager := mk_ShaderManager {
  uniforms : gmap string uniform;
  written : list (string * uniform)
}.

Definition set_uniform (name : string) (v : uniform) (sm : ShaderManager) : ShaderManager :=
  mk_ShaderManager (<[name := v]> (uniforms sm)) (written sm ++ [(name, v)]).

Definition setMat4Value (name : string) (m : mat4 F) := set_uniform name (UMat4 m).
Definition setVec2Value (name : string) (v : vec2 F) := set_uniform name (UVec2 v).
Definition setVec3Value (name : string) (v : vec3 F) := set_uniform name (UVec3 v).
Definition setVec4Value (name : string) (v : vec4 F) := set_uniform name (UVec4 v).
Definition setFloatValue (name : string) (f : F) := set_uniform name (UFloat f).
Definition setIntValue (name : string) (i : Z) := set_uniform name (UInt i).
Definition setBoolValue (name : string) (b : bool) := set_uniform name (UBool b).
Definition setSampler2DValue (name : string) (slot : Z) := set_uniform name (USampler2D slot).

(** ** The scene manager's data *)

(** Modelled from the spec: the struct [TEXTURE_INFO] of SceneManager.h
    (the header is not among the sources), the spec's TextureEntry: a GPU
    handle and a tag. *)
Record TEXTURE_INFO := mk_TEXTURE_INFO { ID : GLuint; tag : string }.

(** Modelled from the spec: the struct [OBJECT_MATERIAL] of SceneManager.h,
    the spec's Material, with the members SceneManager.cpp reads and
    writes. *)
Record OBJECT_MATERIAL := mk_OBJECT_MATERIAL {
  diffuseColor : vec3 F;
  specularColor : vec3 F;
  shininess : F;
  material_tag : string         (* the member is called tag as well *)
}.

(** Modelled from the spec: the number of cells of [m_textureIDs], declared
    in SceneManager.h; the spec's N = 16 texture units. *)
Definition MAX_TEXTURES : nat := 16.

(** [m_pShaderManager]: null, or the address of the application's one
    ShaderManager (the scene manager does not own it). *)
Inductive ShaderManager_ptr : Set := NULL | shader_address.

(** Modelled from the spec: the data members of the class, declared in
    SceneManager.h, as SceneManager.cpp uses them.  [m_basicMeshes] belongs
    to the mesh library and is left out. *)
Record SceneManager := mk_SceneManager {
  m_pShaderManager : ShaderManager_ptr;
  m_textureIDs : list TEXTURE_INFO;          (* TEXTURE_INFO m_textureIDs[16] *)
  m_loadedTextures : nat;                    (* int, counted up from 0 *)
  m_objectMaterials : list OBJECT_MATERIAL   (* std::vector<OBJECT_MATERIAL> *)
}.

Record World := mk_World {
  scene : SceneManager;
  gl : GLcontext;
  shader : ShaderManager
}.

Definition with_gl (g : GLcontext) (w : World) : World :=
  mk_World (scene w) g (shader w).

Definition with_shader (sm : ShaderManager) (w : World) : World :=
  mk_World (scene w) (gl w) sm.

Definition with_textures (ids : list TEXTURE_INFO) (n : nat) (w : World) : World :=
  mk_World (mk_SceneManager (m_pShaderManager (scene w)) ids n
                            (m_objectMaterials (scene w)))
           (gl w) (shader w).

Definition with_materials (ms : list OBJECT_MATERIAL) (w : World) : World :=
  mk_World (mk_SceneManager (m_pShaderManager (scene w)) (m_textureIDs (scene w))
                            (m_loadedTextures (scene w)) ms)
           (gl w) (shader w).

(** [m_pShaderManager->setter(...)] with no test of the pointer. *)
Definition call_shader (set : ShaderManager -> ShaderManager) (w : World) : outcome World :=
  match m_pShaderManager (scene w) with
  | NULL => Undefined NullDereference
  | shader_address => Ok (with_shader (set (shader w)) w)
  end.

(** The registry invariant: the array has its 16 cells and the count of
    loaded textures does not exceed them. *)
Definition registry_ok (w : World) : Prop :=
  length (m_textureIDs (scene w)) = MAX_TEXTURES /\
  (m_loadedTextures (scene w) <= MAX_TEXTURES)%nat.
End Scene.

Arguments uniform : clear implicits.
Arguments ShaderManager : clear implicits.
Arguments OBJECT_MATERIAL : clear implicits.
Arguments SceneManager : clear implicits.
Arguments World : clear implicits.

(** ** The methods of SceneManager.cpp *)

(** The names of the uniforms (the globals of the anonymous namespace). *)
Definition g_ModelName : string := "model".
Definition g_ColorValueName : string := "objectColor".
Definition g_TextureValueName : string := "objectTexture".
Definition g_UseTextureName : string := "bUseTexture".
Definition g_UseLightingName : string := "bUseLighting".

Section Methods.
Context {F : Type} `{GLfloat F}.

(** The image decoder and the files it reads: [stbi_load filename] is
    [None] when the file is missing or cannot be decoded. *)
Variable stbi_load : string -> option stb_image.

(** [CreateGLTexture(filename, tag)].  The two assignments to the cell
    [m_textureIDs[m_loadedTextures]] are one update of the cell; the cell
    must exist.  Console output and [stbi_image_free] are left out. *)
Definition CreateGLTexture (filename : string) (tag : string) (w : World F)
  : outcome (bool * World F) :=
  match stbi_load filename with
  | Some image =>
      let '(textureID, g) := do_glGenTextures (gl w) in
      let g := do_glBindTexture textureID g in
      let g := gl_log (glTexParameteri GL_TEXTURE_WRAP_S GL_REPEAT) g in
      let g := gl_log (glTexParameteri GL_TEXTURE_WRAP_T GL_REPEAT) g in
      let g := gl_log (glTexParameteri GL_TEXTURE_MIN_FILTER GL_LINEAR) g in
      let g := gl_log (glTexParameteri GL_TEXTURE_MAG_FILTER GL_LINEAR) g in
      let register (g : GLcontext) : outcome (bool * World F) :=
        let g := gl_log glGenerateMipmap g in
        let g := do_glBindTexture 0 g in
        let n := m_loadedTextures (scene w) in
        if decide (n < length (m_textureIDs (scene w)))%nat then
          Ok (true,
              with_textures (<[n := mk_TEXTURE_INFO textureID tag]> (m_textureIDs (scene w)))
                            (S n) (with_gl g w))
        else Undefined OutOfBounds in
      if colorChannels image =? 3 then
        register (gl_log (glTexImage2D GL_RGB (width image) (height image)) g)
      else if colorChannels image =? 4 then
        register (gl_log (glTexImage2D GL_RGBA (width image) (height image)) g)
      else
        Ok (false, with_gl g w)
  | None => Ok (false, w)
  end.

(** The loop of [BindGLTextures], with [remaining] iterations to go from
    index [i]. *)
Fixpoint BindGLTextures_loop (remaining i : nat) (ids : list TEXTURE_INFO)
    (g : GLcontext) : outcome GLcontext :=
  match remaining with
  | O => Ok g
  | S remaining' =>
      match ids !! i with
      | Some t =>
          BindGLTextures_loop remaining' (S i) ids
            (do_glBindTexture (ID t) (do_glActiveTexture i g))
      | None => Undefined OutOfBounds
      end
  end.

Definition BindGLTextures (w : World F) : outcome (World F) :=
  g ← BindGLTextures_loop (m_loadedTextures (scene w)) 0 (m_textureIDs (scene w)) (gl w);
  Ok (with_gl g w).

(** The loop of [DestroyGLTextures]: [glGenTextures(1, &m_textureIDs[i].ID)]
    stores a newly generated name in the cell. *)
Fixpoint DestroyGLTextures_loop (remaining i : nat) (ids : list TEXTURE_INFO)
    (g : GLcontext) : outcome (list TEXTURE_INFO * GLcontext) :=
  match remaining with
  | O => Ok (ids, g)
  | S remaining' =>
      match ids !! i with
      | Some t =>
          let '(name, g') := do_glGenTextures g in
          DestroyGLTextures_loop remaining' (S i)
            (<[i := mk_TEXTURE_INFO name (tag t)]> ids) g'
      | None => Undefined OutOfBounds
      end
  end.

Definition DestroyGLTextures (w : World F) : outcome (World F) :=
  '(ids, g) ← DestroyGLTextures_loop (m_loadedTextures (scene w)) 0
                (m_textureIDs (scene w)) (gl w);
  Ok (with_textures ids (m_loadedTextures (scene w)) (with_gl g w)).

(** The [while] loop of [FindTextureID]: [remaining] is
    [m_loadedTextures - index]; the loop ends when it finds the tag
    ([bFound]) or runs out of loaded textures ([textureID] still -1).
    [std::string::compare] is 0 exactly on equal strings. *)
Fixpoint FindTextureID_loop (remaining index : nat) (ids : list TEXTURE_INFO)
    (t : string) : outcome Z :=
  match remaining with
  | O => Ok (-1)
  | S remaining' =>
      match ids !! index with
      | Some e =>
          if String.eqb (tag e) t then Ok (int_of_GLuint (ID e))
          else FindTextureID_loop remaining' (S index) ids t
      | None => Undefined OutOfBounds
      end
  end.

Definition FindTextureID (t : string) (w : World F) : outcome Z :=
  FindTextureID_loop (m_loadedTextures (scene w)) 0 (m_textureIDs (scene w)) t.

(** The [while] loop of [FindTextureSlot]. *)
Fixpoint FindTextureSlot_loop (remaining index : nat) (ids : list TEXTURE_INFO)
    (t : string) : outcome Z :=
  match remaining with
  | O => Ok (-1)
  | S remaining' =>
      match ids !! index with
      | Some e =>
          if String.eqb (tag e) t then Ok (Z.of_nat index)
          else FindTextureSlot_loop remaining' (S index) ids t
      | None => Undefined OutOfBounds
      end
  end.

Definition FindTextureSlot (t : string) (w : World F) : outcome Z :=
  FindTextureSlot_loop (m_loadedTextures (scene w)) 0 (m_textureIDs (scene w)) t.

(** The [while] loop of [FindMaterial]: on a match the three values are
    copied into the caller's [material] (its tag is not assigned). *)
Fixpoint FindMaterial_loop (remaining index : nat) (ms : list (OBJECT_MATERIAL F))
    (t : string) (material : OBJECT_MATERIAL F) : outcome (OBJECT_MATERIAL F) :=
  match remaining with
  | O => Ok material
  | S remaining' =>
      match ms !! index with
      | Some m =>
          if String.eqb (material_tag m) t then
            Ok (mk_OBJECT_MATERIAL (diffuseColor m) (specularColor m) (shininess m)
                                   (material_tag material))
          else FindMaterial_loop remaining' (S index) ms t material
      | None => Undefined OutOfBounds
      end
  end.

(** [FindMaterial(tag, material)]: the result and the contents of the
    reference parameter afterwards. *)
Definition FindMaterial (t : string) (material : OBJECT_MATERIAL F) (w : World F)
  : outcome (bool * OBJECT_MATERIAL F) :=
  let ms := m_objectMaterials (scene w) in
  if decide (length ms = 0)%nat then Ok (false, material)
  else
    material' ← FindMaterial_loop (length ms) 0 ms t material;
    Ok (true, material').

(** [SetTransformations]: the product is taken left to right, as C++
    parses [translation * rotationZ * rotationY * rotationX * scale]. *)
Definition modelView (scaleXYZ : vec3 F) (XrotationDegrees YrotationDegrees
    ZrotationDegrees : F) (positionXYZ : vec3 F) : mat4 F :=
  let scale := glm_scale scaleXYZ in
  let rotationX := glm_rotate (fradians XrotationDegrees) (mk_vec3 fone fzero fzero) in
  let rotationY := glm_rotate (fradians YrotationDegrees) (mk_vec3 fzero fone fzero) in
  let rotationZ := glm_rotate (fradians ZrotationDegrees) (mk_vec3 fzero fzero fone) in
  let translation := glm_translate positionXYZ in
  mat4_mul (mat4_mul (mat4_mul (mat4_mul translation rotationZ) rotationY) rotationX) scale.

Definition SetTransformations (scaleXYZ : vec3 F) (XrotationDegrees YrotationDegrees
    ZrotationDegrees : F) (positionXYZ : vec3 F) (w : World F) : outcome (World F) :=
  let m := modelView scaleXYZ XrotationDegrees YrotationDegrees ZrotationDegrees
                     positionXYZ in
  match m_pShaderManager (scene w) with
  | NULL => Ok w
  | shader_address => Ok (with_shader (setMat4Value g_ModelName m (shader w)) w)
  end.

(** [SetShaderColor]: [setIntValue(g_UseTextureName, false)] passes 0. *)
Definition SetShaderColor (redColorValue greenColorValue blueColorValue alphaValue : F)
    (w : World F) : outcome (World F) :=
  let currentColor := mk_vec4 redColorValue greenColorValue blueColorValue alphaValue in
  match m_pShaderManager (scene w) with
  | NULL => Ok w
  | shader_address =>
      let sm := setIntValue g_UseTextureName 0 (shader w) in
      Ok (with_shader (setVec4Value g_ColorValueName currentColor sm) w)
  end.

(** [SetShaderTexture]: [setIntValue(g_UseTextureName, true)] passes 1; the
    slot found, or -1, goes to the sampler uniform. *)
Definition SetShaderTexture (textureTag : string) (w : World F) : outcome (World F) :=
  match m_pShaderManager (scene w) with
  | NULL => Ok w
  | shader_address =>
      let sm := setIntValue g_UseTextureName 1 (shader w) in
      textureID ← FindTextureSlot textureTag w;
      Ok (with_shader (setSampler2DValue g_TextureValueName textureID sm) w)
  end.

Definition SetTextureUVScale (u v : F) (w : World F) : outcome (World F) :=
  match m_pShaderManager (scene w) with
  | NULL => Ok w
  | shader_address => Ok (with_shader (setVec2Value "UVscale" (mk_vec2 u v) (shader w)) w)
  end.

(** [SetShaderMaterial].  The local [OBJECT_MATERIAL material] is declared
    without an initialiser; [indeterminate] is what it holds before
    [FindMaterial] is called.  The setters are called with no test of
    [m_pShaderManager]. *)
Definition SetShaderMaterial (indeterminate : OBJECT_MATERIAL F) (materialTag : string)
    (w : World F) : outcome (World F) :=
  if decide (0 < length (m_objectMaterials (scene w)))%nat then
    '(bReturn, material) ← FindMaterial materialTag indeterminate w;
    if (bReturn : bool) then
      w ← call_shader (setVec3Value "material.diffuseColor" (diffuseColor material)) w;
      w ← call_shader (setVec3Value "material.specularColor" (specularColor material)) w;
      call_shader (setFloatValue "material.shininess" (shininess material)) w
    else Ok w
  else Ok w.

(** [glm::vec3(a, b, c)] on decimal literals. *)
Definition lit3 (a b c : Q) : vec3 F := mk_vec3 (fliteral a) (fliteral b) (fliteral c).

(** [DefineObjectMaterials]: two [push_back]s. *)
Definition DefineObjectMaterials (w : World F) : outcome (World F) :=
  let woodMaterial :=
    mk_OBJECT_MATERIAL (lit3 0.3 0.2 0.1) (lit3 0.1 0.1 0.1) (fliteral 0.3) "wood" in
  let w := with_materials (m_objectMaterials (scene w) ++ [woodMaterial]) w in
  let plasticMaterial :=
    mk_OBJECT_MATERIAL (lit3 0.3 0.3 0.4) (lit3 0.05 0.05 0.05) (fliteral 0.02) "plastic" in
  Ok (with_materials (m_objectMaterials (scene w) ++ [plasticMaterial]) w).

(** [SetupSceneLights]: 50 writes through [m_pShaderManager], none guarded. *)
Definition SetupSceneLights (w : World F) : outcome (World F) :=
  w ← call_shader (setBoolValue g_UseLightingName true) w;
  w ← call_shader (setVec3Value "ambientLight" (lit3 0.2 0.2 0.2)) w;
  w ← call_shader (setVec3Value "directionalLight.direction" (lit3 (-0.3) (-1.0) (-0.5))) w;
  w ← call_shader (setVec3Value "directionalLight.ambient" (lit3 0.2 0.2 0.2)) w;
  w ← call_shader (setVec3Value "directionalLight.diffuse" (lit3 0.8 0.8 0.8)) w;
  w ← call_shader (setVec3Value "directionalLight.specular" (lit3 1.0 1.0 1.0)) w;
  w ← call_shader (setBoolValue "directionalLight.bActive" true) w;
  w ← call_shader (setVec3Value "spotLight.position" (lit3 0.0 10.0 5.0)) w;
  w ← call_shader (setVec3Value "spotLight.direction" (lit3 0.0 (-1.0) 0.0)) w;
  w ← call_shader (setVec3Value "spotLight.ambient" (lit3 0.1 0.1 0.1)) w;
  w ← call_shader (setVec3Value "spotLight.diffuse" (lit3 1.0 0.9 0.8)) w;
  w ← call_shader (setVec3Value "spotLight.specular" (lit3 1.0 1.0 1.0)) w;
  w ← call_shader (setFloatValue "spotLight.cutOff" (fcos (fradians (fliteral 10.0)))) w;
  w ← call_shader (setFloatValue "spotLight.outerCutOff" (fcos (fradians (fliteral 30.0)))) w;
  w ← call_shader (setFloatValue "spotLight.constant" (fliteral 1.0)) w;
  w ← call_shader (setFloatValue "spotLight.linear" (fliteral 0.09)) w;
  w ← call_shader (setFloatValue "spotLight.quadratic" (fliteral 0.032)) w;
  w ← call_shader (setBoolValue "spotLight.bActive" true) w;
  w ← call_shader (setVec3Value "pointLights[0].position" (lit3 (-11.0) 8.0 6.0)) w;
  w ← call_shader (setVec3Value "pointLights[0].ambient" (lit3 0.05 0.05 0.05)) w;
  w ← call_shader (setVec3Value "pointLights[0].diffuse" (lit3 0.8 0.8 0.8)) w;
  w ← call_shader (setVec3Value "pointLights[0].specular" (lit3 1.0 1.0 1.0)) w;
  w ← call_shader (setFloatValue "pointLights[0].constant" (fliteral 1.0)) w;
  w ← call_shader (setFloatValue "pointLights[0].linear" (fliteral 0.14)) w;
  w ← call_shader (setFloatValue "pointLights[0].quadratic" (fliteral 0.07)) w;
  w ← call_shader (setBoolValue "pointLights[0].bActive" true) w;
  w ← call_shader (setVec3Value "pointLights[1].position" (lit3 (-6.0) 8.0 6.5)) w;
  w ← call_shader (setVec3Value "pointLights[1].ambient" (lit3 0.05 0.05 0.05)) w;
  w ← call_shader (setVec3Value "pointLights[1].diffuse" (lit3 0.8 0.8 0.8)) w;
  w ← call_shader (setVec3Value "pointLights[1].specular" (lit3 1.0 1.0 1.0)) w;
  w ← call_shader (setFloatValue "pointLights[1].constant" (fliteral 1.0)) w;
  w ← call_shader (setFloatValue "pointLights[1].linear" (fliteral 0.14)) w;
  w ← call_shader (setFloatValue "pointLights[1].quadratic" (fliteral 0.07)) w;
  w ← call_shader (setBoolValue "pointLights[1].bActive" true) w;
  w ← call_shader (setVec3Value "pointLights[2].position" (lit3 3.0 8.0 4.0)) w;
  w ← call_shader (setVec3Value "pointLights[2].ambient" (lit3 0.05 0.05 0.05)) w;
  w ← call_shader (setVec3Value "pointLights[2].diffuse" (lit3 0.8 0.8 0.8)) w;
  w ← call_shader (setVec3Value "pointLights[2].specular" (lit3 1.0 1.0 1.0)) w;
  w ← call_shader (setFloatValue "pointLights[2].constant" (fliteral 1.0)) w;
  w ← call_shader (setFloatValue "pointLights[2].linear" (fliteral 0.14)) w;
  w ← call_shader (setFloatValue "pointLights[2].quadratic" (fliteral 0.07)) w;
  w ← call_shader (setBoolValue "pointLights[2].bActive" true) w;
  w ← call_shader (setVec3Value "pointLights[3].position" (lit3 9.0 8.0 6.0)) w;
  w ← call_shader (setVec3Value "pointLights[3].ambient" (lit3 0.05 0.05 0.05)) w;
  w ← call_shader (setVec3Value "pointLights[3].diffuse" (lit3 0.8 0.8 0.8)) w;
  w ← call_shader (setVec3Value "pointLights[3].specular" (lit3 1.0 1.0 1.0)) w;
  w ← call_shader (setFloatValue "pointLights[3].constant" (fliteral 1.0)) w;
  w ← call_shader (setFloatValue "pointLights[3].linear" (fliteral 0.14)) w;
  w ← call_shader (setFloatValue "pointLights[3].quadratic" (fliteral 0.07)) w;
  call_shader (setBoolValue "pointLights[3].bActive" true) w.

(** The registrations of [LoadSceneTextures], for a list of files and tags:
    [CreateGLTexture] on each in turn, the result [bReturn] ignored, then
    [BindGLTextures]. *)
Fixpoint CreateGLTextures (textures : list (string * string)) (w : World F)
  : outcome (World F) :=
  match textures with
  | [] => Ok w
  | (filename, t) :: rest =>
      '(_, w') ← CreateGLTexture filename t w;
      CreateGLTextures rest w'
  end.

Definition LoadSceneTextures_of (textures : list (string * string)) (w : World F)
  : outcome (World F) :=
  w' ← CreateGLTextures textures w;
  BindGLTextures w'.

(** The six textures of the final project. *)
Definition scene_textures : list (string * string) :=
  [ ("textures/black.jpg", "mugbase");
    ("textures/teachflag.jpg", "flag");
    ("textures/Wood066_2K-JPG_Color.jpg", "table");
    ("textures/Wood048_1K-JPG_Color.jpg", "plank");
    ("textures/Plastic010_1K-JPG_Color.jpg", "plastic");
    ("textures/office.jpg", "office") ].

Definition LoadSceneTextures (w : World F) : outcome (World F) :=
  LoadSceneTextures_of scene_textures w.
End Methods.

(** * Preparing and rendering the scene *)

(** Modelled from the spec: the mesh library behind [m_basicMeshes]
    (ShapeMeshes is not among the sources), the spec's "load mesh of kind K"
    and "draw mesh of kind K with optional face flags".  Only the calls are
    recorded; the geometry is opaque. *)
Inductive mesh_kind : Set :=
| PlaneMesh | CylinderMesh | TorusMesh | BoxMesh | SphereMesh.

(** Modelled from the spec: the one enumerator of the mesh library's box
    sides that the code names, [ShapeMeshes::front]. *)
Inductive BoxSide : Set := front.

(** Modelled from the spec: the draw calls of the mesh library that the code
    issues, with their arguments. *)
Inductive mesh_call : Set :=
| DrawPlaneMesh
| DrawBoxMesh
| DrawBoxMeshSide (side : BoxSide)
| DrawCylinderMesh (flag1 flag2 flag3 : bool)
| DrawTorusMesh
| DrawHalfSphereMesh.

Section Rendering.
Context {F : Type} `{GLfloat F}.
Variable stbi_load : string → option stb_image.

(** What the mesh library was asked to do: load a mesh, or draw one with the
    uniform state the shader program had at that moment. *)
Inductive mesh_event : Type :=
| MeshLoaded (kind : mesh_kind)
| MeshDrawn (call : mesh_call) (seen : gmap string (uniform F)).

(** The world together with the record of the mesh library's calls. *)
Record Stage := mk_Stage {
  stage_world : World F;
  mesh_events : list mesh_event
}.

(** A call of a scene-manager method on the world of the stage. *)
Definition on_world (method : World F → outcome (World F)) (s : Stage) : outcome Stage :=
  w ← method (stage_world s);
  Ok (mk_Stage w (mesh_events s)).

(** [m_basicMeshes->LoadXMesh()]. *)
Definition load_mesh (kind : mesh_kind) (s : Stage) : outcome Stage :=
  Ok (mk_Stage (stage_world s) (mesh_events s ++ [MeshLoaded kind])).

(** [PrepareScene]. *)
Definition PrepareScene (s : Stage) : outcome Stage :=
  s ← on_world DefineObjectMaterials s;
  s ← on_world SetupSceneLights s;
  s ← on_world (LoadSceneTextures stbi_load) s;
  s ← load_mesh PlaneMesh s;
  s ← load_mesh CylinderMesh s;
  s ← load_mesh TorusMesh s;
  s ← load_mesh BoxMesh s;
  load_mesh SphereMesh s.

(** The statements of the [Render...] methods: calls of the five per-draw
    setters and of the mesh library, one after the other, with the local
    variables written out as arguments.  [CallSetShaderMaterial] carries what
    the callee's uninitialised local holds at that call. *)
Inductive call : Type :=
| CallSetTransformations (scaleXYZ : vec3 F)
    (XrotationDegrees YrotationDegrees ZrotationDegrees : F) (positionXYZ : vec3 F)
| CallSetShaderColor (redColorValue greenColorValue blueColorValue alphaValue : F)
| CallSetShaderTexture (textureTag : string)
| CallSetTextureUVScale (u v : F)
| CallSetShaderMaterial (indeterminate : OBJECT_MATERIAL F) (materialTag : string)
| CallDraw (drawn : mesh_call).

Definition exec (c : call) (s : Stage) : outcome Stage :=
  match c with
  | CallSetTransformations scaleXYZ x y z positionXYZ =>
      on_world (SetTransformations scaleXYZ x y z positionXYZ) s
  | CallSetShaderColor r g b a => on_world (SetShaderColor r g b a) s
  | CallSetShaderTexture textureTag => on_world (SetShaderTexture textureTag) s
  | CallSetTextureUVScale u v => on_world (SetTextureUVScale u v) s
  | CallSetShaderMaterial indeterminate materialTag =>
      on_world (SetShaderMaterial indeterminate materialTag) s
  | CallDraw drawn =>
      Ok (mk_Stage (stage_world s)
                   (mesh_events s ++ [MeshDrawn drawn (uniforms (shader (stage_world s)))]))
  end.

(** The statements in order; the first that is undefined ends the run. *)
Fixpoint run (calls : list call) (s : Stage) : outcome Stage :=
  match calls with
  | [] => Ok s
  | c :: rest => s' ← exec c s; run rest s'
  end.

(** [RenderTableTop].  [stack k] is what the local of the k-th
    [SetShaderMaterial] call of the method holds. *)
Definition RenderTableTop_body (stack : nat → OBJECT_MATERIAL F) : list call :=
  [ CallSetTransformations (lit3 30.0 1.0 15.0) (fliteral 0.0) (fliteral 0.0) (fliteral 0.0) (lit3 0.0 (-0.5) 3.0);
    CallSetShaderTexture "table";
    CallSetShaderMaterial (stack 0%nat) "wood";
    CallDraw DrawBoxMesh ].

(** [RenderMug]: the body, the bottom, the handle. *)
Definition RenderMug_body (stack : nat → OBJECT_MATERIAL F) : list call :=
  [ CallSetTransformations (lit3 1.0 2.8 1.0) (fliteral 0.0) (fliteral 120.0) (fliteral 0.0) (lit3 (-10.2) 0.1 3.0);
    CallSetShaderTexture "flag";
    CallSetTextureUVScale (fliteral 0.5) (fliteral 0.5);
    CallSetShaderMaterial (stack 0%nat) "wood";
    CallDraw (DrawCylinderMesh false false true);
    CallSetShaderTexture "mugbase";
    CallSetTextureUVScale (fliteral 0.5) (fliteral 0.5);
    CallSetShaderMaterial (stack 1%nat) "wood";
    CallDraw (DrawCylinderMesh false true false);
    CallSetTransformations (lit3 0.6 0.9 0.6) (fliteral 0.0) (fliteral 0.0) (fliteral 0.0) (lit3 (-9.0) 1.5 3.0);
    CallSetShaderTexture "mugbase";
    CallSetShaderMaterial (stack 2%nat) "wood";
    CallDraw DrawTorusMesh ].

(** [RenderOffieDeskItem]: the front face, then the whole box. *)
Definition RenderOffieDeskItem_body (stack : nat → OBJECT_MATERIAL F) : list call :=
  [ CallSetTransformations (lit3 6.0 5.0 0.5) (fliteral 0.0) (fliteral 0.0) (fliteral 0.0) (lit3 (-4.5) 2.5 3.0);
    CallSetShaderTexture "office";
    CallSetTextureUVScale (fliteral 1.0) (fliteral 1.0);
    CallSetShaderMaterial (stack 0%nat) "wood";
    CallDraw (DrawBoxMeshSide front);
    CallSetShaderTexture "mugbase";
    CallSetTextureUVScale (fliteral 1.0) (fliteral 1.0);
    CallSetShaderMaterial (stack 1%nat) "wood";
    CallDraw DrawBoxMesh ].

(** [RenderTrashCan]: the rounded base, then the side. *)
Definition RenderTrashCan_body (stack : nat → OBJECT_MATERIAL F) : list call :=
  [ CallSetTransformations (lit3 2.53 1.0 2.53) (fliteral 180.0) (fliteral 0.0) (fliteral 0.0) (lit3 4.5 1.0 3.0);
    CallSetShaderTexture "plastic";
    CallSetTextureUVScale (fliteral 1.0) (fliteral 1.0);
    CallSetShaderMaterial (stack 0%nat) "plastic";
    CallDraw DrawHalfSphereMesh;
    CallSetTransformations (lit3 2.5 5.0 2.5) (fliteral 0.0) (fliteral 0.0) (fliteral 0.0) (lit3 4.5 0.97 3.0);
    CallSetShaderTexture "plastic";
    CallSetTextureUVScale (fliteral 1.0) (fliteral 1.0);
    CallSetShaderMaterial (stack 1%nat) "plastic";
    CallDraw (DrawCylinderMesh false false true) ].

(** [RenderScrapWood]. *)
Definition RenderScrapWood_body (stack : nat → OBJECT_MATERIAL F) : list call :=
  [ CallSetTransformations (lit3 1.0 7.0 1.0) (fliteral 0.0) (fliteral 0.0) (fliteral 0.0) (lit3 10.0 3.5 3.0);
    CallSetShaderTexture "plank";
    CallSetTextureUVScale (fliteral 1.0) (fliteral 1.0);
    CallSetShaderMaterial (stack 0%nat) "wood";
    CallDraw DrawBoxMesh ].

Definition RenderTableTop (stack : nat → OBJECT_MATERIAL F) := run (RenderTableTop_body stack).
Definition RenderMug (stack : nat → OBJECT_MATERIAL F) := run (RenderMug_body stack).
Definition RenderOffieDeskItem (stack : nat → OBJECT_MATERIAL F) :=
  run (RenderOffieDeskItem_body stack).
Definition RenderTrashCan (stack : nat → OBJECT_MATERIAL F) := run (RenderTrashCan_body stack).
Definition RenderScrapWood (stack : nat → OBJECT_MATERIAL F) := run (RenderScrapWood_body stack).

(** [RenderScene]: the five objects in order.  [stack i] is the stack of the
    i-th method. *)
Definition RenderScene (stack : nat → nat → OBJECT_MATERIAL F) (s : Stage) : outcome Stage :=
  s ← RenderTableTop (stack 0%nat) s;
  s ← RenderMug (stack 1%nat) s;
  s ← RenderOffieDeskItem (stack 2%nat) s;
  s ← RenderTrashCan (stack 3%nat) s;
  RenderScrapWood (stack 4%nat) s.
End Rendering.

Arguments mesh_event : clear implicits.
Arguments Stage : clear implicits.
Arguments call : clear implicits.

(** * Vocabulary of the properties *)
Section Vocabulary.
Context {F : Type} `{GLfloat F}.
Variable stbi_load : string → option stb_image.

(** No cell of [ids] at an index in [lo, hi) carries the tag [t]. *)
Definition no_tag_between (ids : list TEXTURE_INFO) (t : string) (lo hi : nat) : Prop :=
  ∀ j e, (lo ≤ j < hi)%nat → ids !! j = Some e → tag e ≠ t.

(** Cell [i] is the first one from [lo] on that carries the tag [t]. *)
Definition first_tag_at (ids : list TEXTURE_INFO) (t : string) (lo i : nat)
    (e : TEXTURE_INFO) : Prop :=
  ids !! i = Some e ∧ tag e = t ∧ no_tag_between ids t lo i.

(** A linear scan of the first cells of [ids] for the tag [t], returning
    [result index cell] at the first cell that carries it and -1 when none
    does: what the spec's LookupSlot and LookupHandle have in common. *)
Fixpoint scan_loop (result : nat → TEXTURE_INFO → Z) (remaining index : nat)
    (ids : list TEXTURE_INFO) (t : string) : outcome Z :=
  match remaining with
  | O => Ok (-1)
  | S remaining' =>
      match ids !! index with
      | Some e =>
          if String.eqb (tag e) t then Ok (result index e)
          else scan_loop result remaining' (S index) ids t
      | None => Undefined OutOfBounds
      end
  end.

(** The file decodes to an image with 3 (RGB) or 4 (RGBA) channels. *)
Definition loadable (filename : string) : Prop :=
  ∃ image, stbi_load filename = Some image ∧
           (colorChannels image = 3 ∨ colorChannels image = 4).

(** [n] consecutive texture names from [first] on. *)
Fixpoint names_from (first : GLuint) (n : nat) : list GLuint :=
  match n with
  | O => []
  | S n' => first :: names_from (first + 1) n'
  end.

(** No material of the list carries the tag [t]. *)
Definition no_material (ms : list (OBJECT_MATERIAL F)) (t : string) : Prop :=
  ∀ m, m ∈ ms → material_tag m ≠ t.

(** The three writes of [SetShaderMaterial]. *)
Definition material_writes (material : OBJECT_MATERIAL F) (sm : ShaderManager F)
  : ShaderManager F :=
  setFloatValue "material.shininess" (shininess material)
    (setVec3Value "material.specularColor" (specularColor material)
       (setVec3Value "material.diffuseColor" (diffuseColor material) sm)).

(** The uniform state after the writes [ws], made in order. *)
Definition after_writes (m : gmap string (uniform F)) (ws : list (string * uniform F))
  : gmap string (uniform F) :=
  foldl (λ m kv, <[kv.1 := kv.2]> m) m ws.

(** [sm'] is [sm] after the writes [ws]. *)
Definition wrote (sm sm' : ShaderManager F) (ws : list (string * uniform F)) : Prop :=
  written sm' = written sm ++ ws ∧ uniforms sm' = after_writes (uniforms sm) ws.
End Vocabulary.

(** ** The lights of the spec *)

(** The parameter set of each kind of light: the spec's LightSource. *)
Definition directional_fields : list string :=
  ["direction"; "ambient"; "diffuse"; "specular"; "bActive"].

Definition spot_fields : list string :=
  ["position"; "direction"; "ambient"; "diffuse"; "specular"; "cutOff"; "outerCutOff";
   "constant"; "linear"; "quadratic"; "bActive"].

Definition point_fields : list string :=
  ["position"; "ambient"; "diffuse"; "specular"; "constant"; "linear"; "quadratic";
   "bActive"].

(** The uniform names of the block of a light. *)
Definition light_block (light : string) (fields : list string) : list string :=
  (λ field, light +:+ "." +:+ field) <$> fields.

(** [pointLights[i]], for a one-digit index. *)
Definition point_light (i : nat) : string :=
  "pointLights[" +:+ String (Ascii.ascii_of_nat (48 + i)) "" +:+ "]".

(** One directional block, one spot block, four point blocks. *)
Definition six_light_blocks : list string :=
  light_block "directionalLight" directional_fields ++
  light_block "spotLight" spot_fields ++
  light_block (point_light 0) point_fields ++
  light_block (point_light 1) point_fields ++
  light_block (point_light 2) point_fields ++
  light_block (point_light 3) point_fields.

Definition six_lights : list string :=
  ["directionalLight"; "spotLight"; point_light 0; point_light 1; point_light 2;
   point_light 3].

(** ** The transform of the spec, over the real numbers *)
Section RealMatrices.
Local Open Scope R_scope.

(** The matrices of the spec, column by column. *)
Definition Scale (s : vec3 R) : mat4 R :=
  mk_mat4 (mk_vec4 (x3 s) 0 0 0) (mk_vec4 0 (y3 s) 0 0)
          (mk_vec4 0 0 (z3 s) 0) (mk_vec4 0 0 0 1).

Definition RotationX (θ : R) : mat4 R :=
  mk_mat4 (mk_vec4 1 0 0 0) (mk_vec4 0 (cos θ) (sin θ) 0)
          (mk_vec4 0 (- sin θ) (cos θ) 0) (mk_vec4 0 0 0 1).

Definition RotationY (θ : R) : mat4 R :=
  mk_mat4 (mk_vec4 (cos θ) 0 (- sin θ) 0) (mk_vec4 0 1 0 0)
          (mk_vec4 (sin θ) 0 (cos θ) 0) (mk_vec4 0 0 0 1).

Definition RotationZ (θ : R) : mat4 R :=
  mk_mat4 (mk_vec4 (cos θ) (sin θ) 0 0) (mk_vec4 (- sin θ) (cos θ) 0 0)
          (mk_vec4 0 0 1 0) (mk_vec4 0 0 0 1).

Definition Translation (p : vec3 R) : mat4 R :=
  mk_mat4 (mk_vec4 1 0 0 0) (mk_vec4 0 1 0 0) (mk_vec4 0 0 1 0)
          (mk_vec4 (x3 p) (y3 p) (z3 p) 1).

(** Degrees to radians. *)
Definition radians (degrees : R) : R := degrees * (PI / 180).

(** The spec's Compose: M = Translation × RotationZ × RotationY × RotationX
    × Scale, the angles given in degrees. *)
Definition Compose (scale : vec3 R) (rotationDegreesX rotationDegreesY
    rotationDegreesZ : R) (translation : vec3 R) : mat4 R :=
  mat4_mul (mat4_mul (mat4_mul (mat4_mul (Translation translation)
                                         (RotationZ (radians rotationDegreesZ)))
                               (RotationY (radians rotationDegreesY)))
                     (RotationX (radians rotationDegreesX)))
           (Scale scale).
End RealMatrices.

(** ** IEEE 754 binary32

    The scalar type of the code.  A [float] is a [spec_float] of the
    Standard Library with 24 bits of precision and maximal exponent 128;
    [SFadd], [SFsub], [SFmul], [SFdiv] and [SFsqrt] are the IEEE operations
    rounding to nearest, ties to even. *)
Abbreviation binary32 := spec_float (only parsing).

(** The integer [n] as an exact, unrounded value. *)
Definition b32_exact (n : Z) : binary32 :=
  match n with
  | Z0 => S754_zero false
  | Zpos m => S754_finite false m 0
  | Zneg m => S754_finite true m 0
  end.

(** A decimal literal of the source ([0.3f]): the nearest [float]. *)
Definition b32_of_Q (q : Q) : binary32 :=
  SFdiv 24 128 (b32_exact (Qnum q)) (b32_exact (Zpos (Qden q))).

(** The C library behind [glm::cos] and [glm::sin]. *)
Record libm := mk_libm {
  cosf : binary32 -> binary32;
  sinf : binary32 -> binary32
}.

(** [float] arithmetic as the code and glm use it:
    [glm::inversesqrt(x)] is [1 / sqrt(x)] and [glm::radians(d)] is
    [d * 0.01745329251994329576923690768489]. *)
Definition GLfloat_binary32 (m : libm) : GLfloat binary32 := {|
  fzero := S754_zero false;
  fone := b32_of_Q 1;
  fadd := SFadd 24 128;
  fsub := SFsub 24 128;
  fmul := SFmul 24 128;
  finversesqrt := fun x => SFdiv 24 128 (b32_of_Q 1) (SFsqrt 24 128 x);
  fcos := cosf m;
  fsin := sinf m;
  fradians := fun d => SFmul 24 128 d (b32_of_Q 0.01745329251994329576923690768489);
  fliteral := b32_of_Q
|}.

(** Neither a NaN nor an infinity. *)
Definition b32_finite (x : binary32) : bool :=
  match x with
  | S754_zero _ | S754_finite _ _ _ => true
  | S754_infinity _ | S754_nan => false
  end.

(** The rational number a finite [float] stands for. *)
Definition b32_to_Q (x : binary32) : Q :=
  match x with
  | S754_finite s m e =>
      let n := cond_Zopp s (Zpos m) in
      if (0 <=? e)%Z then inject_Z (n * 2 ^ e) else Qmake n (Z.to_pos (2 ^ (- e)))
  | _ => 0%Q
  end.

Definition b32_to_R (x : binary32) : R := Q2R (b32_to_Q x).

(** The float [x] is finite and within [eps] of the real number [r]. *)
Definition b32_near (eps : R) (x : binary32) (r : R) : Prop :=
  b32_finite x = true ∧ (Rabs (b32_to_R x - r) <= eps)%R.

Definition vec4_near (eps : R) (v : vec4 binary32) (r : vec4 R) : Prop :=
  b32_near eps (x4 v) (x4 r) ∧ b32_near eps (y4 v) (y4 r) ∧
  b32_near eps (z4 v) (z4 r) ∧ b32_near eps (w4 v) (w4 r).

(** Every entry of the float matrix is within [eps] of the entry of the
    real matrix. *)
Definition mat4_near (eps : R) (m : mat4 binary32) (r : mat4 R) : Prop :=
  vec4_near eps (col0 m) (col0 r) ∧ vec4_near eps (col1 m) (col1 r) ∧
  vec4_near eps (col2 m) (col2 r) ∧ vec4_near eps (col3 m) (col3 r).

(** The float nearest to pi/2, which is [glm::radians(90.0f)]. *)
Definition b32_half_pi : binary32 := S754_finite false 13176795 (-23).

(** A C library tabulated at the two angles of the spec's example, 0 and 90
    degrees, with the correctly rounded values: cos 0 = 1, sin 0 = 0,
    cosf(radians(90)) = -4.371139e-08 (the float nearest to pi/2 is a little
    above pi/2), sinf(radians(90)) = 1.  Other arguments are not tabulated. *)
Definition tabulated_libm : libm :=
  mk_libm
    (fun x => if SFeqb x (S754_zero false) then b32_of_Q 1
              else if SFeqb x b32_half_pi then S754_finite true 12303662 (-48)
              else S754_nan)
    (fun x => if SFeqb x (S754_zero false) then S754_zero false
              else if SFeqb x b32_half_pi then b32_of_Q 1
              else S754_nan).

Definition vec4_to_R (v : vec4 binary32) : vec4 R :=
  mk_vec4 (b32_to_R (x4 v)) (b32_to_R (y4 v)) (b32_to_R (z4 v)) (b32_to_R (w4 v)).

(** The real matrix a matrix of finite floats stands for. *)
Definition mat4_to_R (m : mat4 binary32) : mat4 R :=
  mk_mat4 (vec4_to_R (col0 m)) (vec4_to_R (col1 m)) (vec4_to_R (col2 m))
          (vec4_to_R (col3 m)).

(** The model matrix [SetTransformations] builds for the spec's example:
    scale (2,1,1), rotation (0,90,0) in degrees, translation (5,0,0), the
    arguments written as literals of the scalar type. *)
Definition example_modelView {F : Type} `{GLfloat F} : mat4 F :=
  modelView (lit3 2 1 1) (fliteral 0) (fliteral 90) (fliteral 0) (lit3 5 0 0).

(** ** Worlds and files to run the methods on *)
Section Examples.
Context {F : Type} `{GLfloat F}.

(** A context that has handed out no texture name yet; unit 0 is active. *)
Definition fresh_GL : GLcontext := mk_GLcontext 1 0 ∅ [].

Definition fresh_shader : ShaderManager F := mk_ShaderManager ∅ [].

(** Sixteen cells, no texture loaded, no material defined. *)
Definition blank_cells : list TEXTURE_INFO :=
  replicate MAX_TEXTURES (mk_TEXTURE_INFO 0 "").

Definition fresh_world (p : ShaderManager_ptr) : World F :=
  mk_World (mk_SceneManager p blank_cells 0 []) fresh_GL fresh_shader.

(** Two textures registered: "table" in slot 0, "plank" in slot 1. *)
Definition two_textures (p : ShaderManager_ptr) : World F :=
  with_textures
    (<[1%nat := mk_TEXTURE_INFO 2 "plank"]> (<[0%nat := mk_TEXTURE_INFO 1 "table"]> blank_cells))
    2 (with_gl (mk_GLcontext 3 0 ∅ []) (fresh_world p)).

(** All sixteen cells taken. *)
Definition full_cells : list TEXTURE_INFO :=
  imap (λ i _, mk_TEXTURE_INFO (Z.of_nat i + 1) (String (Ascii.ascii_of_nat (97 + i)) ""))
       blank_cells.

Definition full_world (p : ShaderManager_ptr) : World F :=
  with_textures full_cells MAX_TEXTURES
    (with_gl (mk_GLcontext 17 0 ∅ []) (fresh_world p)).
End Examples.

(** A file system with one decodable RGB image and one single-channel image. *)
Definition two_files (filename : string) : option stb_image :=
  if String.eqb filename "textures/brick.jpg" then Some (mk_stb_image 64 64 3)
  else if String.eqb filename "textures/gray.png" then Some (mk_stb_image 8 8 1)
  else None.

(** A texture directory in which the six files of the final project are RGB
    images. *)
Definition scene_files (filename : string) : option stb_image :=
  if bool_decide (filename ∈ scene_textures.*1) then Some (mk_stb_image 1024 1024 3)
  else None.

(** The world after [DefineObjectMaterials]: "wood" and "plastic". *)
Definition materials_defined (p : ShaderManager_ptr) : World R :=
  with_materials
    [ mk_OBJECT_MATERIAL (lit3 0.3 0.2 0.1) (lit3 0.1 0.1 0.1) (fliteral 0.3) "wood";
      mk_OBJECT_MATERIAL (lit3 0.3 0.3 0.4) (lit3 0.05 0.05 0.05) (fliteral 0.02) "plastic" ]
    (fresh_world p).

(** What the local of [SetShaderMaterial] may hold before it is assigned. *)
Definition stack_garbage : OBJECT_MATERIAL R :=
  mk_OBJECT_MATERIAL (lit3 7 7 7) (lit3 9 9 9) (fliteral 42) "".

(** "table" and "plank" are registered; "plank" was selected for one draw,
    then opaque white for the next. *)
Definition after_color_draw : World R :=
  with_shader
    (mk_ShaderManager
       (<["objectColor" := UVec4 (mk_vec4 1 1 1 1)%R]>
          (<["bUseTexture" := UInt 0]>
             (<["objectTexture" := USampler2D 1]> (<["bUseTexture" := UInt 1]> ∅))))
       [("bUseTexture", UInt 1); ("objectTexture", USampler2D 1); ("bUseTexture", UInt 0);
        ("objectColor", UVec4 (mk_vec4 1 1 1 1)%R)])
    (two_textures shader_address).

(** Two textures registered, no shader manager attached. *)
Definition detached : World R := two_textures NULL.

(** ** Vocabulary of the further properties *)
Section MoreVocabulary.
Context {F : Type} `{GLfloat F}.
Variable stbi_load : string → option stb_image.

(** Entry [i] is the first material of the list that carries the tag [t]. *)
Definition first_material_at (ms : list (OBJECT_MATERIAL F)) (t : string) (i : nat)
    (m : OBJECT_MATERIAL F) : Prop :=
  ms !! i = Some m ∧ material_tag m = t ∧
  ∀ j m', (j < i)%nat → ms !! j = Some m' → material_tag m' ≠ t.

(** The caller's material after the three values of [m] were copied into it. *)
Definition copied_into (material m : OBJECT_MATERIAL F) : OBJECT_MATERIAL F :=
  mk_OBJECT_MATERIAL (diffuseColor m) (specularColor m) (shininess m)
                     (material_tag material).

(** The tag [t] is registered: cell [i], below the count, is the first with it. *)
Definition registered_at (w : World F) (t : string) (i : nat) (e : TEXTURE_INFO) : Prop :=
  (i < m_loadedTextures (scene w))%nat ∧ first_tag_at (m_textureIDs (scene w)) t 0 i e.

(** No loaded cell carries the tag [t]. *)
Definition unregistered (w : World F) (t : string) : Prop :=
  no_tag_between (m_textureIDs (scene w)) t 0 (m_loadedTextures (scene w)).

(** The calls the GL context received since it was [g]. *)
Definition calls_since (g g' : GLcontext) : list GLcall :=
  drop (length (gl_calls g)) (gl_calls g').

(** Whether the file decodes to an image with 3 or 4 channels. *)
Definition loadableb (filename : string) : bool :=
  match stbi_load filename with
  | Some image => (colorChannels image =? 3) || (colorChannels image =? 4)
  | None => false
  end.

(** The writes [ws] made in order through the setters. *)
Definition write_all (ws : list (string * uniform F)) (sm : ShaderManager F)
  : ShaderManager F :=
  foldl (λ sm kv, set_uniform kv.1 kv.2 sm) sm ws.

(** The value the last write to [name] in [ws] gave it, if there is one. *)
Fixpoint last_write (name : string) (ws : list (string * uniform F)) : option (uniform F) :=
  match ws with
  | [] => None
  | (k, v) :: rest =>
      match last_write name rest with
      | Some v' => Some v'
      | None => if String.eqb k name then Some v else None
      end
  end.

(** The uniform writes a statement makes in the world [w], when a shader
    manager is attached. *)
Definition writes_of (w : World F) (c : call F) : list (string * uniform F) :=
  match c with
  | CallSetTransformations scaleXYZ x y z positionXYZ =>
      [(g_ModelName, UMat4 (modelView scaleXYZ x y z positionXYZ))]
  | CallSetShaderColor r g b a =>
      [(g_UseTextureName, UInt 0); (g_ColorValueName, UVec4 (mk_vec4 r g b a))]
  | CallSetShaderTexture textureTag =>
      match FindTextureSlot textureTag w with
      | Ok slot => [(g_UseTextureName, UInt 1); (g_TextureValueName, USampler2D slot)]
      | Undefined _ => []
      end
  | CallSetTextureUVScale u v => [("UVscale", UVec2 (mk_vec2 u v))]
  | CallSetShaderMaterial indeterminate materialTag =>
      match FindMaterial materialTag indeterminate w with
      | Ok (true, material) =>
          [("material.diffuseColor", UVec3 (diffuseColor material));
           ("material.specularColor", UVec3 (specularColor material));
           ("material.shininess", UFloat (shininess material))]
      | _ => []
      end
  | CallDraw _ => []
  end.

(** The record a statement leaves with the mesh library, the uniform state
    being [seen]. *)
Definition drawn_by (c : call F) (seen : gmap string (uniform F)) : list (mesh_event F) :=
  match c with
  | CallDraw drawn => [MeshDrawn drawn seen]
  | _ => []
  end.

(** All the writes of a list of statements, in order. *)
Definition writes_of_all (w : World F) (calls : list (call F)) : list (string * uniform F) :=
  concat (writes_of w <$> calls).

(** The draws of a list of statements, each with the uniform state it sees,
    the state being [seen] at the start. *)
Fixpoint draws_of_all (w : World F) (calls : list (call F)) (seen : gmap string (uniform F))
  : list (mesh_event F) :=
  match calls with
  | [] => []
  | c :: rest =>
      drawn_by c seen ++ draws_of_all w rest (after_writes seen (writes_of w c))
  end.

(** The statements of [RenderScene], in order. *)
Definition RenderScene_body (stack : nat → nat → OBJECT_MATERIAL F) : list (call F) :=
  RenderTableTop_body (stack 0%nat) ++ RenderMug_body (stack 1%nat) ++
  RenderOffieDeskItem_body (stack 2%nat) ++ RenderTrashCan_body (stack 3%nat) ++
  RenderScrapWood_body (stack 4%nat).

(** The mesh calls among the events. *)
Definition drawn_calls (events : list (mesh_event F)) : list mesh_call :=
  omap (λ ev, match ev with MeshDrawn c _ => Some c | MeshLoaded _ => None end) events.

(** The draws a list of statements asks for. *)
Definition draws_in (calls : list (call F)) : list mesh_call :=
  omap (λ c, match c with CallDraw d => Some d | _ => None end) calls.

(** The statements contain a call of [SetShaderMaterial]. *)
Definition sets_material (calls : list (call F)) : Prop :=
  ∃ indeterminate t, CallSetShaderMaterial indeterminate t ∈ calls.
(** The uniform names a statement can write, whatever the world. *)
Definition may_write (c : call F) : list string :=
  match c with
  | CallSetTransformations _ _ _ _ _ => [g_ModelName]
  | CallSetShaderColor _ _ _ _ => [g_UseTextureName; g_ColorValueName]
  | CallSetShaderTexture _ => [g_UseTextureName; g_TextureValueName]
  | CallSetTextureUVScale _ _ => ["UVscale"]
  | CallSetShaderMaterial _ _ =>
      ["material.diffuseColor"; "material.specularColor"; "material.shininess"]
  | CallDraw _ => []
  end.

Definition may_write_all (calls : list (call F)) : list string :=
  concat (may_write <$> calls).

(** The nine draws of [RenderScene] in order, each with the texture tag and
    the material tag selected for it. *)
Definition RenderScene_draws : list (mesh_call * string * string) :=
  [ (DrawBoxMesh, "table", "wood");
    (DrawCylinderMesh false false true, "flag", "wood");
    (DrawCylinderMesh false true false, "mugbase", "wood");
    (DrawTorusMesh, "mugbase", "wood");
    (DrawBoxMeshSide front, "office", "wood");
    (DrawBoxMesh, "mugbase", "wood");
    (DrawHalfSphereMesh, "plastic", "plastic");
    (DrawCylinderMesh false false true, "plastic", "plastic");
    (DrawBoxMesh, "plank", "wood") ].

(** The draw events since the stage was [s]. *)
Definition events_since (s s' : Stage F) : list (mesh_event F) :=
  drop (length (mesh_events s)) (mesh_events s').

(** The five mesh loads of [PrepareScene]. *)
Definition PrepareScene_loads : list (mesh_event F) :=
  [MeshLoaded PlaneMesh; MeshLoaded CylinderMesh; MeshLoaded TorusMesh;
   MeshLoaded BoxMesh; MeshLoaded SphereMesh].
End MoreVocabulary.

(** A stage on which nothing was loaded or drawn yet. *)
Definition fresh_stage (p : ShaderManager_ptr) : Stage R := mk_Stage (fresh_world p) [].

(** A stack whose every slot holds [stack_garbage]. *)
Definition garbage_stack : nat → nat → OBJECT_MATERIAL R := λ _ _, stack_garbage.

(** "table" and "plank" registered, a shader manager attached, nothing drawn. *)
Definition textured_stage : Stage R := mk_Stage (two_textures shader_address) [].

(** "wood" and "plastic" defined, a shader manager attached, nothing drawn. *)
Definition defined_stage : Stage R := mk_Stage (materials_defined shader_address) [].

(** Only "plastic" is defined. *)
Definition plastic_only_stage : Stage R :=
  mk_Stage
    (with_materials
       [ mk_OBJECT_MATERIAL (lit3 0.3 0.3 0.4) (lit3 0.05 0.05 0.05) (fliteral 0.02)
                            "plastic" ]
       (fresh_world shader_address))
    [].

(** All sixteen cells taken, a shader manager attached. *)
Definition full_stage : Stage R := mk_Stage (full_world shader_address) [].


(** * Properties *)

(** Reading the cell at an index that is within the array or vector. *)
Tactic Notation "read_cell" constr(cells) constr(index) "as" ident(e) ident(He) :=
  destruct (cells !! index) as [e|] eqn:He; [|apply lookup_ge_None in He; lia].

(** ** The linear scans *)
Section Scans.
Context {F : Type} `{GLfloat F}.

(** The two lookups are the same scan; they differ in what they return for
    the cell found. *)
Lemma FindTextureSlot_loop_scan remaining index ids t :
  FindTextureSlot_loop remaining index ids t
    = scan_loop (λ i _, Z.of_nat i) remaining index ids t.
Proof.
  revert index. induction remaining as [|r IH]; intros index; [done|].
  cbn. destruct (ids !! index) as [e|]; [|done].
  destruct (String.eqb (tag e) t); [done | apply IH].
Qed.

Lemma FindTextureID_loop_scan remaining index ids t :
  FindTextureID_loop remaining index ids t
    = scan_loop (λ _ e, int_of_GLuint (ID e)) remaining index ids t.
Proof.
  revert index. induction remaining as [|r IH]; intros index; [done|].
  cbn. destruct (ids !! index) as [e|]; [|done].
  destruct (String.eqb (tag e) t); [done | apply IH].
Qed.

Lemma scan_loop_found result remaining index ids t i e :
  (index ≤ i < index + remaining)%nat →
  (index + remaining ≤ length ids)%nat →
  first_tag_at ids t index i e →
  scan_loop result remaining index ids t = Ok (result i e).
Proof.
  revert index.
  induction remaining as [|r IH]; intros index Hi Hlen (Hie & Hte & Hno); [lia|].
  cbn [scan_loop].
  read_cell ids index as e0 He0.
  destruct (String.eqb_spec (tag e0) t) as [Heq|Hne].
  - destruct (decide (i = index)) as [->|Hii]; [congruence|].
    exfalso. apply (Hno index e0); [lia | done | done].
  - destruct (decide (i = index)) as [->|Hii]; [congruence|].
    apply IH; [lia | lia |].
    split_and!; [done | done |].
    intros j e' Hj. apply Hno. lia.
Qed.

Lemma scan_loop_missing result remaining index ids t :
  (index + remaining ≤ length ids)%nat →
  no_tag_between ids t index (index + remaining) →
  scan_loop result remaining index ids t = Ok (-1).
Proof.
  revert index.
  induction remaining as [|r IH]; intros index Hlen Hno; [done|].
  cbn [scan_loop].
  read_cell ids index as e0 He0.
  destruct (String.eqb_spec (tag e0) t) as [Heq|Hne].
  - exfalso. apply (Hno index e0); [lia | done | done].
  - apply IH; [lia|].
    intros j e' Hj. apply Hno. lia.
Qed.

Lemma FindTextureSlot_loop_found remaining index ids t i e :
  (index ≤ i < index + remaining)%nat →
  (index + remaining ≤ length ids)%nat →
  first_tag_at ids t index i e →
  FindTextureSlot_loop remaining index ids t = Ok (Z.of_nat i).
Proof. rewrite FindTextureSlot_loop_scan. apply scan_loop_found. Qed.

Lemma FindTextureSlot_loop_missing remaining index ids t :
  (index + remaining ≤ length ids)%nat →
  no_tag_between ids t index (index + remaining) →
  FindTextureSlot_loop remaining index ids t = Ok (-1).
Proof. rewrite FindTextureSlot_loop_scan. apply scan_loop_missing. Qed.

Lemma FindTextureID_loop_found remaining index ids t i e :
  (index ≤ i < index + remaining)%nat →
  (index + remaining ≤ length ids)%nat →
  first_tag_at ids t index i e →
  FindTextureID_loop remaining index ids t = Ok (int_of_GLuint (ID e)).
Proof.
  rewrite FindTextureID_loop_scan.
  apply (scan_loop_found (λ _ e, int_of_GLuint (ID e))).
Qed.

Lemma FindTextureID_loop_missing remaining index ids t :
  (index + remaining ≤ length ids)%nat →
  no_tag_between ids t index (index + remaining) →
  FindTextureID_loop remaining index ids t = Ok (-1).
Proof. rewrite FindTextureID_loop_scan. apply scan_loop_missing. Qed.

(** Either some cell in [lo, hi) is the first with the tag, or none has it. *)
Lemma first_tag_dec ids t lo hi :
  (hi ≤ length ids)%nat →
  (∃ i e, (lo ≤ i < hi)%nat ∧ first_tag_at ids t lo i e) ∨ no_tag_between ids t lo hi.
Proof.
  intros Hlen. induction hi as [|hi IH].
  - right. intros j e Hj. lia.
  - destruct IH as [(i & e & Hi & Hfirst)|Hno]; [lia | |].
    + left. exists i, e. split; [lia | done].
    + destruct (decide (lo ≤ hi)%nat) as [Hle|Hgt];
        [|right; intros j e Hj; lia].
      read_cell ids hi as e He.
      destruct (decide (tag e = t)) as [Heq|Hne].
      * left. exists hi, e. split; [lia|]. by split_and!.
      * right. intros j e' Hj Hj'.
        destruct (decide (j = hi)) as [->|Hjhi]; [congruence|].
        apply (Hno j e'); [lia | done].
Qed.
End Scans.

(** ** Looking a texture up by tag *)
Section Lookup.
Context {F : Type} `{GLfloat F}.

(** C7.  [FindTextureSlot] and [FindTextureID] scan the loaded textures in
    registration order and compare tags for equality of strings (exact,
    hence case-sensitive).  When cell [i] is the first that carries the tag,
    the slot returned is [i] and the ID returned is that cell's ID (as an
    [int]); when no loaded cell carries the tag both return -1.  In every
    case both return a value: no lookup runs into undefined behaviour. *)
Theorem FindTexture_first_match (w : World F) (t : string) :
  registry_ok w →
  (∀ i e, (i < m_loadedTextures (scene w))%nat →
          first_tag_at (m_textureIDs (scene w)) t 0 i e →
          FindTextureSlot t w = Ok (Z.of_nat i) ∧
          FindTextureID t w = Ok (int_of_GLuint (ID e))) ∧
  (no_tag_between (m_textureIDs (scene w)) t 0 (m_loadedTextures (scene w)) →
   FindTextureSlot t w = Ok (-1) ∧ FindTextureID t w = Ok (-1)) ∧
  (∃ slot id, FindTextureSlot t w = Ok slot ∧ FindTextureID t w = Ok id).
Proof.
  intros [Hlen Hn]. unfold FindTextureSlot, FindTextureID.
  assert (Hfound : ∀ i e, (i < m_loadedTextures (scene w))%nat →
            first_tag_at (m_textureIDs (scene w)) t 0 i e →
            FindTextureSlot_loop (m_loadedTextures (scene w)) 0 (m_textureIDs (scene w)) t
              = Ok (Z.of_nat i) ∧
            FindTextureID_loop (m_loadedTextures (scene w)) 0 (m_textureIDs (scene w)) t
              = Ok (int_of_GLuint (ID e))).
  { intros i e Hi Hfirst. split.
    - apply (FindTextureSlot_loop_found _ _ _ _ i e); [lia | lia | done].
    - apply (FindTextureID_loop_found _ _ _ _ i e); [lia | lia | done]. }
  assert (Hmiss : no_tag_between (m_textureIDs (scene w)) t 0 (m_loadedTextures (scene w)) →
            FindTextureSlot_loop (m_loadedTextures (scene w)) 0 (m_textureIDs (scene w)) t
              = Ok (-1) ∧
            FindTextureID_loop (m_loadedTextures (scene w)) 0 (m_textureIDs (scene w)) t
              = Ok (-1)).
  { intros Hno. split.
    - apply FindTextureSlot_loop_missing; [lia | done].
    - apply FindTextureID_loop_missing; [lia | done]. }
  split_and!; [done | done |].
  destruct (first_tag_dec (m_textureIDs (scene w)) t 0 (m_loadedTextures (scene w)))
    as [(i & e & Hi & Hfirst)|Hno]; [lia | |].
  - destruct (Hfound i e) as [-> ->]; [lia | done |]. eauto.
  - destruct (Hmiss Hno) as [-> ->]. eauto.
Qed.
End Lookup.

Lemma two_textures_ok (p : ShaderManager_ptr) : registry_ok (two_textures (F := R) p).
Proof. split; [reflexivity | cbn; unfold MAX_TEXTURES; lia]. Qed.

(** "plank" is found in slot 1 with ID 2; "Plank" is another string and is
    not found. *)
Lemma FindTexture_first_match_witness :
  registry_ok (two_textures (F := R) NULL) ∧
  (FindTextureSlot "plank" (two_textures (F := R) NULL) = Ok 1 ∧
   FindTextureID "plank" (two_textures (F := R) NULL) = Ok 2) ∧
  (FindTextureSlot "Plank" (two_textures (F := R) NULL) = Ok (-1) ∧
   FindTextureID "Plank" (two_textures (F := R) NULL) = Ok (-1)).
Proof.
  split; [apply two_textures_ok|]. split.
  - pose proof (FindTexture_first_match (two_textures NULL) "plank"
                  (two_textures_ok NULL)) as (Hfound & _ & _).
    apply (Hfound 1%nat (mk_TEXTURE_INFO 2 "plank")); [cbn; lia|].
    split_and!; [reflexivity | reflexivity |].
    intros j e Hj Hje. assert (j = 0%nat) as -> by lia.
    cbn in Hje. inversion Hje. done.
  - pose proof (FindTexture_first_match (two_textures NULL) "Plank"
                  (two_textures_ok NULL)) as (_ & Hmiss & _).
    apply Hmiss. intros j e Hj Hje. cbn in Hj.
    assert (j = 0%nat ∨ j = 1%nat) as [-> | ->] by lia;
      cbn in Hje; inversion Hje; done.
Defined.

(** ** Registering a texture *)
Section Register.
Context {F : Type} `{GLfloat F}.
Variable stbi_load : string → option stb_image.

Lemma CreateGLTexture_loadable filename t (w : World F) :
  loadable stbi_load filename →
  (m_loadedTextures (scene w) < length (m_textureIDs (scene w)))%nat →
  ∃ g, CreateGLTexture stbi_load filename t w =
         Ok (true,
             with_textures
               (<[m_loadedTextures (scene w) := mk_TEXTURE_INFO (gl_next_name (gl w)) t]>
                  (m_textureIDs (scene w)))
               (S (m_loadedTextures (scene w))) (with_gl g w)).
Proof.
  intros (image & Himage & Hch) Hroom. unfold CreateGLTexture. rewrite Himage. cbn.
  destruct Hch as [-> | ->]; cbn; rewrite decide_True by done; eauto.
Qed.

Lemma CreateGLTexture_no_room filename t (w : World F) :
  loadable stbi_load filename →
  (length (m_textureIDs (scene w)) ≤ m_loadedTextures (scene w))%nat →
  CreateGLTexture stbi_load filename t w = Undefined OutOfBounds.
Proof.
  intros (image & Himage & Hch) Hfull. unfold CreateGLTexture. rewrite Himage. cbn.
  destruct Hch as [-> | ->]; cbn; rewrite decide_False by lia; done.
Qed.

Lemma CreateGLTexture_not_loadable filename t (w : World F) :
  ¬ loadable stbi_load filename →
  ∃ w', CreateGLTexture stbi_load filename t w = Ok (false, w') ∧ scene w' = scene w.
Proof.
  intros Hno. unfold CreateGLTexture.
  destruct (stbi_load filename) as [image|] eqn:Himage; [|eauto].
  cbn. destruct (Z.eqb_spec (colorChannels image) 3) as [H3|H3].
  { exfalso. apply Hno. exists image. auto. }
  destruct (Z.eqb_spec (colorChannels image) 4) as [H4|H4].
  { exfalso. apply Hno. exists image. auto. }
  eauto.
Qed.

(** C6.  When the file decodes to an image whose channel count is neither 3
    nor 4, [CreateGLTexture] returns [false] and the registry is as before:
    the same count of loaded textures, the same cells, and so the same slot
    for every tag. *)
Theorem CreateGLTexture_unsupported_channels filename t (w : World F) image :
  stbi_load filename = Some image →
  colorChannels image ≠ 3 → colorChannels image ≠ 4 →
  ∃ w', CreateGLTexture stbi_load filename t w = Ok (false, w') ∧
        m_loadedTextures (scene w') = m_loadedTextures (scene w) ∧
        m_textureIDs (scene w') = m_textureIDs (scene w) ∧
        ∀ t', FindTextureSlot t' w' = FindTextureSlot t' w.
Proof.
  intros Himage H3 H4.
  destruct (CreateGLTexture_not_loadable filename t w) as (w' & Hrun & Hscene).
  { intros (image' & Himage' & Hch). rewrite Himage in Himage'.
    inversion Himage'; subst image'. destruct Hch; done. }
  exists w'. unfold FindTextureSlot. rewrite Hscene. done.
Qed.

(** C2, as the code has it.  [CreateGLTexture] has no capacity check.  With
    fewer than 16 textures loaded a loadable file is registered in the next
    cell and the count stays within 16; a file that is not loadable is
    refused with the registry unchanged, whatever the count; with all 16
    cells taken a loadable file is not refused: the call goes on to
    assign to [m_textureIDs[16]], outside the array, and has no defined
    result.  At no count is a loadable file answered with [false]. *)
Theorem CreateGLTexture_capacity filename t (w : World F) :
  registry_ok w →
  (loadable stbi_load filename → (m_loadedTextures (scene w) < MAX_TEXTURES)%nat →
   ∃ w', CreateGLTexture stbi_load filename t w = Ok (true, w') ∧
         m_loadedTextures (scene w') = S (m_loadedTextures (scene w)) ∧
         m_textureIDs (scene w') !! m_loadedTextures (scene w)
           = Some (mk_TEXTURE_INFO (gl_next_name (gl w)) t) ∧
         registry_ok w') ∧
  (¬ loadable stbi_load filename →
   ∃ w', CreateGLTexture stbi_load filename t w = Ok (false, w') ∧
         scene w' = scene w) ∧
  (loadable stbi_load filename → m_loadedTextures (scene w) = MAX_TEXTURES →
   CreateGLTexture stbi_load filename t w = Undefined OutOfBounds) ∧
  (loadable stbi_load filename →
   ∀ w', CreateGLTexture stbi_load filename t w ≠ Ok (false, w')).
Proof.
  intros [Hlen Hn]. split_and!.
  - intros Hload Hroom.
    destruct (CreateGLTexture_loadable filename t w Hload) as (g & Hrun); [lia|].
    eexists. split; [exact Hrun|]. cbn. split_and!; [done | | ].
    + apply list_lookup_insert_eq. lia.
    + split; cbn; [by rewrite length_insert | lia].
  - apply CreateGLTexture_not_loadable.
  - intros Hload Hfull. apply CreateGLTexture_no_room; [done | lia].
  - intros Hload w'.
    destruct (decide (m_loadedTextures (scene w) < length (m_textureIDs (scene w)))%nat).
    + destruct (CreateGLTexture_loadable filename t w Hload) as (g & ->); [done|].
      discriminate.
    + rewrite CreateGLTexture_no_room by (done || lia). discriminate.
Qed.
End Register.

Lemma brick_loadable : loadable two_files "textures/brick.jpg".
Proof. exists (mk_stb_image 64 64 3). split; [reflexivity | by left]. Qed.

Lemma full_world_ok (p : ShaderManager_ptr) : registry_ok (full_world (F := R) p).
Proof. split; [reflexivity | cbn; lia]. Qed.

Lemma CreateGLTexture_unsupported_channels_witness :
  ∃ w', CreateGLTexture two_files "textures/gray.png" "gray" (two_textures (F := R) NULL)
          = Ok (false, w') ∧
        m_loadedTextures (scene w') = 2%nat ∧
        m_textureIDs (scene w') = m_textureIDs (scene (two_textures (F := R) NULL)) ∧
        ∀ t', FindTextureSlot t' w' = FindTextureSlot t' (two_textures (F := R) NULL).
Proof.
  apply (CreateGLTexture_unsupported_channels two_files "textures/gray.png" "gray"
           (two_textures NULL) (mk_stb_image 8 8 1)); [reflexivity | cbn; lia | cbn; lia].
Defined.

(** C2 as stated fails: with 16 textures registered, registering a
    seventeenth from a loadable file is not answered with a refusal. *)
Lemma CreateGLTexture_seventeenth_not_rejected :
  registry_ok (full_world (F := R) NULL) ∧
  m_loadedTextures (scene (full_world (F := R) NULL)) = 16%nat ∧
  CreateGLTexture two_files "textures/brick.jpg" "brick" (full_world (F := R) NULL)
    = Undefined OutOfBounds ∧
  ¬ ∃ w', CreateGLTexture two_files "textures/brick.jpg" "brick" (full_world (F := R) NULL)
            = Ok (false, w').
Proof.
  assert (Hrun : CreateGLTexture two_files "textures/brick.jpg" "brick"
                   (full_world (F := R) NULL) = Undefined OutOfBounds) by reflexivity.
  split_and!; [apply full_world_ok | reflexivity | exact Hrun |].
  intros (w' & Hw'). rewrite Hrun in Hw'. discriminate.
Qed.

(** With two textures registered the brick texture becomes the third; with
    sixteen registered the same call has no defined result. *)
Lemma CreateGLTexture_capacity_witness :
  (registry_ok (two_textures (F := R) NULL) ∧
   ∃ w', CreateGLTexture two_files "textures/brick.jpg" "brick" (two_textures (F := R) NULL)
           = Ok (true, w') ∧
         m_loadedTextures (scene w') = 3%nat ∧
         m_textureIDs (scene w') !! 2%nat = Some (mk_TEXTURE_INFO 3 "brick")) ∧
  (registry_ok (full_world (F := R) NULL) ∧
   CreateGLTexture two_files "textures/brick.jpg" "brick" (full_world (F := R) NULL)
     = Undefined OutOfBounds).
Proof.
  split; (split; [apply two_textures_ok || apply full_world_ok|]).
  - destruct (CreateGLTexture_capacity two_files "textures/brick.jpg" "brick"
                (two_textures NULL) (two_textures_ok NULL)) as (Hroom & _).
    destruct Hroom as (w' & Hrun & Hn & Hcell & _);
      [apply brick_loadable | cbn; unfold MAX_TEXTURES; lia |].
    exists w'. split_and!; [exact Hrun | exact Hn | exact Hcell].
  - apply (CreateGLTexture_capacity two_files "textures/brick.jpg" "brick"
             (full_world NULL) (full_world_ok NULL)); [apply brick_loadable | reflexivity].
Defined.

(** ** Loading and binding *)
Section Load.
Context {F : Type} `{GLfloat F}.
Variable stbi_load : string → option stb_image.

(** Registering a list of loadable files that fits in the free cells:
    the tags land in consecutive cells from the first free one on, and the
    cells before it are not touched. *)
Lemma CreateGLTextures_loadable (textures : list (string * string)) (w : World F) :
  Forall (λ ft, loadable stbi_load ft.1) textures →
  (m_loadedTextures (scene w) + length textures ≤ length (m_textureIDs (scene w)))%nat →
  ∃ w', CreateGLTextures stbi_load textures w = Ok w' ∧
        m_loadedTextures (scene w') = (m_loadedTextures (scene w) + length textures)%nat ∧
        length (m_textureIDs (scene w')) = length (m_textureIDs (scene w)) ∧
        (∀ i, (i < m_loadedTextures (scene w))%nat →
              m_textureIDs (scene w') !! i = m_textureIDs (scene w) !! i) ∧
        (∀ k t, textures.*2 !! k = Some t →
                tag <$> m_textureIDs (scene w') !! (m_loadedTextures (scene w) + k)%nat
                  = Some t).
Proof.
  revert w. induction textures as [|[filename t0] rest IH]; intros w Hall Hfit.
  - exists w. cbn. split_and!; [done | lia | done | done |].
    intros k t Hk. done.
  - apply Forall_cons in Hall as [Hload Hrest]. cbn in Hfit, Hload.
    destruct (CreateGLTexture_loadable stbi_load filename t0 w Hload) as (g & Hrun); [lia|].
    set (w1 := with_textures _ _ (with_gl g w)) in Hrun.
    destruct (IH w1 Hrest) as (w' & Hruns & Hn & Hlen & Hold & Hnew).
    { subst w1. cbn. rewrite length_insert. lia. }
    exists w'. cbn [CreateGLTextures]. rewrite Hrun. cbn.
    split_and!; [done | | | |].
    + rewrite Hn. subst w1. cbn. lia.
    + rewrite Hlen. subst w1. cbn. by rewrite length_insert.
    + intros i Hi. rewrite Hold by (subst w1; cbn; lia).
      subst w1. cbn. apply list_lookup_insert_ne. lia.
    + intros k t Hk. destruct k as [|k]; cbn in Hk.
      * inversion Hk; subst t. rewrite Nat.add_0_r.
        rewrite Hold by (subst w1; cbn; lia).
        subst w1. cbn. rewrite list_lookup_insert_eq by lia. done.
      * specialize (Hnew k t Hk). subst w1. cbn in Hnew.
        by replace (m_loadedTextures (scene w) + S k)%nat
          with (S (m_loadedTextures (scene w)) + k)%nat by lia.
Qed.

(** The binding loop: every unit from [i] on gets the texture of its cell,
    the units below [i] keep theirs. *)
Lemma BindGLTextures_loop_binds remaining i (ids : list TEXTURE_INFO) (g : GLcontext) :
  (i + remaining ≤ length ids)%nat →
  ∃ g', BindGLTextures_loop remaining i ids g = Ok g' ∧
        (∀ j, (j < i)%nat → gl_bound_2D g' !! j = gl_bound_2D g !! j) ∧
        (∀ j, (i ≤ j < i + remaining)%nat → gl_bound_2D g' !! j = ID <$> ids !! j).
Proof.
  revert i g. induction remaining as [|r IH]; intros i g Hlen.
  - exists g. split_and!; [done | done | intros j Hj; lia].
  - cbn [BindGLTextures_loop].
    read_cell ids i as e He.
    destruct (IH (S i) (do_glBindTexture (ID e) (do_glActiveTexture i g)))
      as (g' & Hrun & Hbelow & Hfrom); [lia|].
    exists g'. split_and!; [done | |].
    + intros j Hj. rewrite Hbelow by lia. cbn. apply lookup_insert_ne. lia.
    + intros j Hj. destruct (decide (j = i)) as [->|Hji].
      * rewrite Hbelow by lia. cbn. rewrite lookup_insert_eq, He. done.
      * apply Hfrom. lia.
Qed.

(** [BindGLTextures] binds the texture of every loaded cell [i] on texture
    unit [i], and leaves the scene manager as it is. *)
Lemma BindGLTextures_binds (w : World F) :
  (m_loadedTextures (scene w) ≤ length (m_textureIDs (scene w)))%nat →
  ∃ w', BindGLTextures w = Ok w' ∧ scene w' = scene w ∧
        ∀ i, (i < m_loadedTextures (scene w))%nat →
             gl_bound_2D (gl w') !! i = ID <$> m_textureIDs (scene w) !! i.
Proof.
  intros Hn. unfold BindGLTextures.
  destruct (BindGLTextures_loop_binds (m_loadedTextures (scene w)) 0
              (m_textureIDs (scene w)) (gl w)) as (g' & -> & _ & Hfrom); [lia|].
  cbn. eexists. split_and!; [done | done |].
  intros i Hi. apply Hfrom. lia.
Qed.

(** C8.  Starting with no texture loaded, [LoadSceneTextures] on six
    loadable files with six distinct tags ends with six textures loaded;
    looking the tags up in order gives the slots 0, 1, 2, 3, 4, 5, and for
    every loaded cell [i] the texture bound on unit [i] is the one whose
    ID the cell holds. *)
Theorem six_textures_slots_and_units (textures : list (string * string)) (w : World F) :
  registry_ok w →
  m_loadedTextures (scene w) = 0%nat →
  length textures = 6%nat →
  NoDup textures.*2 →
  Forall (λ ft, loadable stbi_load ft.1) textures →
  ∃ w', LoadSceneTextures_of stbi_load textures w = Ok w' ∧
        m_loadedTextures (scene w') = 6%nat ∧
        (λ t, FindTextureSlot t w') <$> textures.*2
          = [Ok 0; Ok 1; Ok 2; Ok 3; Ok 4; Ok 5] ∧
        ∀ i e, (i < m_loadedTextures (scene w'))%nat →
               m_textureIDs (scene w') !! i = Some e →
               gl_bound_2D (gl w') !! i = Some (ID e).
Proof.
  intros [Hlen Hn] Hzero Hsix Hdup Hall.
  destruct (CreateGLTextures_loadable textures w Hall)
    as (w1 & Hrun & Hn1 & Hlen1 & _ & Htags).
  { rewrite Hzero, Hsix, Hlen. unfold MAX_TEXTURES. lia. }
  rewrite Hzero, Hsix in Hn1. cbn in Hn1. rewrite Hzero in Htags. cbn in Htags.
  destruct (BindGLTextures_binds w1) as (w' & Hbind & Hscene & Hunits).
  { rewrite Hn1, Hlen1, Hlen. unfold MAX_TEXTURES. lia. }
  exists w'. unfold LoadSceneTextures_of. rewrite Hrun. cbn.
  split_and!; [done | by rewrite Hscene | | ].
  - assert (Hslot : ∀ k t, textures.*2 !! k = Some t →
                            FindTextureSlot t w' = Ok (Z.of_nat k)).
    { intros k t Hk. unfold FindTextureSlot. rewrite Hscene, Hn1.
      pose proof (lookup_lt_Some _ _ _ Hk) as Hklt.
      rewrite length_fmap, Hsix in Hklt.
      pose proof (Htags k t Hk) as Hcell.
      destruct (m_textureIDs (scene w1) !! k) as [e|] eqn:He; [|done].
      cbn in Hcell. inversion Hcell as [Htag].
      apply (FindTextureSlot_loop_found _ _ _ _ k e);
        [lia | rewrite Hlen1, Hlen; unfold MAX_TEXTURES; lia |].
      split_and!; [done | done |].
      intros j e' Hj Hj' Heq.
      assert (Hjlt : (j < length textures.*2)%nat) by (rewrite length_fmap, Hsix; lia).
      destruct (lookup_lt_is_Some_2 _ _ Hjlt) as [tj Htj].
      pose proof (Htags j tj Htj) as Hcellj. rewrite Hj' in Hcellj. cbn in Hcellj.
      inversion Hcellj as [Htagj].
      assert (j = k); [|lia].
      apply (NoDup_lookup _ _ _ t Hdup); congruence. }
    destruct textures as [|[f0 t0] [|[f1 t1] [|[f2 t2] [|[f3 t3] [|[f4 t4]
      [|[f5 t5] [|? ?]]]]]]]; try discriminate Hsix.
    cbn. rewrite (Hslot 0%nat t0), (Hslot 1%nat t1), (Hslot 2%nat t2),
      (Hslot 3%nat t3), (Hslot 4%nat t4), (Hslot 5%nat t5) by done. done.
  - intros i e Hi Hie. rewrite Hscene in Hi, Hie.
    rewrite Hunits by done. by rewrite Hie.
Qed.
End Load.

Lemma fresh_world_ok (p : ShaderManager_ptr) : registry_ok (fresh_world (F := R) p).
Proof. split; [reflexivity | cbn; lia]. Qed.

Lemma scene_textures_loadable :
  Forall (λ ft : string * string, loadable scene_files ft.1) scene_textures.
Proof.
  repeat constructor;
    (exists (mk_stb_image 1024 1024 3); split; [reflexivity | by left]).
Qed.

Lemma six_textures_slots_and_units_witness :
  ∃ w', LoadSceneTextures scene_files (fresh_world (F := R) shader_address) = Ok w' ∧
        m_loadedTextures (scene w') = 6%nat ∧
        (λ t, FindTextureSlot t w') <$>
          ["mugbase"; "flag"; "table"; "plank"; "plastic"; "office"]
          = [Ok 0; Ok 1; Ok 2; Ok 3; Ok 4; Ok 5] ∧
        ∀ i e, (i < m_loadedTextures (scene w'))%nat →
               m_textureIDs (scene w') !! i = Some e →
               gl_bound_2D (gl w') !! i = Some (ID e).
Proof.
  apply (six_textures_slots_and_units scene_files scene_textures
           (fresh_world shader_address)).
  - apply fresh_world_ok.
  - reflexivity.
  - reflexivity.
  - apply (bool_decide_unpack _). vm_compute. exact I.
  - apply scene_textures_loadable.
Defined.

(** ** Tearing the textures down *)
Section Destroy.
Context {F : Type} `{GLfloat F}.

Lemma DestroyGLTextures_loop_generates remaining i (ids : list TEXTURE_INFO)
    (g : GLcontext) :
  (i + remaining ≤ length ids)%nat →
  ∃ ids' g', DestroyGLTextures_loop remaining i ids g = Ok (ids', g') ∧
             gl_calls g' =
               gl_calls g ++ (glGenTextures <$> names_from (gl_next_name g) remaining) ∧
             length ids' = length ids ∧
             (∀ j, (j < i)%nat → ids' !! j = ids !! j) ∧
             (∀ j, (i ≤ j < i + remaining)%nat →
                   ID <$> ids' !! j = Some (gl_next_name g + Z.of_nat (j - i))).
Proof.
  revert i ids g. induction remaining as [|r IH]; intros i ids g Hlen.
  - exists ids, g. cbn. rewrite app_nil_r.
    split_and!; [done | done | done | done | intros j Hj; lia].
  - cbn [DestroyGLTextures_loop].
    read_cell ids i as e He.
    cbn [do_glGenTextures].
    destruct (IH (S i) (<[i := mk_TEXTURE_INFO (gl_next_name g) (tag e)]> ids)
                (mk_GLcontext (gl_next_name g + 1) (gl_active_unit g) (gl_bound_2D g)
                              (gl_calls g ++ [glGenTextures (gl_next_name g)])))
      as (ids' & g' & Hrun & Hcalls & Hlen' & Hbelow & Hfrom).
    { rewrite length_insert. lia. }
    exists ids', g'. cbn in Hcalls, Hfrom. split_and!; [done | | | |].
    + rewrite Hcalls. cbn. by rewrite <- app_assoc.
    + by rewrite Hlen', length_insert.
    + intros j Hj. rewrite Hbelow by lia. apply list_lookup_insert_ne. lia.
    + intros j Hj. destruct (decide (j = i)) as [->|Hji].
      * rewrite Hbelow by lia. rewrite list_lookup_insert_eq by lia. cbn.
        f_equal. lia.
      * rewrite Hfrom by lia. f_equal. lia.
Qed.

(** C3, as the code has it.  [DestroyGLTextures] returns, and the calls it
    issues are [glGenTextures], one per loaded texture, each handing out a
    new name that replaces the ID in the cell.  It issues no
    [glDeleteTextures]: no registered handle is freed. *)
Theorem DestroyGLTextures_frees_nothing (w : World F) :
  registry_ok w →
  ∃ w', DestroyGLTextures w = Ok w' ∧
        gl_calls (gl w') =
          gl_calls (gl w) ++
          (glGenTextures <$> names_from (gl_next_name (gl w)) (m_loadedTextures (scene w))) ∧
        (∀ i, (i < m_loadedTextures (scene w))%nat →
              ID <$> m_textureIDs (scene w') !! i
                = Some (gl_next_name (gl w) + Z.of_nat i)) ∧
        (∀ name, glDeleteTextures name ∉
                   drop (length (gl_calls (gl w))) (gl_calls (gl w'))).
Proof.
  intros [Hlen Hn]. unfold DestroyGLTextures.
  destruct (DestroyGLTextures_loop_generates (m_loadedTextures (scene w)) 0
              (m_textureIDs (scene w)) (gl w))
    as (ids' & g' & -> & Hcalls & Hlen' & _ & Hfrom); [lia|].
  cbn. eexists. split_and!; [done | done | |].
  - intros i Hi. rewrite Hfrom by lia. f_equal. lia.
  - intros name. cbn. rewrite Hcalls, drop_app_length.
    intros (n & Hn' & _)%list_elem_of_fmap. discriminate.
Qed.
End Destroy.

(** With "table" (ID 1) and "plank" (ID 2) registered, tearing down issues
    [glGenTextures] twice and deletes neither texture 1 nor texture 2. *)
Lemma DestroyGLTextures_frees_nothing_witness :
  registry_ok (two_textures (F := R) NULL) ∧
  ∃ w', DestroyGLTextures (two_textures (F := R) NULL) = Ok w' ∧
        gl_calls (gl w') = [glGenTextures 3; glGenTextures 4] ∧
        (glDeleteTextures 1 ∉ gl_calls (gl w')) ∧
        (glDeleteTextures 2 ∉ gl_calls (gl w')).
Proof.
  split; [apply two_textures_ok|].
  destruct (DestroyGLTextures_frees_nothing (two_textures NULL) (two_textures_ok NULL))
    as (w' & Hrun & Hcalls & _ & Hnone).
  exists w'. cbn in Hcalls, Hnone. rewrite Hcalls in Hnone |- *.
  split_and!; [done | done | apply Hnone | apply Hnone].
Defined.

(** ** Materials *)
Section Materials.
Context {F : Type} `{GLfloat F}.

Lemma FindMaterial_loop_missing remaining index (ms : list (OBJECT_MATERIAL F)) t material :
  (index + remaining ≤ length ms)%nat →
  no_material ms t →
  FindMaterial_loop remaining index ms t material = Ok material.
Proof.
  revert index. induction remaining as [|r IH]; intros index Hlen Hno; [done|].
  cbn [FindMaterial_loop].
  read_cell ms index as m Hm.
  destruct (String.eqb_spec (material_tag m) t) as [Heq|Hne].
  - exfalso. apply (Hno m); [|done]. apply list_elem_of_lookup. eauto.
  - apply IH; [lia | done].
Qed.

(** C1, as the code has it.  For a tag that no material carries:
    with no material defined, [FindMaterial] returns [false] and
    [SetShaderMaterial] writes nothing; with at least one material defined,
    [FindMaterial] returns [true] all the same (its [bFound] is not what it
    returns) and leaves the caller's material as it was, and
    [SetShaderMaterial] writes the three material uniforms from its
    uninitialised local. *)
Theorem FindMaterial_miss_reported_as_found (indeterminate : OBJECT_MATERIAL F)
    (t : string) (w : World F) :
  no_material (m_objectMaterials (scene w)) t →
  (m_objectMaterials (scene w) = [] →
   FindMaterial t indeterminate w = Ok (false, indeterminate) ∧
   SetShaderMaterial indeterminate t w = Ok w) ∧
  (m_objectMaterials (scene w) ≠ [] →
   FindMaterial t indeterminate w = Ok (true, indeterminate) ∧
   (m_pShaderManager (scene w) = shader_address →
    SetShaderMaterial indeterminate t w
      = Ok (with_shader (material_writes indeterminate (shader w)) w)) ∧
   (m_pShaderManager (scene w) = NULL →
    SetShaderMaterial indeterminate t w = Undefined NullDereference)).
Proof.
  intros Hno. split.
  - intros Hnil. unfold SetShaderMaterial, FindMaterial. rewrite Hnil. done.
  - intros Hsome.
    assert (Hlen : (0 < length (m_objectMaterials (scene w)))%nat).
    { destruct (m_objectMaterials (scene w)); [done | cbn; lia]. }
    assert (Hfind : FindMaterial t indeterminate w = Ok (true, indeterminate)).
    { unfold FindMaterial. rewrite decide_False by lia.
      rewrite FindMaterial_loop_missing by (done || lia). done. }
    split_and!; [done | |].
    + intros Hptr. unfold SetShaderMaterial. rewrite decide_True by done.
      rewrite Hfind. cbn. unfold call_shader. cbn. rewrite Hptr. cbn.
      rewrite Hptr. cbn. rewrite Hptr. done.
    + intros Hptr. unfold SetShaderMaterial. rewrite decide_True by done.
      rewrite Hfind. cbn. unfold call_shader. rewrite Hptr. done.
Qed.
End Materials.

Lemma DefineObjectMaterials_fresh (p : ShaderManager_ptr) :
  DefineObjectMaterials (fresh_world p) = Ok (materials_defined p).
Proof. reflexivity. Qed.

Lemma no_glass : no_material (m_objectMaterials (scene (materials_defined shader_address))) "glass".
Proof.
  intros m Hm. cbn in Hm.
  apply elem_of_cons in Hm as [-> | Hm]; [done|].
  apply elem_of_cons in Hm as [-> | Hm]; [done|].
  by apply elem_of_nil in Hm.
Qed.

(** A material that is defined is found, and its three values are written. *)
Lemma SetShaderMaterial_plastic :
  FindMaterial "plastic" stack_garbage (materials_defined shader_address)
    = Ok (true, mk_OBJECT_MATERIAL (lit3 0.3 0.3 0.4) (lit3 0.05 0.05 0.05)
                                   (fliteral 0.02) "") ∧
  ∃ w', SetShaderMaterial stack_garbage "plastic" (materials_defined shader_address) = Ok w' ∧
        written (shader w') =
          [ ("material.diffuseColor", UVec3 (lit3 0.3 0.3 0.4));
            ("material.specularColor", UVec3 (lit3 0.05 0.05 0.05));
            ("material.shininess", UFloat (fliteral 0.02)) ].
Proof. split; [reflexivity|]. eexists. split; reflexivity. Qed.

(** "glass" is not defined, yet [FindMaterial] answers [true] and
    [SetShaderMaterial] writes the three material uniforms. *)
Lemma FindMaterial_miss_reported_as_found_witness :
  no_material (m_objectMaterials (scene (materials_defined shader_address))) "glass" ∧
  FindMaterial "glass" stack_garbage (materials_defined shader_address)
    = Ok (true, stack_garbage) ∧
  ∃ w', SetShaderMaterial stack_garbage "glass" (materials_defined shader_address) = Ok w' ∧
        written (shader w') =
          [ ("material.diffuseColor", UVec3 (lit3 7 7 7));
            ("material.specularColor", UVec3 (lit3 9 9 9));
            ("material.shininess", UFloat (fliteral 42)) ].
Proof.
  destruct (FindMaterial_miss_reported_as_found stack_garbage "glass"
              (materials_defined shader_address) no_glass) as (_ & Hsome).
  destruct Hsome as (Hfind & Hwrite & _); [done|].
  split_and!; [apply no_glass | exact Hfind |].
  eexists. split; [apply Hwrite; reflexivity | reflexivity].
Defined.

(** ** Per-draw shader configuration *)
Section Draw.
Context {F : Type} `{GLfloat F}.

(** C4, as the code has it.  Selecting a texture whose tag is not
    registered is not fatal.  With a shader manager attached it does write:
    the use-texture flag is set to 1 and the sampler uniform is set to the
    sentinel -1; scene manager and GL context stay as they are.  With no
    shader manager attached nothing is written. *)
Theorem SetShaderTexture_miss_writes_sentinel (textureTag : string) (w : World F) :
  registry_ok w →
  no_tag_between (m_textureIDs (scene w)) textureTag 0 (m_loadedTextures (scene w)) →
  (m_pShaderManager (scene w) = shader_address →
   SetShaderTexture textureTag w
     = Ok (with_shader
             (setSampler2DValue g_TextureValueName (-1)
                (setIntValue g_UseTextureName 1 (shader w))) w)) ∧
  (m_pShaderManager (scene w) = NULL → SetShaderTexture textureTag w = Ok w).
Proof.
  intros [Hlen Hn] Hno. unfold SetShaderTexture. split; intros ->; [|done].
  unfold FindTextureSlot.
  rewrite FindTextureSlot_loop_missing by (done || lia). done.
Qed.

(** C10.  With [m_pShaderManager] null, [SetTransformations],
    [SetShaderColor], [SetShaderTexture] and [SetTextureUVScale] return
    normally and the world, the shader manager's uniforms and write record
    included, is the one they were called in. *)
Theorem no_shader_manager_no_write (w : World F)
    (scaleXYZ positionXYZ : vec3 F) (XrotationDegrees YrotationDegrees ZrotationDegrees : F)
    (red green blue alpha : F) (textureTag : string) (u v : F) :
  m_pShaderManager (scene w) = NULL →
  SetTransformations scaleXYZ XrotationDegrees YrotationDegrees ZrotationDegrees
                     positionXYZ w = Ok w ∧
  SetShaderColor red green blue alpha w = Ok w ∧
  SetShaderTexture textureTag w = Ok w ∧
  SetTextureUVScale u v w = Ok w.
Proof.
  intros Hnull.
  unfold SetTransformations, SetShaderColor, SetShaderTexture, SetTextureUVScale.
  rewrite Hnull. done.
Qed.
End Draw.

Lemma after_color_draw_reached :
  (SetShaderTexture "plank" (two_textures shader_address) ≫= SetShaderColor 1%R 1%R 1%R 1%R)
    = Ok after_color_draw.
Proof. reflexivity. Qed.

Lemma no_carpet :
  no_tag_between (m_textureIDs (scene after_color_draw)) "carpet" 0
                 (m_loadedTextures (scene after_color_draw)).
Proof.
  intros j e Hj Hje. cbn in Hj.
  assert (j = 0%nat ∨ j = 1%nat) as [-> | ->] by lia; cbn in Hje; inversion Hje; done.
Qed.

(** C4 as stated fails: "carpet" is not registered, and selecting it
    overwrites the use-texture flag (0 before, 1 after) and the sampler
    uniform (slot 1 before, -1 after). *)
Lemma SetShaderTexture_miss_overwrites :
  (SetShaderTexture "plank" (two_textures shader_address) ≫= SetShaderColor 1%R 1%R 1%R 1%R)
    = Ok after_color_draw ∧
  no_tag_between (m_textureIDs (scene after_color_draw)) "carpet" 0
                 (m_loadedTextures (scene after_color_draw)) ∧
  ∃ w', SetShaderTexture "carpet" after_color_draw = Ok w' ∧
        uniforms (shader after_color_draw) !! "bUseTexture" = Some (UInt 0) ∧
        uniforms (shader w') !! "bUseTexture" = Some (UInt 1) ∧
        uniforms (shader after_color_draw) !! "objectTexture" = Some (USampler2D 1) ∧
        uniforms (shader w') !! "objectTexture" = Some (USampler2D (-1)) ∧
        shader w' ≠ shader after_color_draw.
Proof.
  split; [apply after_color_draw_reached|].
  split; [apply no_carpet|].
  eexists. split; [reflexivity|].
  split_and!; [reflexivity | reflexivity | reflexivity | reflexivity |].
  intros Heq. apply (f_equal (λ sm, length (written sm))) in Heq. discriminate.
Qed.

Lemma after_color_draw_ok : registry_ok after_color_draw.
Proof. split; [reflexivity | cbn; unfold MAX_TEXTURES; lia]. Qed.

Lemma SetShaderTexture_miss_writes_sentinel_witness :
  registry_ok after_color_draw ∧
  no_tag_between (m_textureIDs (scene after_color_draw)) "carpet" 0
                 (m_loadedTextures (scene after_color_draw)) ∧
  ∃ w', SetShaderTexture "carpet" after_color_draw = Ok w' ∧
        drop 4 (written (shader w')) =
          [("bUseTexture", UInt 1); ("objectTexture", USampler2D (-1))].
Proof.
  split_and!; [apply after_color_draw_ok | apply no_carpet |].
  eexists. split.
  - destruct (SetShaderTexture_miss_writes_sentinel "carpet" after_color_draw
                after_color_draw_ok no_carpet) as [Hattached _].
    apply Hattached. reflexivity.
  - reflexivity.
Defined.

Lemma no_shader_manager_no_write_witness :
  m_pShaderManager (scene detached) = NULL ∧
  SetTransformations (mk_vec3 2%R 1%R 1%R) 0%R 90%R 0%R (mk_vec3 5%R 0%R 0%R) detached
    = Ok detached ∧
  SetShaderColor 1%R 1%R 1%R 1%R detached = Ok detached ∧
  SetShaderTexture "table" detached = Ok detached ∧
  SetTextureUVScale 1%R 1%R detached = Ok detached.
Proof.
  split; [reflexivity|].
  apply (no_shader_manager_no_write detached (mk_vec3 2 1 1) (mk_vec3 5 0 0)
           0 90 0 1 1 1 1 "table" 1 1)%R.
  reflexivity.
Defined.

(** ** Sequences of uniform writes *)
Section Writes.
Context {F : Type} `{GLfloat F}.

Lemma after_writes_not_written (m : gmap string (uniform F)) ws k :
  k ∉ ws.*1 → after_writes m ws !! k = m !! k.
Proof.
  revert m. induction ws as [|[k0 v0] ws IH]; intros m Hk; [done|].
  cbn in Hk. apply not_elem_of_cons in Hk as [Hne Hk].
  cbn. unfold after_writes in IH. rewrite IH by done.
  by apply lookup_insert_ne.
Qed.

(** A name written once holds the value written. *)
Lemma after_writes_written (m : gmap string (uniform F)) ws k v :
  NoDup ws.*1 → (k, v) ∈ ws → after_writes m ws !! k = Some v.
Proof.
  revert m. induction ws as [|[k0 v0] ws IH]; intros m Hdup Hkv.
  - by apply elem_of_nil in Hkv.
  - cbn in Hdup. apply NoDup_cons in Hdup as [Hk0 Hdup].
    apply elem_of_cons in Hkv as [Heq | Hin].
    + inversion Heq; subst k0 v0. cbn.
      change (after_writes (<[k:=v]> m) ws !! k = Some v).
      rewrite after_writes_not_written by done. apply lookup_insert_eq.
    + cbn. apply IH; done.
Qed.

Lemma wrote_nil (sm : ShaderManager F) : wrote sm sm [].
Proof. split; [by rewrite app_nil_r | done]. Qed.

Lemma wrote_set_uniform (sm sm' : ShaderManager F) ws name v :
  wrote sm sm' ws → wrote sm (set_uniform name v sm') (ws ++ [(name, v)]).
Proof.
  intros [Hw Hu]. split; cbn.
  - by rewrite Hw, app_assoc.
  - rewrite Hu. unfold after_writes. by rewrite foldl_app.
Qed.
End Writes.

(** ** The lights *)

Section Lights.
Context {F : Type} `{GLfloat F}.

(** C9.  With a shader manager attached, [SetupSceneLights] returns and
    writes, besides the lighting switch and the ambient light, exactly the
    uniforms of one directional block, one spot block and four point blocks,
    each uniform once and none under a condition; every one of them is in
    the uniform state afterwards with the value written, and the active
    flag of each of the six lights is among them. *)
Theorem SetupSceneLights_writes_six_blocks (w : World F) :
  m_pShaderManager (scene w) = shader_address →
  ∃ w' ws, SetupSceneLights w = Ok w' ∧
           scene w' = scene w ∧ gl w' = gl w ∧
           written (shader w') = written (shader w) ++ ws ∧
           ws.*1 = [g_UseLightingName; "ambientLight"] ++ six_light_blocks ∧
           NoDup ws.*1 ∧
           (∀ name v, (name, v) ∈ ws → uniforms (shader w') !! name = Some v) ∧
           (∀ name, name ∈ six_light_blocks → is_Some (uniforms (shader w') !! name)) ∧
           (∀ light, light ∈ six_lights → (light +:+ ".bActive", UBool true) ∈ ws).
Proof.
  destruct w as [[p ids n ms] g sm]. cbn [scene m_pShaderManager]. intros ->.
  unfold SetupSceneLights, call_shader.
  cbn [mbind outcome_bind with_shader scene shader gl m_pShaderManager].
  unfold setBoolValue, setVec3Value, setFloatValue.
  set (sm' := set_uniform "pointLights[3].bActive" _ _).
  assert (∃ ws, wrote sm sm' ws ∧
                ws.*1 = [g_UseLightingName; "ambientLight"] ++ six_light_blocks ∧
                ∀ light, light ∈ six_lights → (light +:+ ".bActive", UBool true) ∈ ws)
    as (ws & [Hwritten Huniforms] & Hnames & Hactive);
    [subst sm'|exists (mk_World (mk_SceneManager shader_address ids n ms) g sm'), ws].
  { eexists. split; [repeat (apply wrote_set_uniform); apply wrote_nil|].
    cbn [app]. split; [vm_compute; reflexivity|].
    intros light Hlight. unfold six_lights in Hlight.
    repeat (apply elem_of_cons in Hlight as [-> | Hlight];
            [repeat (first [apply list_elem_of_here | apply list_elem_of_further])|]).
    by apply elem_of_nil in Hlight. }
  cbn [scene gl shader].
  assert (Hdup : NoDup ws.*1).
  { rewrite Hnames. apply (bool_decide_unpack _). vm_compute. exact I. }
  assert (Hstate : ∀ name v, (name, v) ∈ ws → uniforms sm' !! name = Some v).
  { intros name v Hin. rewrite Huniforms. by apply after_writes_written. }
  split_and!; [done | done | done | done | done | done | done | | done].
  intros name Hname.
  assert (Hw : name ∈ ws.*1) by (rewrite Hnames; apply elem_of_app; by right).
  apply list_elem_of_fmap in Hw as ([k v] & -> & Hin).
  cbn [fst]. rewrite (Hstate k v Hin). eauto.
Qed.
End Lights.

Lemma SetupSceneLights_writes_six_blocks_witness :
  m_pShaderManager (scene (fresh_world (F := R) shader_address)) = shader_address ∧
  ∃ w' ws, SetupSceneLights (fresh_world (F := R) shader_address) = Ok w' ∧
           written (shader w') = ws ∧
           ws.*1 = [g_UseLightingName; "ambientLight"] ++ six_light_blocks ∧
           length ws = 50%nat ∧
           uniforms (shader w') !! "spotLight.bActive" = Some (UBool true).
Proof.
  split; [reflexivity|].
  destruct (SetupSceneLights_writes_six_blocks (fresh_world (F := R) shader_address)
              eq_refl)
    as (w' & ws & Hrun & _ & _ & Hwritten & Hnames & _ & Hstate & _ & Hactive).
  exists w', ws. split_and!; [done | done | done | |].
  - rewrite <- (length_fmap fst), Hnames. reflexivity.
  - apply Hstate. apply (Hactive "spotLight").
    unfold six_lights. apply list_elem_of_further, list_elem_of_here.
Defined.

(** ** The transform composer over the real numbers *)
Section Compose.
Local Open Scope R_scope.

Ltac glm_unfold :=
  cbv [glm_scale glm_translate glm_rotate glm_normalize mat4_identity mat4_mul
       mat4_mul_vec4 vec4_add vec4_scale col0 col1 col2 col3 x3 y3 z3 x4 y4 z4 w4
       fzero fone fadd fsub fmul finversesqrt fcos fsin fradians GLfloat_R
       Scale RotationX RotationY RotationZ Translation].

Ltac vec4_eq := f_equal; ring.
Ltac mat4_eq := f_equal; vec4_eq.

Lemma glm_scale_Scale (s : vec3 R) : glm_scale s = Scale s.
Proof. destruct s as [sx sy sz]. glm_unfold. mat4_eq. Qed.

Lemma glm_translate_Translation (p : vec3 R) : glm_translate p = Translation p.
Proof. destruct p as [px py pz]. glm_unfold. mat4_eq. Qed.

Lemma inversesqrt_unit : / sqrt (1 * 1 + 0 * 0 + 0 * 0) = 1.
Proof. replace (1 * 1 + 0 * 0 + 0 * 0) with 1 by ring. rewrite sqrt_1. field. Qed.

Lemma glm_rotate_X (θ : R) : glm_rotate θ (mk_vec3 1 0 0) = RotationX θ.
Proof.
  glm_unfold. rewrite inversesqrt_unit. mat4_eq.
Qed.

Lemma glm_rotate_Y (θ : R) : glm_rotate θ (mk_vec3 0 1 0) = RotationY θ.
Proof.
  glm_unfold. replace (0 * 0 + 1 * 1 + 0 * 0) with (1 * 1 + 0 * 0 + 0 * 0) by ring.
  rewrite inversesqrt_unit. mat4_eq.
Qed.

Lemma glm_rotate_Z (θ : R) : glm_rotate θ (mk_vec3 0 0 1) = RotationZ θ.
Proof.
  glm_unfold. replace (0 * 0 + 0 * 0 + 1 * 1) with (1 * 1 + 0 * 0 + 0 * 0) by ring.
  rewrite inversesqrt_unit. mat4_eq.
Qed.

(** Multiplying by a product is multiplying by its factors, right to left. *)
Lemma mat4_mul_vec4_assoc (a b : mat4 R) (v : vec4 R) :
  mat4_mul_vec4 (mat4_mul a b) v = mat4_mul_vec4 a (mat4_mul_vec4 b v).
Proof.
  destruct a as [[] [] [] []], b as [[] [] [] []], v.
  glm_unfold. vec4_eq.
Qed.

Lemma modelView_Compose (s p : vec3 R) (rx ry rz : R) :
  modelView s rx ry rz p = Compose s rx ry rz p.
Proof.
  unfold modelView, Compose.
  unfold modelView.
  change (@fone R _) with 1. change (@fzero R _) with 0.
  rewrite glm_scale_Scale, glm_translate_Translation.
  rewrite glm_rotate_X, glm_rotate_Y, glm_rotate_Z. reflexivity.
Qed.

Lemma Compose_example :
  mat4_mul_vec4 (Compose (mk_vec3 2 1 1) 0 90 0 (mk_vec3 5 0 0)) (mk_vec4 1 0 0 1)
    = mk_vec4 5 0 (-2) 1.
Proof.
  unfold Compose, radians.
  replace (0 * (PI / 180)) with 0 by lra.
  replace (90 * (PI / 180)) with (PI / 2) by lra.
  glm_unfold. rewrite cos_0, sin_0, cos_PI2, sin_PI2.
  vec4_eq.
Qed.

End Compose.

(** Evaluating the real value of a float constant. *)
Ltac b32_value :=
  unfold b32_to_R, b32_to_Q, Q2R; cbn;
  repeat match goal with
         | |- context [IZR ?z] =>
             let v := eval vm_compute in z in progress change (IZR z) with (IZR v)
         end;
  lra.

(** ** The transform composer in float arithmetic *)
Section Product.
Local Open Scope R_scope.

Lemma Compose_example_matrix :
  Compose (mk_vec3 2 1 1) 0 90 0 (mk_vec3 5 0 0)
    = mk_mat4 (mk_vec4 0 0 (-2) 0) (mk_vec4 0 1 0 0) (mk_vec4 1 0 0 0) (mk_vec4 5 0 0 1).
Proof.
  unfold Compose, radians.
  replace (0 * (PI / 180)) with 0 by lra.
  replace (90 * (PI / 180)) with (PI / 2) by lra.
  cbv [mat4_mul mat4_mul_vec4 vec4_add vec4_scale col0 col1 col2 col3 x3 y3 z3 x4 y4 z4 w4
       fzero fone fadd fsub fmul GLfloat_R Scale RotationX RotationY RotationZ Translation].
  rewrite cos_0, sin_0, cos_PI2, sin_PI2.
  f_equal; f_equal; ring.
Qed.

(** The model matrix of the example in [float] arithmetic, for a C library
    that rounds correctly at the two angles. *)
Lemma modelView_binary32_example (m : libm) :
  cosf m (S754_zero false) = b32_of_Q 1 →
  sinf m (S754_zero false) = S754_zero false →
  cosf m b32_half_pi = S754_finite true 12303662 (-48) →
  sinf m b32_half_pi = b32_of_Q 1 →
  example_modelView (H := GLfloat_binary32 m)
  = mk_mat4
      (mk_vec4 (S754_finite true 12303662 (-47)) (S754_zero false)
               (S754_finite true 8388608 (-22)) (S754_zero false))
      (mk_vec4 (S754_zero false) (S754_finite false 16777215 (-24))
               (S754_zero false) (S754_zero false))
      (mk_vec4 (S754_finite false 8388608 (-23)) (S754_zero false)
               (S754_finite true 12303662 (-48)) (S754_zero false))
      (mk_vec4 (S754_finite false 10485760 (-21)) (S754_zero false)
               (S754_zero false) (S754_finite false 8388608 (-23))).
Proof.
  intros Hcos0 Hsin0 Hcos90 Hsin90.
  unfold example_modelView, modelView, glm_rotate.
  cbn [fcos fsin fradians fliteral GLfloat_binary32].
  change (SFmul 24 128 (b32_of_Q 0) (b32_of_Q 0.01745329251994329576923690768489))
    with (S754_zero false).
  change (SFmul 24 128 (b32_of_Q 90) (b32_of_Q 0.01745329251994329576923690768489))
    with b32_half_pi.
  rewrite Hcos0, Hsin0, Hcos90, Hsin90.
  vm_compute. reflexivity.
Qed.

Lemma example_entries_near :
  mat4_near (/ 8388608)
    (mk_mat4
       (mk_vec4 (S754_finite true 12303662 (-47)) (S754_zero false)
                (S754_finite true 8388608 (-22)) (S754_zero false))
       (mk_vec4 (S754_zero false) (S754_finite false 16777215 (-24))
                (S754_zero false) (S754_zero false))
       (mk_vec4 (S754_finite false 8388608 (-23)) (S754_zero false)
                (S754_finite true 12303662 (-48)) (S754_zero false))
       (mk_vec4 (S754_finite false 10485760 (-21)) (S754_zero false)
                (S754_zero false) (S754_finite false 8388608 (-23))))
    (mk_mat4 (mk_vec4 0 0 (-2) 0) (mk_vec4 0 1 0 0) (mk_vec4 1 0 0 0) (mk_vec4 5 0 0 1)).
Proof.
  repeat split; cbn [col0 col1 col2 col3 x4 y4 z4 w4];
    (apply Rabs_le; b32_value).
Qed.
End Product.

Section ProductTheorem.
Local Open Scope R_scope.

End ProductTheorem.

Section ProductExample.
Local Open Scope R_scope.

(** In this section the float literals are those of [float] arithmetic with
    the tabulated C library. *)
#[local] Hint Extern 0 (GLfloat _) =>
  exact (GLfloat_binary32 tabulated_libm) : typeclass_instances.


End ProductExample.


(** * Further properties of the scene manager *)

(** ** Materials: the entry found *)
Section MaterialsFound.
Context {F : Type} `{GLfloat F}.

Lemma FindMaterial_loop_found remaining index (ms : list (OBJECT_MATERIAL F)) t material i m :
  (index ≤ i < index + remaining)%nat →
  (index + remaining ≤ length ms)%nat →
  ms !! i = Some m → material_tag m = t →
  (∀ j m', (index ≤ j < i)%nat → ms !! j = Some m' → material_tag m' ≠ t) →
  FindMaterial_loop remaining index ms t material = Ok (copied_into material m).
Proof.
  revert index. induction remaining as [|r IH]; intros index Hi Hlen Him Htag Hbefore; [lia|].
  cbn [FindMaterial_loop].
  read_cell ms index as m0 Hm0.
  destruct (String.eqb_spec (material_tag m0) t) as [Heq|Hne].
  - destruct (decide (i = index)) as [->|Hii]; [by simplify_eq|].
    exfalso. apply (Hbefore index m0); [lia | done | done].
  - destruct (decide (i = index)) as [->|Hii]; [congruence|].
    apply IH; [lia | lia | done | done |].
    intros j m' Hj. apply Hbefore. lia.
Qed.

(** The scan of the materials never leaves the vector. *)
Lemma FindMaterial_loop_returns remaining index (ms : list (OBJECT_MATERIAL F)) t material :
  (index + remaining ≤ length ms)%nat →
  ∃ material', FindMaterial_loop remaining index ms t material = Ok material'.
Proof.
  revert index. induction remaining as [|r IH]; intros index Hlen; [by eexists|].
  cbn [FindMaterial_loop].
  read_cell ms index as m0 Hm0.
  destruct (String.eqb (material_tag m0) t); [by eexists|].
  apply IH. lia.
Qed.

Lemma FindMaterial_nonempty (t : string) (material : OBJECT_MATERIAL F) (w : World F) :
  m_objectMaterials (scene w) ≠ [] →
  ∃ material', FindMaterial t material w = Ok (true, material').
Proof.
  intros Hsome. unfold FindMaterial.
  rewrite decide_False by (destruct (m_objectMaterials (scene w)); [done | cbn; lia]).
  destruct (FindMaterial_loop_returns (length (m_objectMaterials (scene w))) 0
              (m_objectMaterials (scene w)) t material) as (material' & ->); [lia|].
  by eexists.
Qed.

Lemma FindMaterial_found (t : string) (material : OBJECT_MATERIAL F) (w : World F)
    (i : nat) (m : OBJECT_MATERIAL F) :
  first_material_at (m_objectMaterials (scene w)) t i m →
  FindMaterial t material w = Ok (true, copied_into material m).
Proof.
  intros (Him & Htag & Hbefore).
  pose proof (lookup_lt_Some _ _ _ Him) as Hlt.
  unfold FindMaterial. rewrite decide_False by lia.
  rewrite (FindMaterial_loop_found _ _ _ _ _ i m); [done | lia | lia | done | done |].
  intros j m' Hj. apply Hbefore. lia.
Qed.

(** X1.  When entry [i] is the first material with the tag, [FindMaterial]
    returns [true] and the caller's material holds the diffuse colour, the
    specular colour and the shininess of that entry; its tag is not
    assigned.  Of two materials with the same tag the one defined first is
    found. *)
Theorem FindMaterial_first_match (t : string) (material : OBJECT_MATERIAL F) (w : World F)
    (i : nat) (m : OBJECT_MATERIAL F) :
  first_material_at (m_objectMaterials (scene w)) t i m →
  ∃ material', FindMaterial t material w = Ok (true, material') ∧
               diffuseColor material' = diffuseColor m ∧
               specularColor material' = specularColor m ∧
               shininess material' = shininess m ∧
               material_tag material' = material_tag material.
Proof.
  intros Hfirst. exists (copied_into material m).
  by rewrite (FindMaterial_found t material w i m Hfirst).
Qed.

(** X2.  With a shader manager attached, [SetShaderMaterial] on a tag whose
    first entry is [m] writes the three material uniforms with the values of
    [m], in the order diffuse colour, specular colour, shininess; they are
    the values of those uniforms afterwards, and the scene manager and the GL
    context are as before. *)
Theorem SetShaderMaterial_first_match (indeterminate : OBJECT_MATERIAL F) (t : string)
    (w : World F) (i : nat) (m : OBJECT_MATERIAL F) :
  m_pShaderManager (scene w) = shader_address →
  first_material_at (m_objectMaterials (scene w)) t i m →
  ∃ w', SetShaderMaterial indeterminate t w = Ok w' ∧
        scene w' = scene w ∧ gl w' = gl w ∧
        written (shader w') =
          written (shader w) ++
          [("material.diffuseColor", UVec3 (diffuseColor m));
           ("material.specularColor", UVec3 (specularColor m));
           ("material.shininess", UFloat (shininess m))] ∧
        uniforms (shader w') !! "material.diffuseColor" = Some (UVec3 (diffuseColor m)) ∧
        uniforms (shader w') !! "material.specularColor" = Some (UVec3 (specularColor m)) ∧
        uniforms (shader w') !! "material.shininess" = Some (UFloat (shininess m)).
Proof.
  intros Hptr Hfirst.
  pose proof (FindMaterial_found t indeterminate w i m Hfirst) as Hfind.
  destruct Hfirst as (Him & _ & _). pose proof (lookup_lt_Some _ _ _ Him) as Hlt.
  unfold SetShaderMaterial. rewrite decide_True by lia. rewrite Hfind.
  cbn. unfold call_shader. cbn. rewrite Hptr. cbn. rewrite Hptr. cbn. rewrite Hptr.
  eexists. split; [reflexivity|]. cbn.
  split_and!; [done | done | by rewrite <- !app_assoc | | |].
  - rewrite lookup_insert_ne by done. rewrite lookup_insert_ne by done.
    apply lookup_insert_eq.
  - rewrite lookup_insert_ne by done. apply lookup_insert_eq.
  - apply lookup_insert_eq.
Qed.

Lemma SetShaderMaterial_null_defined (indeterminate : OBJECT_MATERIAL F) (t : string)
    (w : World F) :
  m_pShaderManager (scene w) = NULL →
  m_objectMaterials (scene w) ≠ [] →
  SetShaderMaterial indeterminate t w = Undefined NullDereference.
Proof.
  intros Hptr Hsome. unfold SetShaderMaterial.
  rewrite decide_True by (destruct (m_objectMaterials (scene w)); [done | cbn; lia]).
  destruct (FindMaterial_nonempty t indeterminate w Hsome) as (material' & ->).
  cbn. unfold call_shader. rewrite Hptr. done.
Qed.

(** X3.  [SetShaderMaterial] does not test [m_pShaderManager].  With a null
    pointer it returns without a write only while no material is defined;
    once a material is defined it dereferences the null pointer, for every
    tag, registered or not. *)
Theorem SetShaderMaterial_null_pointer (indeterminate : OBJECT_MATERIAL F) (t : string)
    (w : World F) :
  m_pShaderManager (scene w) = NULL →
  (m_objectMaterials (scene w) = [] → SetShaderMaterial indeterminate t w = Ok w) ∧
  (m_objectMaterials (scene w) ≠ [] →
   SetShaderMaterial indeterminate t w = Undefined NullDereference).
Proof.
  intros Hptr. split.
  - intros Hnil. unfold SetShaderMaterial. rewrite Hnil. done.
  - intros Hsome. by apply SetShaderMaterial_null_defined.
Qed.

Lemma first_material_dec (ms : list (OBJECT_MATERIAL F)) (t : string) :
  (∃ i m, first_material_at ms t i m) ∨ no_material ms t.
Proof.
  induction ms as [|m0 ms IH] using rev_ind.
  - right. intros m Hm. by apply elem_of_nil in Hm.
  - destruct IH as [(i & m & Him & Htag & Hbefore)|Hno].
    + left. exists i, m. split_and!; [|done|].
      * by apply lookup_app_l_Some.
      * intros j m' Hj Hjm. apply (Hbefore j m' Hj).
        pose proof (lookup_lt_Some _ _ _ Him).
        by rewrite lookup_app_l in Hjm by lia.
    + destruct (decide (material_tag m0 = t)) as [Heq|Hne].
      * left. exists (length ms), m0. split_and!; [|done|].
        -- rewrite lookup_app_r by lia. by rewrite Nat.sub_diag.
        -- intros j m' Hj Hjm. rewrite lookup_app_l in Hjm by lia.
           apply (Hno m'). apply list_elem_of_lookup. eauto.
      * right. intros m Hm. apply elem_of_app in Hm as [Hm|Hm]; [by apply Hno|].
        apply list_elem_of_singleton in Hm. by subst.
Qed.

(** X4.  [DefineObjectMaterials] appends "wood" and "plastic" to the
    materials and changes nothing else.  A material defined before keeps its
    priority: for every tag that was found before, the search finds the same
    entry afterwards, so defining the materials a second time changes no
    lookup. *)
Theorem DefineObjectMaterials_keeps_priority (w : World F) :
  ∃ w' wood plastic,
    DefineObjectMaterials w = Ok w' ∧
    m_objectMaterials (scene w') = m_objectMaterials (scene w) ++ [wood; plastic] ∧
    material_tag wood = "wood" ∧ material_tag plastic = "plastic" ∧
    m_textureIDs (scene w') = m_textureIDs (scene w) ∧
    m_loadedTextures (scene w') = m_loadedTextures (scene w) ∧
    m_pShaderManager (scene w') = m_pShaderManager (scene w) ∧
    gl w' = gl w ∧ shader w' = shader w ∧
    (∀ t i m material,
       first_material_at (m_objectMaterials (scene w)) t i m →
       FindMaterial t material w' = FindMaterial t material w) ∧
    (∀ t material, t = "wood" ∨ t = "plastic" →
       ∃ m, material_tag m = t ∧ FindMaterial t material w' = Ok (true, copied_into material m)).
Proof.
  eexists. eexists. eexists. split; [reflexivity|]. cbn.
  split; [rewrite <- app_assoc; reflexivity|].
  do 7 (split; [reflexivity|]). split.
  - intros t i m material Hfirst.
    rewrite (FindMaterial_found t material w i m Hfirst).
    apply (FindMaterial_found t material _ i m). cbn.
    destruct Hfirst as (Him & Htag & Hbefore).
    pose proof (lookup_lt_Some _ _ _ Him) as Hlt.
    split_and!; [|done|].
    + rewrite <- app_assoc. by apply lookup_app_l_Some.
    + intros j m' Hj Hjm. apply (Hbefore j m' Hj).
      rewrite <- app_assoc in Hjm. by rewrite lookup_app_l in Hjm by lia.
  - intros t material Ht.
    match goal with |- context [(?ms ++ [?a]) ++ [?b]] =>
      destruct (first_material_dec ((ms ++ [a]) ++ [b]) t) as [(i & m & Hfirst)|Hno] end.
    + exists m. split; [by destruct Hfirst as (_ & ? & _)|].
      by apply (FindMaterial_found t material _ i m).
    + exfalso. destruct Ht as [-> | ->].
      * apply (Hno (mk_OBJECT_MATERIAL (lit3 0.3 0.2 0.1) (lit3 0.1 0.1 0.1)
                                       (fliteral 0.3) "wood")); [|done].
        apply elem_of_app. left. apply elem_of_app. right.
        by apply list_elem_of_singleton.
      * apply (Hno (mk_OBJECT_MATERIAL (lit3 0.3 0.3 0.4) (lit3 0.05 0.05 0.05)
                                       (fliteral 0.02) "plastic")); [|done].
        apply elem_of_app. right. by apply list_elem_of_singleton.
Qed.
End MaterialsFound.

Lemma plastic_is_second :
  first_material_at (m_objectMaterials (scene (materials_defined shader_address))) "plastic" 1
    (mk_OBJECT_MATERIAL (lit3 0.3 0.3 0.4) (lit3 0.05 0.05 0.05) (fliteral 0.02) "plastic").
Proof.
  split_and!; [reflexivity | reflexivity |].
  intros j m' Hj Hjm. assert (j = 0%nat) as -> by lia.
  cbn in Hjm. inversion Hjm. done.
Qed.

Lemma FindMaterial_first_match_witness :
  first_material_at (m_objectMaterials (scene (materials_defined shader_address))) "plastic" 1
    (mk_OBJECT_MATERIAL (lit3 0.3 0.3 0.4) (lit3 0.05 0.05 0.05) (fliteral 0.02) "plastic") ∧
  ∃ material', FindMaterial "plastic" stack_garbage (materials_defined shader_address)
                 = Ok (true, material') ∧
               shininess material' = fliteral 0.02 ∧ material_tag material' = "".
Proof.
  split; [apply plastic_is_second|].
  destruct (FindMaterial_first_match "plastic" stack_garbage
              (materials_defined shader_address) 1 _ plastic_is_second)
    as (material' & Hfind & _ & _ & Hshininess & Htag).
  exists material'. split_and!; [exact Hfind | exact Hshininess | exact Htag].
Defined.

Lemma SetShaderMaterial_first_match_witness :
  m_pShaderManager (scene (materials_defined shader_address)) = shader_address ∧
  ∃ w', SetShaderMaterial stack_garbage "plastic" (materials_defined shader_address) = Ok w' ∧
        uniforms (shader w') !! "material.shininess" = Some (UFloat (fliteral 0.02)).
Proof.
  split; [reflexivity|].
  destruct (SetShaderMaterial_first_match stack_garbage "plastic"
              (materials_defined shader_address) 1 _ eq_refl plastic_is_second)
    as (w' & Hrun & _ & _ & _ & _ & _ & Hshininess).
  exists w'. split; [exact Hrun | exact Hshininess].
Defined.

(** With "wood" and "plastic" defined and no shader manager, selecting
    either an unknown or a known material is undefined. *)
Lemma SetShaderMaterial_null_pointer_witness :
  m_pShaderManager (scene (materials_defined NULL)) = NULL ∧
  SetShaderMaterial stack_garbage "wood" (materials_defined NULL)
    = Undefined NullDereference ∧
  SetShaderMaterial stack_garbage "glass" (materials_defined NULL)
    = Undefined NullDereference ∧
  SetShaderMaterial stack_garbage "wood" detached = Ok detached.
Proof.
  split; [reflexivity|]. split_and!.
  - apply (SetShaderMaterial_null_pointer stack_garbage "wood" (materials_defined NULL)
             eq_refl). done.
  - apply (SetShaderMaterial_null_pointer stack_garbage "glass" (materials_defined NULL)
             eq_refl). done.
  - apply (SetShaderMaterial_null_pointer stack_garbage "wood" detached eq_refl). done.
Defined.

(** ** The registry: what a lookup returns, what a registration keeps *)
Section RegistryMore.
Context {F : Type} `{GLfloat F}.
Variable stbi_load : string → option stb_image.

Lemma FindTexture_registered (w : World F) (t : string) (i : nat) (e : TEXTURE_INFO) :
  (m_loadedTextures (scene w) ≤ length (m_textureIDs (scene w)))%nat →
  registered_at w t i e →
  FindTextureSlot t w = Ok (Z.of_nat i) ∧ FindTextureID t w = Ok (int_of_GLuint (ID e)).
Proof.
  intros Hn [Hi Hfirst]. unfold FindTextureSlot, FindTextureID. split.
  - apply (FindTextureSlot_loop_found _ _ _ _ i e); [lia | lia | done].
  - apply (FindTextureID_loop_found _ _ _ _ i e); [lia | lia | done].
Qed.

Lemma FindTexture_unregistered (w : World F) (t : string) :
  (m_loadedTextures (scene w) ≤ length (m_textureIDs (scene w)))%nat →
  unregistered w t →
  FindTextureSlot t w = Ok (-1) ∧ FindTextureID t w = Ok (-1).
Proof.
  intros Hn Hno. unfold FindTextureSlot, FindTextureID. split.
  - apply FindTextureSlot_loop_missing; [lia | done].
  - apply FindTextureID_loop_missing; [lia | done].
Qed.

Lemma registered_or_not (w : World F) (t : string) :
  (m_loadedTextures (scene w) ≤ length (m_textureIDs (scene w)))%nat →
  (∃ i e, registered_at w t i e) ∨ unregistered w t.
Proof.
  intros Hn.
  destruct (first_tag_dec (m_textureIDs (scene w)) t 0 (m_loadedTextures (scene w)))
    as [(i & e & Hi & Hfirst)|Hno]; [lia | |].
  - left. exists i, e. split; [lia | done].
  - by right.
Qed.

(** X5.  What a lookup returns is sound.  Under the registry invariant
    [FindTextureSlot] returns either -1, and then no loaded cell carries the
    tag and [FindTextureID] returns -1 as well, or the index of a loaded cell
    that carries the tag and has no such cell before it, and then
    [FindTextureID] returns the ID of that very cell.  It never returns an
    index at or beyond the count of loaded textures. *)
Theorem FindTexture_result_sound (w : World F) (t : string) :
  registry_ok w →
  ∃ slot, FindTextureSlot t w = Ok slot ∧
          ((slot = -1 ∧ unregistered w t ∧ FindTextureID t w = Ok (-1)) ∨
           (∃ i e, slot = Z.of_nat i ∧ registered_at w t i e ∧
                   FindTextureID t w = Ok (int_of_GLuint (ID e)))).
Proof.
  intros [Hlen Hn].
  destruct (registered_or_not w t) as [(i & e & Hreg)|Hno]; [lia | |].
  - destruct (FindTexture_registered w t i e) as [Hslot Hid]; [lia | done |].
    exists (Z.of_nat i). split; [done|]. right. by exists i, e.
  - destruct (FindTexture_unregistered w t) as [Hslot Hid]; [lia | done |].
    exists (-1). split; [done|]. by left.
Qed.

(** X6.  Registering keeps what was registered.  After a successful
    [CreateGLTexture], every tag that was found before is found in the same
    slot with the same ID; the new tag, if it was not registered, is found in
    the slot that was the count, with the name [glGenTextures] handed out; if
    it was registered already, the older entry is the one found; and any
    other unregistered tag stays unregistered. *)
Theorem CreateGLTexture_keeps_lookups (filename t : string) (w : World F) :
  registry_ok w →
  loadable stbi_load filename →
  (m_loadedTextures (scene w) < MAX_TEXTURES)%nat →
  ∃ w', CreateGLTexture stbi_load filename t w = Ok (true, w') ∧
        (∀ t' i e, registered_at w t' i e →
                   FindTextureSlot t' w' = Ok (Z.of_nat i) ∧
                   FindTextureID t' w' = Ok (int_of_GLuint (ID e))) ∧
        (unregistered w t →
         FindTextureSlot t w' = Ok (Z.of_nat (m_loadedTextures (scene w))) ∧
         FindTextureID t w' = Ok (int_of_GLuint (gl_next_name (gl w)))) ∧
        (∀ t', t' ≠ t → unregistered w t' →
               FindTextureSlot t' w' = Ok (-1) ∧ FindTextureID t' w' = Ok (-1)).
Proof.
  intros [Hlen Hn] Hload Hroom.
  destruct (CreateGLTexture_loadable stbi_load filename t w Hload) as (g & Hrun); [lia|].
  eexists. split; [exact Hrun|].
  set (n := m_loadedTextures (scene w)) in *.
  set (ids := m_textureIDs (scene w)) in *.
  set (cell := mk_TEXTURE_INFO (gl_next_name (gl w)) t).
  assert (Hkeep : ∀ j, (j < n)%nat → <[n := cell]> ids !! j = ids !! j).
  { intros j Hj. apply list_lookup_insert_ne. lia. }
  split_and!.
  - intros t' i e [Hi (Hie & Htag & Hbefore)].
    apply FindTexture_registered; [cbn; rewrite length_insert; lia|].
    split; [cbn; lia|]. cbn. split_and!; [by rewrite Hkeep | done |].
    intros j e' Hj Hje'. rewrite Hkeep in Hje' by lia. by apply (Hbefore j e').
  - intros Hno.
    apply (FindTexture_registered _ t n cell); [cbn; rewrite length_insert; lia|].
    split; [cbn; lia|]. cbn. split_and!; [apply list_lookup_insert_eq; lia | done |].
    intros j e' Hj Hje'. rewrite Hkeep in Hje' by lia. by apply (Hno j e').
  - intros t' Hne Hno.
    apply FindTexture_unregistered; [cbn; rewrite length_insert; lia|].
    intros j e' Hj Hje'. cbn in Hj, Hje'.
    destruct (decide (j = n)) as [->|Hjn].
    + rewrite list_lookup_insert_eq in Hje' by lia. inversion Hje'. done.
    + rewrite Hkeep in Hje' by lia. apply (Hno j e'); [lia | done].
Qed.

(** X7.  The two failure paths of [CreateGLTexture] differ.  When the file
    cannot be decoded nothing at all has happened.  When it decodes to an
    unsupported channel count, a texture name has been generated, bound on
    the active unit and configured before the channel count is looked at, and
    the method returns without unbinding or deleting it: the name is used up
    and stays bound. *)
Theorem CreateGLTexture_failure_paths (filename t : string) (w : World F) :
  (stbi_load filename = None → CreateGLTexture stbi_load filename t w = Ok (false, w)) ∧
  (∀ image, stbi_load filename = Some image →
     colorChannels image ≠ 3 → colorChannels image ≠ 4 →
     ∃ w', CreateGLTexture stbi_load filename t w = Ok (false, w') ∧
           scene w' = scene w ∧ shader w' = shader w ∧
           gl_next_name (gl w') = gl_next_name (gl w) + 1 ∧
           gl_bound_2D (gl w') !! gl_active_unit (gl w) = Some (gl_next_name (gl w)) ∧
           calls_since (gl w) (gl w') =
             [ glGenTextures (gl_next_name (gl w));
               glBindTexture (gl_next_name (gl w));
               glTexParameteri GL_TEXTURE_WRAP_S GL_REPEAT;
               glTexParameteri GL_TEXTURE_WRAP_T GL_REPEAT;
               glTexParameteri GL_TEXTURE_MIN_FILTER GL_LINEAR;
               glTexParameteri GL_TEXTURE_MAG_FILTER GL_LINEAR ]).
Proof.
  split.
  - intros Hnone. unfold CreateGLTexture. by rewrite Hnone.
  - intros image Himage H3 H4. unfold CreateGLTexture. rewrite Himage. cbn.
    destruct (Z.eqb_spec (colorChannels image) 3) as [|_]; [done|].
    destruct (Z.eqb_spec (colorChannels image) 4) as [|_]; [done|].
    eexists. split; [reflexivity|]. cbn.
    split_and!; [done | done | done | apply lookup_insert_eq |].
    unfold calls_since. cbn. rewrite <- !app_assoc. by rewrite drop_app_length.
Qed.
End RegistryMore.

(** ** Loading with files that fail, binding, and tearing down *)
Section LoadMore.
Context {F : Type} `{GLfloat F}.
Variable stbi_load : string → option stb_image.

Lemma loadableb_loadable (filename : string) :
  loadableb stbi_load filename = true ↔ loadable stbi_load filename.
Proof.
  unfold loadableb, loadable. split.
  - destruct (stbi_load filename) as [image|]; [|done].
    intros [H3|H4]%orb_true_iff; exists image; (split; [done|]); [left | right]; lia.
  - intros (image & -> & [-> | ->]); done.
Qed.

Lemma CreateGLTexture_refused (filename t : string) (w : World F) :
  ¬ loadable stbi_load filename →
  ∃ w', CreateGLTexture stbi_load filename t w = Ok (false, w') ∧
        scene w' = scene w ∧ shader w' = shader w.
Proof.
  intros Hno. unfold CreateGLTexture.
  destruct (stbi_load filename) as [image|] eqn:Himage; [|eauto].
  cbn. destruct (Z.eqb_spec (colorChannels image) 3) as [H3|H3].
  { exfalso. apply Hno. exists image. auto. }
  destruct (Z.eqb_spec (colorChannels image) 4) as [H4|H4].
  { exfalso. apply Hno. exists image. auto. }
  eauto.
Qed.

(** Registering a list of files: those that load take consecutive cells in
    their order, those that do not take none. *)
Lemma CreateGLTextures_filter (textures : list (string * string)) (w : World F) :
  (m_loadedTextures (scene w)
     + length (filter (λ ft, loadableb stbi_load ft.1 = true) textures)
   ≤ length (m_textureIDs (scene w)))%nat →
  ∃ w', CreateGLTextures stbi_load textures w = Ok w' ∧
        m_loadedTextures (scene w') =
          (m_loadedTextures (scene w)
             + length (filter (λ ft, loadableb stbi_load ft.1 = true) textures))%nat ∧
        length (m_textureIDs (scene w')) = length (m_textureIDs (scene w)) ∧
        m_objectMaterials (scene w') = m_objectMaterials (scene w) ∧
        m_pShaderManager (scene w') = m_pShaderManager (scene w) ∧
        shader w' = shader w ∧
        (∀ i, (i < m_loadedTextures (scene w))%nat →
              m_textureIDs (scene w') !! i = m_textureIDs (scene w) !! i) ∧
        (∀ k t, (filter (λ ft, loadableb stbi_load ft.1 = true) textures).*2 !! k = Some t →
                tag <$> m_textureIDs (scene w') !! (m_loadedTextures (scene w) + k)%nat
                  = Some t).
Proof.
  revert w. induction textures as [|[filename t0] rest IH]; intros w Hfit.
  - exists w. cbn. split_and!; try done; lia.
  - cbn [CreateGLTextures].
    destruct (loadableb stbi_load filename) eqn:Hb.
    + rewrite filter_cons_True in Hfit |- * by done. cbn in Hfit.
      apply loadableb_loadable in Hb.
      destruct (CreateGLTexture_loadable stbi_load filename t0 w Hb) as (g & ->); [lia|].
      cbn. set (w1 := with_textures _ _ (with_gl g w)).
      destruct (IH w1) as (w' & Hrun & Hn & Hlen & Hms & Hptr & Hsh & Hold & Hnew).
      { subst w1. cbn. rewrite length_insert. lia. }
      exists w'. split; [done|]. subst w1. cbn in *.
      split_and!; [lia | by rewrite Hlen, length_insert | done | done | done | |].
      * intros i Hi. rewrite Hold by lia. apply list_lookup_insert_ne. lia.
      * intros k t Hk. destruct k as [|k]; cbn in Hk.
        -- inversion Hk; subst t. rewrite Nat.add_0_r, Hold by lia.
           by rewrite list_lookup_insert_eq by lia.
        -- specialize (Hnew k t Hk).
           by replace (m_loadedTextures (scene w) + S k)%nat
             with (S (m_loadedTextures (scene w)) + k)%nat by lia.
    + rewrite filter_cons_False in Hfit |- * by (cbn; congruence).
      destruct (CreateGLTexture_refused filename t0 w) as (w1 & -> & Hscene & Hshader).
      { rewrite <- loadableb_loadable, Hb. done. }
      cbn.
      destruct (IH w1) as (w' & Hrun & Hn & Hlen & Hms & Hptr & Hsh & Hold & Hnew).
      { by rewrite Hscene. }
      exists w'. rewrite Hscene in *. split_and!; try done. congruence.
Qed.

(** The k-th loadable file of a list with distinct and new tags is
    registered in cell (old count + k). *)
Lemma CreateGLTextures_registered (textures : list (string * string)) (w : World F) :
  (m_loadedTextures (scene w)
     + length (filter (λ ft, loadableb stbi_load ft.1 = true) textures)
   ≤ length (m_textureIDs (scene w)))%nat →
  NoDup (filter (λ ft, loadableb stbi_load ft.1 = true) textures).*2 →
  ∃ w', CreateGLTextures stbi_load textures w = Ok w' ∧
        ∀ k t, (filter (λ ft, loadableb stbi_load ft.1 = true) textures).*2 !! k = Some t →
               unregistered w t →
               ∃ e, registered_at w' t (m_loadedTextures (scene w) + k) e.
Proof.
  intros Hfit Hdup.
  set (loaded := filter (λ ft, loadableb stbi_load ft.1 = true) textures) in *.
  destruct (CreateGLTextures_filter textures w)
    as (w' & Hrun & Hn' & Hlen' & _ & _ & _ & Hold & Hnew); [fold loaded; lia|].
  fold loaded in Hn', Hnew.
  exists w'. split; [done|].
  intros k t Hk Hno.
  pose proof (lookup_lt_Some _ _ _ Hk) as Hklt. rewrite length_fmap in Hklt.
  pose proof (Hnew k t Hk) as Hcell.
  destruct (m_textureIDs (scene w') !! (m_loadedTextures (scene w) + k)%nat)
    as [e|] eqn:He; [|done].
  cbn in Hcell. injection Hcell as Htag.
  exists e. split; [lia|]. split_and!; [done | done |].
  intros j e' Hj Hje' Heq.
  destruct (decide (j < m_loadedTextures (scene w))%nat) as [Hlow|Hhigh].
  - rewrite Hold in Hje' by done. apply (Hno j e'); [lia | done | done].
  - set (j' := (j - m_loadedTextures (scene w))%nat).
    assert (Hj' : (j' < length loaded.*2)%nat) by (rewrite length_fmap; lia).
    destruct (lookup_lt_is_Some_2 _ _ Hj') as [tj Htj].
    pose proof (Hnew j' tj Htj) as Hcellj.
    replace (m_loadedTextures (scene w) + j')%nat with j in Hcellj by lia.
    rewrite Hje' in Hcellj. cbn in Hcellj. injection Hcellj as Htagj.
    assert (j' = k); [|lia].
    apply (NoDup_lookup _ _ _ t Hdup); congruence.
Qed.

(** X8.  A file that fails to load takes no slot.  Registering a list of
    files returns as long as the loadable ones fit in the free cells; the
    count grows by the number of loadable files, the cells below the old
    count are untouched, and, the loadable tags being distinct and new, the
    k-th loadable file is found in slot (old count + k): a failure moves
    every later texture down by one slot. *)
Theorem CreateGLTextures_skips_failures (textures : list (string * string)) (w : World F) :
  registry_ok w →
  (m_loadedTextures (scene w)
     + length (filter (λ ft, loadableb stbi_load ft.1 = true) textures)
   ≤ MAX_TEXTURES)%nat →
  ∃ w', CreateGLTextures stbi_load textures w = Ok w' ∧
        registry_ok w' ∧
        m_loadedTextures (scene w') =
          (m_loadedTextures (scene w)
             + length (filter (λ ft, loadableb stbi_load ft.1 = true) textures))%nat ∧
        (∀ i, (i < m_loadedTextures (scene w))%nat →
              m_textureIDs (scene w') !! i = m_textureIDs (scene w) !! i) ∧
        (NoDup (filter (λ ft, loadableb stbi_load ft.1 = true) textures).*2 →
         ∀ k t, (filter (λ ft, loadableb stbi_load ft.1 = true) textures).*2 !! k = Some t →
                unregistered w t →
                FindTextureSlot t w' = Ok (Z.of_nat (m_loadedTextures (scene w) + k))).
Proof.
  intros [Hlen Hn] Hfit.
  destruct (CreateGLTextures_filter textures w)
    as (w' & Hrun & Hn' & Hlen' & _ & _ & _ & Hold & _); [lia|].
  exists w'. split_and!; [done | split; lia | done | done |].
  intros Hdup k t Hk Hno.
  destruct (CreateGLTextures_registered textures w) as (w'' & Hrun' & Hreg); [lia | done |].
  rewrite Hrun in Hrun'. injection Hrun' as <-.
  destruct (Hreg k t Hk Hno) as (e & He).
  by destruct (FindTexture_registered w' t _ e ltac:(lia) He) as [Hslot _].
Qed.

(** X9.  [LoadSceneTextures] does not depend on the files being there.  For
    any texture directory, when the list of files fits in the free cells it
    returns with the registry invariant kept and between none and all of the
    files registered, and for every loaded cell [i] the texture the cell
    names is the one bound on unit [i]. *)
Theorem LoadSceneTextures_of_always_binds (textures : list (string * string)) (w : World F) :
  registry_ok w →
  (m_loadedTextures (scene w) + length textures ≤ MAX_TEXTURES)%nat →
  ∃ w', LoadSceneTextures_of stbi_load textures w = Ok w' ∧
        registry_ok w' ∧
        (m_loadedTextures (scene w) ≤ m_loadedTextures (scene w')
           ≤ m_loadedTextures (scene w) + length textures)%nat ∧
        ∀ i e, (i < m_loadedTextures (scene w'))%nat →
               m_textureIDs (scene w') !! i = Some e →
               gl_bound_2D (gl w') !! i = Some (ID e).
Proof.
  intros [Hlen Hn] Hfit.
  pose proof (length_filter (λ ft, loadableb stbi_load ft.1 = true) textures) as Hfl.
  destruct (CreateGLTextures_filter textures w)
    as (w1 & Hrun & Hn1 & Hlen1 & _ & _ & _ & _ & _); [lia|].
  destruct (BindGLTextures_binds w1) as (w' & Hbind & Hscene & Hunits); [lia|].
  exists w'. unfold LoadSceneTextures_of. rewrite Hrun. cbn.
  split_and!; [done | unfold registry_ok; rewrite Hscene; split; lia | rewrite Hscene; lia
              | rewrite Hscene; lia |].
  intros i e Hi Hie. rewrite Hscene in Hi, Hie. rewrite Hunits by done. by rewrite Hie.
Qed.

Lemma BindGLTextures_loop_state remaining i (ids : list TEXTURE_INFO) (g : GLcontext) :
  (i + remaining ≤ length ids)%nat →
  ∃ g', BindGLTextures_loop remaining i ids g = Ok g' ∧
        gl_next_name g' = gl_next_name g ∧
        (∀ j, (j < i ∨ i + remaining ≤ j)%nat → gl_bound_2D g' !! j = gl_bound_2D g !! j) ∧
        (∀ j, (i ≤ j < i + remaining)%nat → gl_bound_2D g' !! j = ID <$> ids !! j) ∧
        ((0 < remaining)%nat → gl_active_unit g' = (i + remaining - 1)%nat).
Proof.
  revert i g. induction remaining as [|r IH]; intros i g Hlen.
  - exists g. split_and!; [done | done | done | intros j Hj; lia | lia].
  - cbn [BindGLTextures_loop].
    read_cell ids i as e He.
    destruct (IH (S i) (do_glBindTexture (ID e) (do_glActiveTexture i g)))
      as (g' & Hrun & Hname & Hout & Hin & Hactive); [lia|].
    exists g'. split_and!; [done | done | | |].
    + intros j Hj. rewrite Hout by lia. cbn. apply lookup_insert_ne. lia.
    + intros j Hj. destruct (decide (j = i)) as [->|Hji].
      * rewrite Hout by lia. cbn. by rewrite lookup_insert_eq, He.
      * apply Hin. lia.
    + intros _. destruct r as [|r].
      * cbn in Hrun. inversion Hrun. cbn. lia.
      * rewrite Hactive by lia. lia.
Qed.

(** X10.  [BindGLTextures] has to come after the last registration.  It
    leaves the unit of the last loaded texture active, and
    [CreateGLTexture] binds and unbinds on the active unit: a texture
    registered after the binding takes the next cell, but the unit of the
    texture before it ends up with no texture bound, and the new texture's
    own unit is left as it was. *)
Theorem CreateGLTexture_after_bind_unbinds (filename t : string) (w w1 : World F) :
  registry_ok w →
  (0 < m_loadedTextures (scene w) < MAX_TEXTURES)%nat →
  loadable stbi_load filename →
  BindGLTextures w = Ok w1 →
  ∃ w2 e, CreateGLTexture stbi_load filename t w1 = Ok (true, w2) ∧
          m_textureIDs (scene w) !! (m_loadedTextures (scene w) - 1)%nat = Some e ∧
          gl_bound_2D (gl w1) !! (m_loadedTextures (scene w) - 1)%nat = Some (ID e) ∧
          gl_bound_2D (gl w2) !! (m_loadedTextures (scene w) - 1)%nat = Some 0 ∧
          m_textureIDs (scene w2) !! m_loadedTextures (scene w)
            = Some (mk_TEXTURE_INFO (gl_next_name (gl w)) t) ∧
          gl_bound_2D (gl w2) !! m_loadedTextures (scene w)
            = gl_bound_2D (gl w) !! m_loadedTextures (scene w).
Proof.
  intros [Hlen Hn] Hpos (image & Himage & Hch) Hbind.
  unfold BindGLTextures in Hbind.
  destruct (BindGLTextures_loop_state (m_loadedTextures (scene w)) 0
              (m_textureIDs (scene w)) (gl w))
    as (g1 & Hloop & Hname & Hout & Hin & Hactive); [lia|].
  rewrite Hloop in Hbind. cbn in Hbind. inversion Hbind; subst w1. clear Hbind.
  specialize (Hactive ltac:(lia)). cbn in Hactive.
  set (n := m_loadedTextures (scene w)) in *.
  destruct (m_textureIDs (scene w) !! (n - 1)%nat) as [e|] eqn:He;
    [|apply lookup_ge_None in He; lia].
  assert (Hbound : gl_bound_2D g1 !! (n - 1)%nat = Some (ID e)).
  { rewrite Hin by lia. by rewrite He. }
  unfold CreateGLTexture. rewrite Himage. cbn. fold n.
  destruct Hch as [-> | ->]; cbn; rewrite decide_True by lia;
    (eexists; exists e; split; [reflexivity|]; cbn; rewrite Hactive, Hname;
     split_and!;
       [done | done | apply lookup_insert_eq | apply list_lookup_insert_eq; lia
       | rewrite !lookup_insert_ne by lia; apply Hout; lia]).
Qed.

Lemma DestroyGLTextures_loop_tags remaining i (ids : list TEXTURE_INFO) (g : GLcontext) :
  (i + remaining ≤ length ids)%nat →
  ∃ ids' g', DestroyGLTextures_loop remaining i ids g = Ok (ids', g') ∧
             tag <$> ids' = tag <$> ids ∧
             gl_bound_2D g' = gl_bound_2D g ∧ gl_active_unit g' = gl_active_unit g.
Proof.
  revert i ids g. induction remaining as [|r IH]; intros i ids g Hlen.
  - by exists ids, g.
  - cbn [DestroyGLTextures_loop].
    read_cell ids i as e He. cbn [do_glGenTextures].
    destruct (IH (S i) (<[i := mk_TEXTURE_INFO (gl_next_name g) (tag e)]> ids)
                (mk_GLcontext (gl_next_name g + 1) (gl_active_unit g) (gl_bound_2D g)
                              (gl_calls g ++ [glGenTextures (gl_next_name g)])))
      as (ids' & g' & Hrun & Htags & Hbound & Hactive).
    { rewrite length_insert. lia. }
    exists ids', g'. split_and!; [done | | done | done].
    rewrite Htags, list_fmap_insert. cbn.
    apply list_insert_id. by rewrite list_lookup_fmap, He.
Qed.

(** The slot found depends on the tags of the cells and the count only. *)
Lemma FindTextureSlot_loop_tags remaining index (ids ids' : list TEXTURE_INFO) t :
  tag <$> ids' = tag <$> ids →
  FindTextureSlot_loop remaining index ids' t = FindTextureSlot_loop remaining index ids t.
Proof.
  intros Htags. revert index. induction remaining as [|r IH]; intros index; [done|].
  cbn [FindTextureSlot_loop].
  assert (Hcell : tag <$> ids' !! index = tag <$> ids !! index)
    by (by rewrite <- !list_lookup_fmap, Htags).
  destruct (ids' !! index) as [e'|], (ids !! index) as [e|]; cbn in Hcell;
    [|done|done|done].
  inversion Hcell as [Htag]. rewrite Htag. by rewrite IH.
Qed.

(** X11.  [DestroyGLTextures] does not empty the registry.  It returns with
    the count of loaded textures, the tag of every cell, the materials, the
    shader state and the texture bindings as they were, so every tag is
    still found in its slot; only the IDs in the cells differ. *)
Theorem DestroyGLTextures_keeps_registry (w : World F) :
  registry_ok w →
  ∃ w', DestroyGLTextures w = Ok w' ∧
        registry_ok w' ∧
        m_loadedTextures (scene w') = m_loadedTextures (scene w) ∧
        tag <$> m_textureIDs (scene w') = tag <$> m_textureIDs (scene w) ∧
        m_objectMaterials (scene w') = m_objectMaterials (scene w) ∧
        shader w' = shader w ∧
        gl_bound_2D (gl w') = gl_bound_2D (gl w) ∧
        ∀ t, FindTextureSlot t w' = FindTextureSlot t w.
Proof.
  intros [Hlen Hn]. unfold DestroyGLTextures.
  destruct (DestroyGLTextures_loop_tags (m_loadedTextures (scene w)) 0
              (m_textureIDs (scene w)) (gl w))
    as (ids' & g' & -> & Htags & Hbound & _); [lia|].
  cbn. eexists. split; [reflexivity|]. cbn.
  split_and!; [|done|done|done|done|done|].
  - split; cbn; [|done].
    by rewrite <- (length_fmap tag), Htags, length_fmap.
  - intros t. unfold FindTextureSlot. cbn. by apply FindTextureSlot_loop_tags.
Qed.
End LoadMore.

Lemma FindTexture_result_sound_witness :
  registry_ok (two_textures (F := R) NULL) ∧
  ∃ slot, FindTextureSlot "plank" (two_textures (F := R) NULL) = Ok slot ∧
          ((slot = -1 ∧ unregistered (two_textures (F := R) NULL) "plank" ∧
            FindTextureID "plank" (two_textures (F := R) NULL) = Ok (-1)) ∨
           (∃ i e, slot = Z.of_nat i ∧ registered_at (two_textures (F := R) NULL) "plank" i e ∧
                   FindTextureID "plank" (two_textures (F := R) NULL)
                     = Ok (int_of_GLuint (ID e)))).
Proof.
  split; [apply two_textures_ok|].
  apply (FindTexture_result_sound (two_textures NULL) "plank" (two_textures_ok NULL)).
Defined.

Lemma no_brick_yet : unregistered (two_textures (F := R) NULL) "brick".
Proof.
  intros j e Hj Hje. cbn in Hj.
  assert (j = 0%nat ∨ j = 1%nat) as [-> | ->] by lia; cbn in Hje; inversion Hje; done.
Qed.

(** "brick" becomes the third texture, in slot 2 with the name 3. *)
Lemma CreateGLTexture_keeps_lookups_witness :
  registry_ok (two_textures (F := R) NULL) ∧
  loadable two_files "textures/brick.jpg" ∧
  ∃ w', CreateGLTexture two_files "textures/brick.jpg" "brick" (two_textures (F := R) NULL)
          = Ok (true, w') ∧
        FindTextureSlot "brick" w' = Ok 2 ∧ FindTextureID "brick" w' = Ok 3.
Proof.
  split_and!; [apply two_textures_ok | apply brick_loadable |].
  destruct (CreateGLTexture_keeps_lookups two_files "textures/brick.jpg" "brick"
              (two_textures NULL) (two_textures_ok NULL) brick_loadable)
    as (w' & Hrun & _ & Hnew & _); [cbn; unfold MAX_TEXTURES; lia|].
  exists w'. split; [exact Hrun|]. apply Hnew. apply no_brick_yet.
Defined.

(** The single-channel image takes no slot: "brick", second in the list, is
    the first texture. *)
Lemma CreateGLTextures_skips_failures_witness :
  registry_ok (fresh_world (F := R) NULL) ∧
  ∃ w', CreateGLTextures two_files
          [("textures/gray.png", "gray"); ("textures/brick.jpg", "brick")]
          (fresh_world (F := R) NULL) = Ok w' ∧
        m_loadedTextures (scene w') = 1%nat ∧
        FindTextureSlot "brick" w' = Ok 0.
Proof.
  split; [apply fresh_world_ok|].
  destruct (CreateGLTextures_skips_failures two_files
              [("textures/gray.png", "gray"); ("textures/brick.jpg", "brick")]
              (fresh_world NULL) (fresh_world_ok NULL))
    as (w' & Hrun & _ & Hn & _ & Hslot); [vm_compute; lia|].
  exists w'. split_and!; [exact Hrun | exact Hn |].
  apply (Hslot ltac:(apply (bool_decide_unpack _); vm_compute; exact I) 0%nat "brick");
    [reflexivity|].
  intros j e Hj. cbn in Hj. lia.
Defined.

(** None of the six files of the scene is in this directory: the scene loads
    all the same, with no texture. *)
Lemma LoadSceneTextures_of_always_binds_witness :
  registry_ok (fresh_world (F := R) NULL) ∧
  ∃ w', LoadSceneTextures two_files (fresh_world (F := R) NULL) = Ok w' ∧
        registry_ok w' ∧ (0 ≤ m_loadedTextures (scene w') ≤ 6)%nat.
Proof.
  split; [apply fresh_world_ok|].
  destruct (LoadSceneTextures_of_always_binds two_files scene_textures
              (fresh_world NULL) (fresh_world_ok NULL))
    as (w' & Hrun & Hok & Hn & _); [cbn; unfold MAX_TEXTURES; lia|].
  exists w'. split_and!; [exact Hrun | exact Hok | exact (proj1 Hn) | exact (proj2 Hn)].
Defined.

(** "plank" (name 2) is bound on unit 1; registering "brick" afterwards
    leaves unit 1 without a texture. *)
Lemma CreateGLTexture_after_bind_unbinds_witness :
  registry_ok (two_textures (F := R) NULL) ∧
  ∃ w1, BindGLTextures (two_textures (F := R) NULL) = Ok w1 ∧
        gl_bound_2D (gl w1) !! 1%nat = Some 2 ∧
        ∃ w2, CreateGLTexture two_files "textures/brick.jpg" "brick" w1 = Ok (true, w2) ∧
              gl_bound_2D (gl w2) !! 1%nat = Some 0.
Proof.
  split; [apply two_textures_ok|].
  eexists. split; [reflexivity|]. split; [reflexivity|].
  destruct (CreateGLTexture_after_bind_unbinds two_files "textures/brick.jpg" "brick"
              (two_textures NULL) _ (two_textures_ok NULL)
              ltac:(cbn; unfold MAX_TEXTURES; lia) brick_loadable eq_refl)
    as (w2 & e & Hrun & _ & _ & Hunbound & _).
  exists w2. split; [exact Hrun | exact Hunbound].
Defined.

Lemma DestroyGLTextures_keeps_registry_witness :
  registry_ok (two_textures (F := R) NULL) ∧
  ∃ w', DestroyGLTextures (two_textures (F := R) NULL) = Ok w' ∧
        m_loadedTextures (scene w') = 2%nat ∧
        FindTextureSlot "plank" w' = Ok 1.
Proof.
  split; [apply two_textures_ok|].
  destruct (DestroyGLTextures_keeps_registry (two_textures NULL) (two_textures_ok NULL))
    as (w' & Hrun & _ & Hn & _ & _ & _ & _ & Hslot).
  exists w'. split_and!; [exact Hrun | exact Hn | by rewrite Hslot].
Defined.

(** ** Selecting a texture or a colour *)
Section Select.
Context {F : Type} `{GLfloat F}.

(** X12.  The sampler index names the unit the texture is bound on.  After
    [BindGLTextures], selecting a registered tag sets the use-texture flag to
    1 and the sampler uniform to the tag's slot, and on the texture unit of
    that number the texture bound is the one the tag was registered with. *)
Theorem SetShaderTexture_selects_bound_unit (t : string) (w w1 : World F) (i : nat)
    (e : TEXTURE_INFO) :
  registry_ok w →
  m_pShaderManager (scene w) = shader_address →
  registered_at w t i e →
  BindGLTextures w = Ok w1 →
  ∃ w2, SetShaderTexture t w1 = Ok w2 ∧
        uniforms (shader w2) !! g_UseTextureName = Some (UInt 1) ∧
        uniforms (shader w2) !! g_TextureValueName = Some (USampler2D (Z.of_nat i)) ∧
        gl_bound_2D (gl w2) !! i = Some (ID e) ∧
        (i < MAX_TEXTURES)%nat.
Proof.
  intros [Hlen Hn] Hptr Hreg Hbind.
  destruct (BindGLTextures_binds w) as (w1' & Hbind' & Hscene & Hunits); [lia|].
  rewrite Hbind in Hbind'. inversion Hbind'; subst w1'. clear Hbind'.
  assert (Hreg1 : registered_at w1 t i e) by (unfold registered_at; by rewrite Hscene).
  destruct (FindTexture_registered w1 t i e) as [Hslot _]; [rewrite Hscene; lia | done |].
  unfold SetShaderTexture. rewrite Hscene, Hptr, Hslot. cbn.
  eexists. split; [reflexivity|]. cbn.
  destruct Hreg as [Hi (Hie & _ & _)].
  split_and!; [| apply lookup_insert_eq | | lia].
  - rewrite lookup_insert_ne by done. apply lookup_insert_eq.
  - rewrite Hunits by done. by rewrite Hie.
Qed.

(** X13.  Colour and texture switch the use-texture flag and leave each
    other's uniform alone.  A colour set after a registered texture turns the
    flag to 0 while the sampler uniform keeps the texture's slot; a texture
    selected after a colour turns the flag to 1 while the colour uniform
    keeps the colour. *)
Theorem color_and_texture_toggle (t : string) (r g b a : F) (w : World F) (i : nat)
    (e : TEXTURE_INFO) :
  registry_ok w →
  m_pShaderManager (scene w) = shader_address →
  registered_at w t i e →
  (∃ w', (SetShaderTexture t w ≫= SetShaderColor r g b a) = Ok w' ∧
         uniforms (shader w') !! g_UseTextureName = Some (UInt 0) ∧
         uniforms (shader w') !! g_TextureValueName = Some (USampler2D (Z.of_nat i)) ∧
         uniforms (shader w') !! g_ColorValueName = Some (UVec4 (mk_vec4 r g b a))) ∧
  (∃ w', (SetShaderColor r g b a w ≫= SetShaderTexture t) = Ok w' ∧
         uniforms (shader w') !! g_UseTextureName = Some (UInt 1) ∧
         uniforms (shader w') !! g_TextureValueName = Some (USampler2D (Z.of_nat i)) ∧
         uniforms (shader w') !! g_ColorValueName = Some (UVec4 (mk_vec4 r g b a))).
Proof.
  intros [Hlen Hn] Hptr Hreg.
  destruct (FindTexture_registered w t i e) as [Hslot _]; [lia | done |].
  unfold FindTextureSlot in Hslot.
  split.
  - unfold SetShaderTexture, SetShaderColor, FindTextureSlot.
    rewrite Hptr, Hslot. cbn. rewrite Hptr.
    eexists. split; [reflexivity|]. cbn. split_and!.
    + rewrite lookup_insert_ne by done. apply lookup_insert_eq.
    + rewrite !lookup_insert_ne by done. apply lookup_insert_eq.
    + apply lookup_insert_eq.
  - unfold SetShaderTexture, SetShaderColor, FindTextureSlot.
    rewrite Hptr. cbn. rewrite Hptr, Hslot. cbn.
    eexists. split; [reflexivity|]. cbn. split_and!.
    + rewrite lookup_insert_ne by done. apply lookup_insert_eq.
    + apply lookup_insert_eq.
    + rewrite !lookup_insert_ne by done. apply lookup_insert_eq.
Qed.
End Select.

Lemma plank_registered (p : ShaderManager_ptr) :
  registered_at (two_textures (F := R) p) "plank" 1 (mk_TEXTURE_INFO 2 "plank").
Proof.
  split; [cbn; lia|]. split_and!; [reflexivity | reflexivity |].
  intros j e Hj Hje. assert (j = 0%nat) as -> by lia. cbn in Hje. inversion Hje. done.
Qed.

Lemma SetShaderTexture_selects_bound_unit_witness :
  registry_ok (two_textures (F := R) shader_address) ∧
  ∃ w1, BindGLTextures (two_textures (F := R) shader_address) = Ok w1 ∧
        ∃ w2, SetShaderTexture "plank" w1 = Ok w2 ∧
              uniforms (shader w2) !! g_TextureValueName = Some (USampler2D 1) ∧
              gl_bound_2D (gl w2) !! 1%nat = Some 2.
Proof.
  split; [apply two_textures_ok|].
  eexists. split; [reflexivity|].
  destruct (SetShaderTexture_selects_bound_unit "plank" (two_textures shader_address) _
              1 (mk_TEXTURE_INFO 2 "plank") (two_textures_ok shader_address) eq_refl
              (plank_registered shader_address) eq_refl)
    as (w2 & Hrun & _ & Hsampler & Hbound & _).
  exists w2. split_and!; [exact Hrun | exact Hsampler | exact Hbound].
Defined.

Lemma color_and_texture_toggle_witness :
  registry_ok (two_textures (F := R) shader_address) ∧
  ∃ w', (SetShaderTexture "plank" (two_textures (F := R) shader_address)
           ≫= SetShaderColor 1%R 1%R 1%R 1%R) = Ok w' ∧
        uniforms (shader w') !! g_UseTextureName = Some (UInt 0) ∧
        uniforms (shader w') !! g_TextureValueName = Some (USampler2D 1).
Proof.
  split; [apply two_textures_ok|].
  destruct (color_and_texture_toggle "plank" 1%R 1%R 1%R 1%R (two_textures shader_address)
              1 (mk_TEXTURE_INFO 2 "plank") (two_textures_ok shader_address) eq_refl
              (plank_registered shader_address))
    as ((w' & Hrun & Hflag & Hsampler & _) & _).
  exists w'. split_and!; [exact Hrun | exact Hflag | exact Hsampler].
Defined.

(** ** Straight lines of per-draw calls *)
Section Run.
Context {F : Type} `{GLfloat F}.

Lemma write_all_snoc (ws : list (string * uniform F)) (k : string) (v : uniform F)
    (sm : ShaderManager F) :
  write_all (ws ++ [(k, v)]) sm = set_uniform k v (write_all ws sm).
Proof. unfold write_all. by rewrite foldl_app. Qed.

Lemma write_all_app (ws1 ws2 : list (string * uniform F)) (sm : ShaderManager F) :
  write_all (ws1 ++ ws2) sm = write_all ws2 (write_all ws1 sm).
Proof. unfold write_all. by rewrite foldl_app. Qed.

Lemma write_all_uniforms (ws : list (string * uniform F)) (sm : ShaderManager F) :
  uniforms (write_all ws sm) = after_writes (uniforms sm) ws.
Proof.
  revert sm. induction ws as [|[k v] ws IH]; intros sm; [done|].
  cbn. unfold write_all in IH. by rewrite IH.
Qed.

Lemma write_all_written (ws : list (string * uniform F)) (sm : ShaderManager F) :
  written (write_all ws sm) = written sm ++ ws.
Proof.
  revert sm. induction ws as [|[k v] ws IH]; intros sm; [by rewrite app_nil_r|].
  cbn. unfold write_all in IH. rewrite IH. cbn. by rewrite <- app_assoc.
Qed.

Lemma after_writes_app (m : gmap string (uniform F)) (ws1 ws2 : list (string * uniform F)) :
  after_writes m (ws1 ++ ws2) = after_writes (after_writes m ws1) ws2.
Proof. unfold after_writes. by rewrite foldl_app. Qed.

(** The state after a list of writes, name by name. *)
Lemma after_writes_lookup (m : gmap string (uniform F)) (ws : list (string * uniform F))
    (name : string) :
  after_writes m ws !! name =
    match last_write name ws with
    | Some v => Some v
    | None => m !! name
    end.
Proof.
  revert m. induction ws as [|[k v] ws IH]; intros m; [done|].
  cbn. change (foldl _ (<[k:=v]> m) ws) with (after_writes (<[k:=v]> m) ws).
  rewrite IH. destruct (last_write name ws); [done|].
  destruct (String.eqb_spec k name) as [->|Hne].
  - apply lookup_insert_eq.
  - by apply lookup_insert_ne.
Qed.

Lemma last_write_None (ws : list (string * uniform F)) (name : string) :
  name ∉ ws.*1 → last_write name ws = None.
Proof.
  induction ws as [|[k v] ws IH]; [done|]. cbn.
  intros [Hne Hrest]%not_elem_of_cons. rewrite IH by done.
  destruct (String.eqb_spec k name); [congruence | done].
Qed.

(** Making the same writes a second time changes no uniform. *)
Lemma after_writes_twice (m : gmap string (uniform F)) (ws : list (string * uniform F)) :
  after_writes (after_writes m ws) ws = after_writes m ws.
Proof.
  apply map_eq. intros name. rewrite !after_writes_lookup.
  by destruct (last_write name ws).
Qed.

(** The writes of a statement depend on the scene manager only. *)
Lemma writes_of_with_shader (sm : ShaderManager F) (w : World F) (c : call F) :
  writes_of (with_shader sm w) c = writes_of w c.
Proof. by destruct c. Qed.

Lemma writes_of_all_with_shader (sm : ShaderManager F) (w : World F) (calls : list (call F)) :
  writes_of_all (with_shader sm w) calls = writes_of_all w calls.
Proof.
  unfold writes_of_all. induction calls as [|c calls IH]; [done|].
  cbn. by rewrite writes_of_with_shader, IH.
Qed.

Lemma draws_of_all_with_shader (sm : ShaderManager F) (w : World F) (calls : list (call F))
    (seen : gmap string (uniform F)) :
  draws_of_all (with_shader sm w) calls seen = draws_of_all w calls seen.
Proof.
  revert seen. induction calls as [|c calls IH]; intros seen; [done|].
  cbn [draws_of_all]. by rewrite IH, writes_of_with_shader.
Qed.

Lemma draws_of_all_app (w : World F) (calls1 calls2 : list (call F))
    (seen : gmap string (uniform F)) :
  draws_of_all w (calls1 ++ calls2) seen =
    draws_of_all w calls1 seen ++
    draws_of_all w calls2 (after_writes seen (writes_of_all w calls1)).
Proof.
  revert seen. induction calls1 as [|c calls1 IH]; intros seen; [done|].
  cbn [app draws_of_all]. rewrite IH, <- app_assoc. do 2 f_equal.
  unfold writes_of_all. cbn [fmap list_fmap concat]. by rewrite after_writes_app.
Qed.

Lemma writes_of_all_app (w : World F) (calls1 calls2 : list (call F)) :
  writes_of_all w (calls1 ++ calls2) = writes_of_all w calls1 ++ writes_of_all w calls2.
Proof. unfold writes_of_all. by rewrite fmap_app, concat_app. Qed.

Lemma drawn_calls_draws_of_all (w : World F) (calls : list (call F))
    (seen : gmap string (uniform F)) :
  drawn_calls (draws_of_all w calls seen) = draws_in calls.
Proof.
  revert seen. induction calls as [|c calls IH]; intros seen; [done|].
  cbn [draws_of_all]. unfold drawn_calls, draws_in in *.
  rewrite omap_app, IH. by destruct c.
Qed.

Lemma run_app (calls1 calls2 : list (call F)) (s : Stage F) :
  run (calls1 ++ calls2) s = (run calls1 s ≫= run calls2).
Proof.
  revert s. induction calls1 as [|c calls1 IH]; intros s; [done|].
  cbn. destruct (exec c s) as [s'|]; cbn; [apply IH | done].
Qed.

(** One statement, with a shader manager attached and the registry in order. *)
Lemma exec_writes (c : call F) (s : Stage F) :
  m_pShaderManager (scene (stage_world s)) = shader_address →
  registry_ok (stage_world s) →
  exec c s =
    Ok (mk_Stage
          (with_shader (write_all (writes_of (stage_world s) c) (shader (stage_world s)))
                       (stage_world s))
          (mesh_events s ++ drawn_by c (uniforms (shader (stage_world s))))).
Proof.
  intros Hptr [Hlen Hn]. destruct s as [w events]. cbn in *.
  destruct c as [sc x y z p|r g b a|t|u v|ind t|d]; cbn.
  - unfold on_world, SetTransformations. cbn. rewrite Hptr. cbn.
    rewrite app_nil_r. by destruct w.
  - unfold on_world, SetShaderColor. cbn. rewrite Hptr. cbn.
    rewrite app_nil_r. by destruct w.
  - unfold on_world, SetShaderTexture. cbn. rewrite Hptr.
    destruct (registered_or_not w t) as [(i & e & Hreg)|Hno]; [lia | |].
    + destruct (FindTexture_registered w t i e) as [-> _]; [lia | done |].
      cbn. by rewrite app_nil_r.
    + destruct (FindTexture_unregistered w t) as [-> _]; [lia | done |].
      cbn. by rewrite app_nil_r.
  - unfold on_world, SetTextureUVScale. cbn. rewrite Hptr. cbn.
    rewrite app_nil_r. by destruct w.
  - unfold on_world, SetShaderMaterial. cbn. rewrite app_nil_r.
    destruct (m_objectMaterials (scene w)) as [|m0 ms] eqn:Hms.
    + cbn. unfold FindMaterial. rewrite Hms. cbn. by destruct w.
    + rewrite decide_True by (cbn; lia).
      destruct (FindMaterial_nonempty t ind w) as (material & ->); [by rewrite Hms|].
      cbn. unfold call_shader. cbn. rewrite Hptr. cbn. rewrite Hptr. cbn. rewrite Hptr.
      done.
  - by destruct w as [sc g [us wr]].
Qed.

(** A straight line of statements, with a shader manager attached and the
    registry in order: it returns, the writes are those of the statements in
    order, and each draw is recorded with the uniform state the writes before
    it have made. *)
Lemma run_writes (calls : list (call F)) (s : Stage F) :
  m_pShaderManager (scene (stage_world s)) = shader_address →
  registry_ok (stage_world s) →
  run calls s =
    Ok (mk_Stage
          (with_shader (write_all (writes_of_all (stage_world s) calls)
                                  (shader (stage_world s)))
                       (stage_world s))
          (mesh_events s ++
           draws_of_all (stage_world s) calls (uniforms (shader (stage_world s))))).
Proof.
  revert s. induction calls as [|c calls IH]; intros s Hptr Hok.
  - destruct s as [[sc g [us wr]] events]. cbn. by rewrite app_nil_r.
  - cbn [run]. rewrite exec_writes by done. cbn [mbind outcome_bind].
    rewrite IH by done. cbn [stage_world mesh_events shader with_shader scene gl].
    rewrite writes_of_all_with_shader, draws_of_all_with_shader.
    rewrite write_all_uniforms, <- app_assoc.
    change (writes_of_all (stage_world s) (c :: calls))
      with (writes_of (stage_world s) c ++ writes_of_all (stage_world s) calls).
    rewrite write_all_app. by destruct s as [[sc g sm] events].
Qed.
End Run.

(** ** What a draw sees *)
Section Seen.
Context {F : Type} `{GLfloat F}.

Lemma last_write_app (name : string) (ws1 ws2 : list (string * uniform F)) :
  last_write name (ws1 ++ ws2) =
    match last_write name ws2 with
    | Some v => Some v
    | None => last_write name ws1
    end.
Proof.
  induction ws1 as [|[k v] ws1 IH]; cbn.
  - by destruct (last_write name ws2).
  - rewrite IH. by destruct (last_write name ws2).
Qed.

Lemma writes_of_names (w : World F) (c : call F) (name : string) :
  name ∈ (writes_of w c).*1 → name ∈ may_write c.
Proof.
  destruct c as [sc x y z p|r g b a|t|u v|ind t|d]; cbn; try done.
  - destruct (FindTextureSlot t w); [done|]. by intros ?%elem_of_nil.
  - destruct (FindMaterial t ind w) as [[[] m]|]; [done | |]; by intros ?%elem_of_nil.
Qed.

Lemma writes_of_all_names (w : World F) (calls : list (call F)) (name : string) :
  name ∉ may_write_all calls → name ∉ (writes_of_all w calls).*1.
Proof.
  unfold may_write_all, writes_of_all.
  induction calls as [|c calls IH]; cbn; [done|].
  rewrite fmap_app. intros Hno [Hin|Hin]%elem_of_app.
  - apply Hno, elem_of_app. left. by apply (writes_of_names w).
  - apply IH; [|done]. intros Hin'. apply Hno, elem_of_app. by right.
Qed.

Lemma length_draws_of_all (w : World F) (calls : list (call F))
    (seen : gmap string (uniform F)) :
  length (draws_of_all w calls seen) = length (draws_in calls).
Proof.
  revert seen. induction calls as [|c calls IH]; intros seen; [done|].
  cbn [draws_of_all]. rewrite length_app, IH. by destruct c.
Qed.

Lemma draws_in_app (calls1 calls2 : list (call F)) :
  draws_in (calls1 ++ calls2) = draws_in calls1 ++ draws_in calls2.
Proof. unfold draws_in. apply omap_app. Qed.

(** The draw that follows the statements [before] sees the uniform state
    they have made. *)
Lemma run_draw_seen (before after : list (call F)) (d : mesh_call) (s : Stage F) :
  m_pShaderManager (scene (stage_world s)) = shader_address →
  registry_ok (stage_world s) →
  ∃ s', run (before ++ CallDraw d :: after) s = Ok s' ∧
        mesh_events s' !! (length (mesh_events s) + length (draws_in before))%nat
          = Some (MeshDrawn d (after_writes (uniforms (shader (stage_world s)))
                                            (writes_of_all (stage_world s) before))).
Proof.
  intros Hptr Hok. rewrite run_writes by done. eexists. split; [reflexivity|].
  cbn [mesh_events]. rewrite draws_of_all_app. cbn [draws_of_all drawn_by].
  rewrite lookup_app_r by lia.
  replace (length (mesh_events s) + length (draws_in before) - length (mesh_events s))%nat
    with (length (draws_in before)) by lia.
  rewrite <- (length_draws_of_all (stage_world s) before
                (uniforms (shader (stage_world s)))).
  rewrite lookup_app_r by lia. by rewrite Nat.sub_diag.
Qed.

(** A draw sees the value a statement wrote when no statement in between
    can write the name. *)
Lemma run_draw_sees_last_write (before between after : list (call F)) (c : call F)
    (d : mesh_call) (name : string) (v : uniform F) (s : Stage F) :
  m_pShaderManager (scene (stage_world s)) = shader_address →
  registry_ok (stage_world s) →
  last_write name (writes_of (stage_world s) c) = Some v →
  name ∉ may_write_all between →
  ∃ s' seen, run (before ++ c :: between ++ CallDraw d :: after) s = Ok s' ∧
             mesh_events s' !! (length (mesh_events s)
                                + length (draws_in (before ++ c :: between)))%nat
               = Some (MeshDrawn d seen) ∧
             seen !! name = Some v.
Proof.
  intros Hptr Hok Hlast Hbetween.
  destruct (run_draw_seen (before ++ c :: between) after d s Hptr Hok)
    as (s' & Hrun & Hev).
  rewrite <- app_assoc in Hrun. cbn [app] in Hrun.
  eexists. eexists. split; [exact Hrun|]. split; [exact Hev|].
  rewrite after_writes_lookup, writes_of_all_app.
  change (writes_of_all (stage_world s) (c :: between))
    with (writes_of (stage_world s) c ++ writes_of_all (stage_world s) between).
  rewrite !last_write_app.
  rewrite (last_write_None (writes_of_all (stage_world s) between))
    by (by apply writes_of_all_names).
  by rewrite Hlast.
Qed.

(** A draw sees the value from before the run when no statement before it
    can write the name. *)
Lemma run_draw_sees_stale (before after : list (call F)) (d : mesh_call) (name : string)
    (s : Stage F) :
  m_pShaderManager (scene (stage_world s)) = shader_address →
  registry_ok (stage_world s) →
  name ∉ may_write_all before →
  ∃ s' seen, run (before ++ CallDraw d :: after) s = Ok s' ∧
             mesh_events s' !! (length (mesh_events s) + length (draws_in before))%nat
               = Some (MeshDrawn d seen) ∧
             seen !! name = uniforms (shader (stage_world s)) !! name.
Proof.
  intros Hptr Hok Hbefore.
  destruct (run_draw_seen before after d s Hptr Hok) as (s' & Hrun & Hev).
  eexists. eexists. split; [exact Hrun|]. split; [exact Hev|].
  rewrite after_writes_lookup.
  by rewrite (last_write_None (writes_of_all (stage_world s) before))
    by (by apply writes_of_all_names).
Qed.

(** Every method the statements call leaves the scene manager and the GL
    context alone. *)
Lemma exec_frame (c : call F) (s s' : Stage F) :
  exec c s = Ok s' →
  scene (stage_world s') = scene (stage_world s) ∧
  gl (stage_world s') = gl (stage_world s) ∧
  ∃ seen, mesh_events s' = mesh_events s ++ drawn_by c seen.
Proof.
  assert (Hsame : ∀ (w : World F) (events : list (mesh_event F)) sm,
            scene (with_shader sm w) = scene w ∧ gl (with_shader sm w) = gl w ∧
            ∃ seen : gmap string (uniform F), events = events ++ [])
    by (intros; split_and!; [done | done | exists ∅; by rewrite app_nil_r]).
  assert (Hsame' : ∀ (w : World F) (events : list (mesh_event F)),
            scene w = scene w ∧ gl w = gl w ∧
            ∃ seen : gmap string (uniform F), events = events ++ [])
    by (intros; split_and!; [done | done | exists ∅; by rewrite app_nil_r]).
  destruct s as [w events].
  destruct c as [sc x y z p|r g b a|t|u v|ind t|d]; cbn; unfold on_world; cbn.
  - unfold SetTransformations. destruct (m_pShaderManager (scene w)); cbn;
      intros [= <-]; cbn; auto.
  - unfold SetShaderColor. destruct (m_pShaderManager (scene w)); cbn;
      intros [= <-]; cbn; auto.
  - unfold SetShaderTexture. destruct (m_pShaderManager (scene w)); cbn.
    + intros [= <-]; cbn; auto.
    + destruct (FindTextureSlot t w); cbn; [|done].
      intros [= <-]; cbn; auto.
  - unfold SetTextureUVScale. destruct (m_pShaderManager (scene w)); cbn;
      intros [= <-]; cbn; auto.
  - unfold SetShaderMaterial. destruct (decide _); cbn.
    + destruct (FindMaterial t ind w) as [[[] m]|]; cbn; [| |done].
      * unfold call_shader. cbn.
        destruct (m_pShaderManager (scene w)) eqn:Hptr; cbn; [done|].
        repeat (rewrite Hptr; cbn). intros [= <-]; cbn; auto.
      * intros [= <-]; cbn; auto.
    + intros [= <-]; cbn; auto.
  - cbn. intros [= <-]. cbn. eauto.
Qed.

Lemma run_frame (calls : list (call F)) (s s' : Stage F) :
  run calls s = Ok s' →
  scene (stage_world s') = scene (stage_world s) ∧
  gl (stage_world s') = gl (stage_world s) ∧
  ∃ new, mesh_events s' = mesh_events s ++ new ∧
         drawn_calls new = draws_in calls ∧ length new = length (draws_in calls).
Proof.
  revert s. induction calls as [|c calls IH]; intros s.
  - intros [= <-]. split_and!; [done | done |]. exists []. by rewrite app_nil_r.
  - cbn [run]. destruct (exec c s) as [s1|] eqn:Hexec; cbn; [|done].
    intros Hrun. destruct (exec_frame c s s1 Hexec) as (Hsc1 & Hgl1 & seen & Hev1).
    destruct (IH s1 Hrun) as (Hsc & Hgl & new & Hev & Hcalls & Hlen).
    split_and!; [congruence | congruence |].
    exists (drawn_by c seen ++ new). rewrite Hev, Hev1, <- app_assoc.
    split_and!; [done | |].
    + unfold drawn_calls in *. rewrite omap_app, Hcalls. by destruct c.
    + rewrite length_app, Hlen. by destruct c.
Qed.

(** With no shader manager the statements write nothing; a call of
    [SetShaderMaterial] is undefined as soon as a material is defined. *)
Lemma exec_null (c : call F) (s : Stage F) :
  m_pShaderManager (scene (stage_world s)) = NULL →
  (m_objectMaterials (scene (stage_world s)) = [] ∨
   ∀ ind t, c ≠ CallSetShaderMaterial ind t) →
  exec c s = Ok (mk_Stage (stage_world s)
                          (mesh_events s ++ drawn_by c (uniforms (shader (stage_world s))))).
Proof.
  intros Hptr Hcase. destruct s as [w events]. cbn in *.
  destruct c as [sc x y z p|r g b a|t|u v|ind t|d]; cbn; unfold on_world; cbn;
    rewrite ?app_nil_r.
  - unfold SetTransformations. by rewrite Hptr.
  - unfold SetShaderColor. by rewrite Hptr.
  - unfold SetShaderTexture. by rewrite Hptr.
  - unfold SetTextureUVScale. by rewrite Hptr.
  - destruct Hcase as [Hnil|Hne]; [|by destruct (Hne ind t)].
    unfold SetShaderMaterial. by rewrite Hnil.
  - done.
Qed.

Lemma run_null_no_material (calls : list (call F)) (s : Stage F) :
  m_pShaderManager (scene (stage_world s)) = NULL →
  m_objectMaterials (scene (stage_world s)) = [] →
  run calls s =
    Ok (mk_Stage (stage_world s)
          (mesh_events s ++
           ((λ d, MeshDrawn d (uniforms (shader (stage_world s)))) <$> draws_in calls))).
Proof.
  revert s. induction calls as [|c calls IH]; intros s Hptr Hnil.
  - destruct s. cbn. by rewrite app_nil_r.
  - cbn [run]. rewrite exec_null by auto. cbn [mbind outcome_bind].
    rewrite IH by done. cbn. rewrite <- app_assoc. by destruct c.
Qed.

Lemma run_null_material (calls : list (call F)) (s : Stage F) :
  m_pShaderManager (scene (stage_world s)) = NULL →
  m_objectMaterials (scene (stage_world s)) ≠ [] →
  sets_material calls →
  run calls s = Undefined NullDereference.
Proof.
  revert s. induction calls as [|c calls IH]; intros s Hptr Hsome (ind & t & Hin).
  - by apply elem_of_nil in Hin.
  - cbn [run].
    assert (Hc : (∃ ind' t', c = CallSetShaderMaterial ind' t') ∨
                 (∀ ind' t', c ≠ CallSetShaderMaterial ind' t'))
      by (destruct c; eauto; by right).
    destruct Hc as [(ind' & t' & ->)|Hno].
    + cbn. unfold on_world.
      by rewrite SetShaderMaterial_null_defined.
    + rewrite exec_null by auto.
      cbn [mbind outcome_bind]. apply IH; [done | done |].
      exists ind, t. apply elem_of_cons in Hin as [Heq|Hin]; [|done].
      exfalso. by apply (Hno ind t).
Qed.

Lemma RenderScene_run (stack : nat → nat → OBJECT_MATERIAL F) (s : Stage F) :
  RenderScene stack s = run (RenderScene_body stack) s.
Proof.
  unfold RenderScene, RenderScene_body, RenderTableTop, RenderMug, RenderOffieDeskItem,
    RenderTrashCan, RenderScrapWood.
  rewrite run_app.
  destruct (run (RenderTableTop_body (stack 0%nat)) s) as [s1|];
    cbn [mbind outcome_bind]; [|done].
  rewrite run_app.
  destruct (run (RenderMug_body (stack 1%nat)) s1) as [s2|];
    cbn [mbind outcome_bind]; [|done].
  rewrite run_app.
  destruct (run (RenderOffieDeskItem_body (stack 2%nat)) s2) as [s3|];
    cbn [mbind outcome_bind]; [|done].
  rewrite run_app.
  by destruct (run (RenderTrashCan_body (stack 3%nat)) s3) as [s4|].
Qed.
End Seen.

(** ** A frame of the scene *)
Section Frame.
Context {F : Type} `{GLfloat F}.

Lemma FindTextureSlot_returns (t : string) (w : World F) :
  registry_ok w → ∃ slot, FindTextureSlot t w = Ok slot.
Proof.
  intros [Hlen Hn].
  destruct (registered_or_not w t) as [(i & e & Hreg)|Hno]; [lia| |].
  - destruct (FindTexture_registered w t i e ltac:(lia) Hreg) as [-> _]. eauto.
  - destruct (FindTexture_unregistered w t ltac:(lia) Hno) as [-> _]. eauto.
Qed.

Lemma FindMaterial_missing (t : string) (material : OBJECT_MATERIAL F) (w : World F) :
  m_objectMaterials (scene w) ≠ [] →
  no_material (m_objectMaterials (scene w)) t →
  FindMaterial t material w = Ok (true, material).
Proof.
  intros Hsome Hno. unfold FindMaterial.
  rewrite decide_False by (destruct (m_objectMaterials (scene w)); [done | cbn; lia]).
  by rewrite FindMaterial_loop_missing by (done || lia).
Qed.

Lemma events_since_lookup (s s' : Stage F) (new : list (mesh_event F)) (i : nat) :
  mesh_events s' = mesh_events s ++ new →
  events_since s s' !! i = new !! i.
Proof.
  intros Hev. unfold events_since. rewrite Hev, drop_app_length. done.
Qed.

(** The draw at position [j] of the statements sees the uniform state the
    statements before it have made. *)
Lemma draw_seen (calls : list (call F)) (j : nat) (d : mesh_call) (s s' : Stage F) :
  m_pShaderManager (scene (stage_world s)) = shader_address →
  registry_ok (stage_world s) →
  run calls s = Ok s' →
  calls !! j = Some (CallDraw d) →
  events_since s s' !! length (draws_in (take j calls)) =
    Some (MeshDrawn d (after_writes (uniforms (shader (stage_world s)))
                                    (writes_of_all (stage_world s) (take j calls)))).
Proof.
  intros Hptr Hok Hrun Hj.
  pose proof (take_drop_middle calls j _ Hj) as Hsplit.
  destruct (run_draw_seen (take j calls) (drop (S j) calls) d s Hptr Hok)
    as (s'' & Hrun' & Hev).
  rewrite Hsplit, Hrun in Hrun'. injection Hrun' as <-.
  unfold events_since. by rewrite lookup_drop.
Qed.

(** It sees the value the statement at position [k] wrote when no statement
    in between can write the name. *)
Lemma draw_sees_write (calls : list (call F)) (k j : nat) (c : call F) (d : mesh_call)
    (name : string) (v : uniform F) (s s' : Stage F) :
  m_pShaderManager (scene (stage_world s)) = shader_address →
  registry_ok (stage_world s) →
  run calls s = Ok s' →
  calls !! k = Some c → calls !! j = Some (CallDraw d) → (k < j)%nat →
  name ∉ may_write_all (drop (S k) (take j calls)) →
  last_write name (writes_of (stage_world s) c) = Some v →
  ∃ seen, events_since s s' !! length (draws_in (take j calls)) = Some (MeshDrawn d seen) ∧
          seen !! name = Some v.
Proof.
  intros Hptr Hok Hrun Hk Hj Hkj Hbetween Hlast.
  eexists. split; [by apply draw_seen|].
  assert (Hk' : take j calls !! k = Some c) by (by rewrite lookup_take_lt).
  rewrite <- (take_drop_middle (take j calls) k c Hk') at 1.
  rewrite after_writes_lookup, writes_of_all_app.
  change (writes_of_all (stage_world s) (c :: drop (S k) (take j calls)))
    with (writes_of (stage_world s) c
            ++ writes_of_all (stage_world s) (drop (S k) (take j calls))).
  rewrite !last_write_app.
  rewrite (last_write_None (writes_of_all (stage_world s) (drop (S k) (take j calls))))
    by (by apply writes_of_all_names).
  by rewrite Hlast.
Qed.

(** It sees the value from before the run when no statement before it can
    write the name. *)
Lemma draw_sees_stale (calls : list (call F)) (j : nat) (d : mesh_call) (name : string)
    (s s' : Stage F) :
  m_pShaderManager (scene (stage_world s)) = shader_address →
  registry_ok (stage_world s) →
  run calls s = Ok s' →
  calls !! j = Some (CallDraw d) →
  name ∉ may_write_all (take j calls) →
  ∃ seen, events_since s s' !! length (draws_in (take j calls)) = Some (MeshDrawn d seen) ∧
          seen !! name = uniforms (shader (stage_world s)) !! name.
Proof.
  intros Hptr Hok Hrun Hj Hbefore.
  eexists. split; [by apply draw_seen|].
  rewrite after_writes_lookup.
  by rewrite (last_write_None (writes_of_all (stage_world s) (take j calls)))
    by (by apply writes_of_all_names).
Qed.

(** After the run a name holds what the statement at position [k] wrote when
    no later statement can write it. *)
Lemma run_leaves_write (calls : list (call F)) (k : nat) (c : call F) (name : string)
    (v : uniform F) (s s' : Stage F) :
  m_pShaderManager (scene (stage_world s)) = shader_address →
  registry_ok (stage_world s) →
  run calls s = Ok s' →
  calls !! k = Some c →
  name ∉ may_write_all (drop (S k) calls) →
  last_write name (writes_of (stage_world s) c) = Some v →
  uniforms (shader (stage_world s')) !! name = Some v.
Proof.
  intros Hptr Hok Hrun Hk Hafter Hlast.
  rewrite run_writes in Hrun by done. injection Hrun as <-.
  cbn [stage_world shader]. destruct (stage_world s) as [sc g sm] eqn:Hw.
  cbn [with_shader shader]. rewrite write_all_uniforms, after_writes_lookup.
  rewrite <- (take_drop_middle calls k c Hk) at 1.
  rewrite writes_of_all_app.
  change (writes_of_all (mk_World sc g sm) (c :: drop (S k) calls))
    with (writes_of (mk_World sc g sm) c ++ writes_of_all (mk_World sc g sm) (drop (S k) calls)).
  rewrite !last_write_app.
  rewrite (last_write_None (writes_of_all (mk_World sc g sm) (drop (S k) calls)))
    by (by apply writes_of_all_names).
  by rewrite Hlast.
Qed.

Lemma RenderScene_returns (stack : nat → nat → OBJECT_MATERIAL F) (s : Stage F) :
  m_pShaderManager (scene (stage_world s)) = shader_address →
  registry_ok (stage_world s) →
  ∃ s', RenderScene stack s = Ok s' ∧ run (RenderScene_body stack) s = Ok s' ∧
        scene (stage_world s') = scene (stage_world s) ∧
        gl (stage_world s') = gl (stage_world s).
Proof.
  intros Hptr Hok. rewrite RenderScene_run, run_writes by done.
  eexists. split_and!; [done | done | |]; by destruct (stage_world s).
Qed.

Ltac not_written := apply (bool_decide_unpack _); vm_compute; exact I.

(** X17.  [RenderScene] only writes uniforms and draws.  Whenever it
    returns, in any state, the scene manager (registry, materials, pointer)
    and the GL context are as before, and the mesh library has received nine
    draws in this order: box, cylinder side, cylinder bottom, torus, box
    front, box, half sphere, cylinder side, box. *)
Theorem RenderScene_nine_draws (stack : nat → nat → OBJECT_MATERIAL F) (s s' : Stage F) :
  RenderScene stack s = Ok s' →
  scene (stage_world s') = scene (stage_world s) ∧
  gl (stage_world s') = gl (stage_world s) ∧
  mesh_events s' = mesh_events s ++ events_since s s' ∧
  drawn_calls (events_since s s') =
    [ DrawBoxMesh; DrawCylinderMesh false false true; DrawCylinderMesh false true false;
      DrawTorusMesh; DrawBoxMeshSide front; DrawBoxMesh; DrawHalfSphereMesh;
      DrawCylinderMesh false false true; DrawBoxMesh ].
Proof.
  rewrite RenderScene_run. intros Hrun.
  destruct (run_frame _ _ _ Hrun) as (Hscene & Hgl & new & Hev & Hcalls & _).
  unfold events_since. rewrite Hev, drop_app_length.
  split_and!; [done | done | done |]. by rewrite Hcalls.
Qed.

(** X18.  With no shader manager, [RenderScene] depends on the materials:
    while none is defined it returns and draws the nine meshes with the
    uniform state untouched; once any material is defined it dereferences the
    null pointer. *)
Theorem RenderScene_null_pointer (stack : nat → nat → OBJECT_MATERIAL F) (s : Stage F) :
  m_pShaderManager (scene (stage_world s)) = NULL →
  (m_objectMaterials (scene (stage_world s)) = [] →
   ∃ s', RenderScene stack s = Ok s' ∧
         stage_world s' = stage_world s ∧
         events_since s s' =
           (λ d, MeshDrawn d (uniforms (shader (stage_world s))))
             <$> RenderScene_draws.*1.*1) ∧
  (m_objectMaterials (scene (stage_world s)) ≠ [] →
   RenderScene stack s = Undefined NullDereference).
Proof.
  intros Hptr. rewrite RenderScene_run. split.
  - intros Hnil. rewrite run_null_no_material by done.
    eexists. split_and!; [done | done |].
    unfold events_since. cbn [mesh_events]. by rewrite drop_app_length.
  - intros Hsome. apply run_null_material; [done | done |].
    exists (stack 0 0)%nat, "wood".
    apply list_elem_of_further, list_elem_of_further, list_elem_of_here.
Qed.

(** Every draw of the frame samples the slot of the tag selected for it. *)
Lemma RenderScene_samplers (stack : nat → nat → OBJECT_MATERIAL F) (s s' : Stage F) :
  m_pShaderManager (scene (stage_world s)) = shader_address →
  registry_ok (stage_world s) →
  run (RenderScene_body stack) s = Ok s' →
  ∀ i d texture material,
    RenderScene_draws !! i = Some (d, texture, material) →
    ∃ seen slot,
      events_since s s' !! i = Some (MeshDrawn d seen) ∧
      FindTextureSlot texture (stage_world s) = Ok slot ∧
      seen !! g_UseTextureName = Some (UInt 1) ∧
      seen !! g_TextureValueName = Some (USampler2D slot).
Proof.
  intros Hptr Hok Hrun.
  assert (Hdraw : ∀ k j texture d,
            RenderScene_body stack !! k = Some (CallSetShaderTexture texture) →
            RenderScene_body stack !! j = Some (CallDraw d) → (k < j)%nat →
            g_UseTextureName ∉ may_write_all (drop (S k) (take j (RenderScene_body stack))) →
            g_TextureValueName ∉ may_write_all (drop (S k) (take j (RenderScene_body stack))) →
            ∃ seen slot,
              events_since s s' !! length (draws_in (take j (RenderScene_body stack)))
                = Some (MeshDrawn d seen) ∧
              FindTextureSlot texture (stage_world s) = Ok slot ∧
              seen !! g_UseTextureName = Some (UInt 1) ∧
              seen !! g_TextureValueName = Some (USampler2D slot)).
  { intros k j texture d Hk Hj Hkj Hno1 Hno2.
    destruct (FindTextureSlot_returns texture (stage_world s) Hok) as (slot & Hslot).
    destruct (draw_sees_write _ k j _ d g_UseTextureName (UInt 1) s s'
                Hptr Hok Hrun Hk Hj Hkj Hno1) as (seen & Hev & Hseen1).
    { cbn [writes_of]. by rewrite Hslot. }
    destruct (draw_sees_write _ k j _ d g_TextureValueName (USampler2D slot) s s'
                Hptr Hok Hrun Hk Hj Hkj Hno2) as (seen' & Hev' & Hseen2).
    { cbn [writes_of]. by rewrite Hslot. }
    rewrite Hev in Hev'. injection Hev' as <-. by exists seen, slot. }
  intros i d texture material Hi.
  do 9 (destruct i as [|i];
        [injection Hi as <- <- <-;
         first [ apply (Hdraw 1%nat 3%nat) | apply (Hdraw 5%nat 8%nat)
               | apply (Hdraw 9%nat 12%nat) | apply (Hdraw 14%nat 16%nat)
               | apply (Hdraw 18%nat 21%nat) | apply (Hdraw 22%nat 25%nat)
               | apply (Hdraw 27%nat 30%nat) | apply (Hdraw 32%nat 35%nat)
               | apply (Hdraw 37%nat 40%nat) ];
         [reflexivity | reflexivity | lia | not_written | not_written]|]).
  done.
Qed.

(** X19.  With a shader manager attached and the registry invariant,
    [RenderScene] returns, and every one of its nine draws is made with
    texturing switched on and the sampler set to whatever [FindTextureSlot]
    gives for the tag selected for that draw: the slot of the texture, or -1
    when no texture with the tag is registered.  No draw falls back to a
    colour. *)
Theorem RenderScene_draws_textured (stack : nat → nat → OBJECT_MATERIAL F) (s : Stage F) :
  m_pShaderManager (scene (stage_world s)) = shader_address →
  registry_ok (stage_world s) →
  ∃ s', RenderScene stack s = Ok s' ∧
        length (events_since s s') = 9%nat ∧
        ∀ i d texture material,
          RenderScene_draws !! i = Some (d, texture, material) →
          ∃ seen slot,
            events_since s s' !! i = Some (MeshDrawn d seen) ∧
            FindTextureSlot texture (stage_world s) = Ok slot ∧
            seen !! g_UseTextureName = Some (UInt 1) ∧
            seen !! g_TextureValueName = Some (USampler2D slot).
Proof.
  intros Hptr Hok.
  destruct (RenderScene_returns stack s Hptr Hok) as (s' & Hframe & Hrun & _ & _).
  exists s'. split; [done|]. split; [|by apply (RenderScene_samplers stack)].
  destruct (run_frame _ _ _ Hrun) as (_ & _ & new & Hev & _ & Hlen).
  unfold events_since. by rewrite Hev, drop_app_length, Hlen.
Qed.
End Frame.

(** ** The materials and the texture scale of a frame *)
Section FrameMaterials.
Context {F : Type} `{GLfloat F}.

Ltac not_written := apply (bool_decide_unpack _); vm_compute; exact I.

(** The writes of a frame do not depend on the uninitialised locals once
    both materials are found. *)
Lemma RenderScene_body_stack (stack1 stack2 : nat → nat → OBJECT_MATERIAL F) (w : World F)
    (iw ip : nat) (wood plastic : OBJECT_MATERIAL F) :
  first_material_at (m_objectMaterials (scene w)) "wood" iw wood →
  first_material_at (m_objectMaterials (scene w)) "plastic" ip plastic →
  writes_of_all w (RenderScene_body stack1) = writes_of_all w (RenderScene_body stack2) ∧
  ∀ seen, draws_of_all w (RenderScene_body stack1) seen
            = draws_of_all w (RenderScene_body stack2) seen.
Proof.
  intros Hwood Hplastic.
  assert (Hw : ∀ material, FindMaterial "wood" material w
                             = Ok (true, copied_into material wood))
    by (intros; by apply (FindMaterial_found "wood" _ w iw)).
  assert (Hp : ∀ material, FindMaterial "plastic" material w
                             = Ok (true, copied_into material plastic))
    by (intros; by apply (FindMaterial_found "plastic" _ w ip)).
  split; [|intros seen];
    cbn [writes_of_all draws_of_all RenderScene_body RenderTableTop_body RenderMug_body
         RenderOffieDeskItem_body RenderTrashCan_body RenderScrapWood_body
         app fmap list_fmap concat writes_of drawn_by];
    rewrite !Hw, !Hp; reflexivity.
Qed.

(** Every draw of the frame is made with the first material of its tag. *)
Lemma RenderScene_materials (stack : nat → nat → OBJECT_MATERIAL F) (s s' : Stage F)
    (iw ip : nat) (wood plastic : OBJECT_MATERIAL F) :
  m_pShaderManager (scene (stage_world s)) = shader_address →
  registry_ok (stage_world s) →
  first_material_at (m_objectMaterials (scene (stage_world s))) "wood" iw wood →
  first_material_at (m_objectMaterials (scene (stage_world s))) "plastic" ip plastic →
  run (RenderScene_body stack) s = Ok s' →
  ∀ i d texture material,
    RenderScene_draws !! i = Some (d, texture, material) →
    ∃ seen m,
      events_since s s' !! i = Some (MeshDrawn d seen) ∧
      (material = "wood" ∧ m = wood ∨ material = "plastic" ∧ m = plastic) ∧
      seen !! "material.diffuseColor" = Some (UVec3 (diffuseColor m)) ∧
      seen !! "material.specularColor" = Some (UVec3 (specularColor m)) ∧
      seen !! "material.shininess" = Some (UFloat (shininess m)).
Proof.
  intros Hptr Hok Hwood Hplastic Hrun.
  assert (Hdraw : ∀ k j ind material d,
            material = "wood" ∨ material = "plastic" →
            RenderScene_body stack !! k = Some (CallSetShaderMaterial ind material) →
            RenderScene_body stack !! j = Some (CallDraw d) → (k < j)%nat →
            drop (S k) (take j (RenderScene_body stack)) = [] →
            ∃ seen m,
              events_since s s' !! length (draws_in (take j (RenderScene_body stack)))
                = Some (MeshDrawn d seen) ∧
              (material = "wood" ∧ m = wood ∨ material = "plastic" ∧ m = plastic) ∧
              seen !! "material.diffuseColor" = Some (UVec3 (diffuseColor m)) ∧
              seen !! "material.specularColor" = Some (UVec3 (specularColor m)) ∧
              seen !! "material.shininess" = Some (UFloat (shininess m))).
  { intros k j ind material d Hmaterial Hk Hj Hkj Hnil.
    assert (∃ i m, first_material_at (m_objectMaterials (scene (stage_world s))) material i m
                   ∧ (material = "wood" ∧ m = wood ∨ material = "plastic" ∧ m = plastic))
      as (i & m & Hfirst & Hwhich)
      by (destruct Hmaterial as [-> | ->]; [exists iw, wood | exists ip, plastic]; auto).
    assert (Hno : ∀ name, name ∉ may_write_all (drop (S k) (take j (RenderScene_body stack))))
      by (intros name; rewrite Hnil; apply not_elem_of_nil).
    assert (Hwrites : writes_of (stage_world s) (CallSetShaderMaterial ind material) =
                        [("material.diffuseColor", UVec3 (diffuseColor m));
                         ("material.specularColor", UVec3 (specularColor m));
                         ("material.shininess", UFloat (shininess m))]).
    { cbn [writes_of]. by rewrite (FindMaterial_found material ind _ i m Hfirst). }
    destruct (draw_sees_write _ k j _ d "material.diffuseColor" (UVec3 (diffuseColor m)) s s'
                Hptr Hok Hrun Hk Hj Hkj (Hno _)) as (seen & Hev & Hseen1);
      [by rewrite Hwrites|].
    destruct (draw_sees_write _ k j _ d "material.specularColor" (UVec3 (specularColor m))
                s s' Hptr Hok Hrun Hk Hj Hkj (Hno _)) as (seen2 & Hev2 & Hseen2);
      [by rewrite Hwrites|].
    destruct (draw_sees_write _ k j _ d "material.shininess" (UFloat (shininess m))
                s s' Hptr Hok Hrun Hk Hj Hkj (Hno _)) as (seen3 & Hev3 & Hseen3);
      [by rewrite Hwrites|].
    rewrite Hev in Hev2, Hev3. injection Hev2 as <-. injection Hev3 as <-.
    by exists seen, m. }
  intros i d texture material Hi.
  do 9 (destruct i as [|i];
        [injection Hi as <- <- <-;
         first [ eapply (Hdraw 2%nat 3%nat) | eapply (Hdraw 7%nat 8%nat)
               | eapply (Hdraw 11%nat 12%nat) | eapply (Hdraw 15%nat 16%nat)
               | eapply (Hdraw 20%nat 21%nat) | eapply (Hdraw 24%nat 25%nat)
               | eapply (Hdraw 29%nat 30%nat) | eapply (Hdraw 34%nat 35%nat)
               | eapply (Hdraw 39%nat 40%nat) ];
         [auto | reflexivity | reflexivity | lia | reflexivity]|]).
  done.
Qed.

(** X20.  With a shader manager attached, the registry invariant, and
    "wood" and "plastic" both defined, every draw of [RenderScene] is made
    with the three material uniforms holding the values of the first
    material that carries the tag selected for the draw. *)
Theorem RenderScene_draws_material (stack : nat → nat → OBJECT_MATERIAL F) (s : Stage F)
    (iw ip : nat) (wood plastic : OBJECT_MATERIAL F) :
  m_pShaderManager (scene (stage_world s)) = shader_address →
  registry_ok (stage_world s) →
  first_material_at (m_objectMaterials (scene (stage_world s))) "wood" iw wood →
  first_material_at (m_objectMaterials (scene (stage_world s))) "plastic" ip plastic →
  ∃ s', RenderScene stack s = Ok s' ∧
        ∀ i d texture material,
          RenderScene_draws !! i = Some (d, texture, material) →
          ∃ seen m,
            events_since s s' !! i = Some (MeshDrawn d seen) ∧
            (material = "wood" ∧ m = wood ∨ material = "plastic" ∧ m = plastic) ∧
            seen !! "material.diffuseColor" = Some (UVec3 (diffuseColor m)) ∧
            seen !! "material.specularColor" = Some (UVec3 (specularColor m)) ∧
            seen !! "material.shininess" = Some (UFloat (shininess m)).
Proof.
  intros Hptr Hok Hwood Hplastic.
  destruct (RenderScene_returns stack s Hptr Hok) as (s' & Hframe & Hrun & _ & _).
  exists s'. split; [done|].
  by apply (RenderScene_materials stack s s' iw ip).
Qed.

(** X21.  Under the same conditions the frame does not depend on what the
    uninitialised locals of [SetShaderMaterial] hold: two runs that differ
    only in them give the same state and the same draws. *)
Theorem RenderScene_ignores_locals (stack1 stack2 : nat → nat → OBJECT_MATERIAL F)
    (s : Stage F) (iw ip : nat) (wood plastic : OBJECT_MATERIAL F) :
  m_pShaderManager (scene (stage_world s)) = shader_address →
  registry_ok (stage_world s) →
  first_material_at (m_objectMaterials (scene (stage_world s))) "wood" iw wood →
  first_material_at (m_objectMaterials (scene (stage_world s))) "plastic" ip plastic →
  ∃ s', RenderScene stack1 s = Ok s' ∧ RenderScene stack2 s = Ok s'.
Proof.
  intros Hptr Hok Hwood Hplastic.
  destruct (RenderScene_body_stack stack1 stack2 (stage_world s) iw ip wood plastic)
    as [Hwrites Hdraws]; [done | done |].
  rewrite !RenderScene_run, !run_writes by done.
  rewrite Hwrites, Hdraws. eauto.
Qed.


(** X23.  [RenderTableTop] never sets the texture scale and the handle of
    the mug inherits the one of the mug's bottom.  In a frame the table top
    is drawn with the UV scale the shader held before the frame, the torus
    with (0.5, 0.5), and the frame leaves (1, 1) behind. *)
Theorem RenderScene_texture_scale (stack : nat → nat → OBJECT_MATERIAL F) (s : Stage F) :
  m_pShaderManager (scene (stage_world s)) = shader_address →
  registry_ok (stage_world s) →
  ∃ s' table torus,
    RenderScene stack s = Ok s' ∧
    events_since s s' !! 0%nat = Some (MeshDrawn DrawBoxMesh table) ∧
    table !! "UVscale" = uniforms (shader (stage_world s)) !! "UVscale" ∧
    events_since s s' !! 3%nat = Some (MeshDrawn DrawTorusMesh torus) ∧
    torus !! "UVscale" = Some (UVec2 (mk_vec2 (fliteral 0.5) (fliteral 0.5))) ∧
    uniforms (shader (stage_world s')) !! "UVscale"
      = Some (UVec2 (mk_vec2 (fliteral 1.0) (fliteral 1.0))).
Proof.
  intros Hptr Hok.
  destruct (RenderScene_returns stack s Hptr Hok) as (s' & Hframe & Hrun & _ & _).
  destruct (draw_sees_stale _ 3 DrawBoxMesh "UVscale" s s' Hptr Hok Hrun eq_refl)
    as (table & Htable & Hscale0); [not_written|].
  destruct (draw_sees_write _ 10 16 _ DrawTorusMesh "UVscale"
              (UVec2 (mk_vec2 (fliteral 0.5) (fliteral 0.5))) s s' Hptr Hok Hrun
              eq_refl eq_refl ltac:(lia)) as (torus & Htorus & Hscale3);
    [not_written | reflexivity |].
  exists s', table, torus. split_and!; [done | done | done | done | done |].
  apply (run_leaves_write _ 38 _ "UVscale" _ s s' Hptr Hok Hrun eq_refl);
    [not_written | reflexivity].
Qed.

(** X24.  Frames are steady.  With both materials defined, a second frame
    leaves every uniform as the first frame left it, whatever the
    uninitialised locals hold in either. *)
Theorem RenderScene_steady (stack1 stack2 : nat → nat → OBJECT_MATERIAL F) (s : Stage F)
    (iw ip : nat) (wood plastic : OBJECT_MATERIAL F) :
  m_pShaderManager (scene (stage_world s)) = shader_address →
  registry_ok (stage_world s) →
  first_material_at (m_objectMaterials (scene (stage_world s))) "wood" iw wood →
  first_material_at (m_objectMaterials (scene (stage_world s))) "plastic" ip plastic →
  ∃ s1 s2, RenderScene stack1 s = Ok s1 ∧ RenderScene stack2 s1 = Ok s2 ∧
           uniforms (shader (stage_world s2)) = uniforms (shader (stage_world s1)) ∧
           length (events_since s s2) = 18%nat.
Proof.
  intros Hptr Hok Hwood Hplastic.
  destruct (RenderScene_body_stack stack1 stack2 (stage_world s) iw ip wood plastic)
    as [Hwrites _]; [done | done |].
  destruct s as [[sc g sm] events]. cbn [stage_world scene] in *.
  rewrite RenderScene_run, run_writes by done. cbn [stage_world mesh_events shader with_shader].
  eexists. eexists. split; [reflexivity|].
  rewrite RenderScene_run, run_writes by done.
  split; [reflexivity|]. cbn [stage_world mesh_events shader with_shader].
  change (mk_World sc g (write_all (writes_of_all (mk_World sc g sm) (RenderScene_body stack1)) sm))
    with (with_shader (write_all (writes_of_all (mk_World sc g sm) (RenderScene_body stack1)) sm)
            (mk_World sc g sm)).
  rewrite writes_of_all_with_shader, <- Hwrites, !write_all_uniforms.
  split; [apply after_writes_twice|].
  unfold events_since. cbn [mesh_events]. rewrite <- app_assoc, drop_app_length.
  by rewrite length_app, !length_draws_of_all.
Qed.
End FrameMaterials.

(** ** The lights and the preparation of the scene *)
Section Prepare.
Context {F : Type} `{GLfloat F}.
Variable stbi_load : string → option stb_image.

Lemma outcome_bind_Ok {A B : Type} (x : A) (k : A → outcome B) : (Ok x ≫= k) = k x.
Proof. reflexivity. Qed.

Lemma write_all_nil (sm : ShaderManager F) : sm = write_all [] sm.
Proof. done. Qed.

Lemma write_all_step (ws : list (string * uniform F)) (sm sm' : ShaderManager F)
    (k : string) (v : uniform F) :
  sm' = write_all ws sm → set_uniform k v sm' = write_all (ws ++ [(k, v)]) sm.
Proof. intros ->. by rewrite write_all_snoc. Qed.

(** The writes of [SetupSceneLights] are the same fifty in every state. *)
Lemma SetupSceneLights_writes_all :
  ∃ ws : list (string * uniform F),
    (∀ w, m_pShaderManager (scene w) = shader_address →
          SetupSceneLights w = Ok (with_shader (write_all ws (shader w)) w)) ∧
    length ws = 50%nat ∧
    last_write g_UseLightingName ws = Some (UBool true).
Proof.
  eexists. split.
  - intros [[p ids n ms] g sm]. cbn [scene m_pShaderManager]. intros ->.
    unfold SetupSceneLights, call_shader.
    cbn [mbind outcome_bind with_shader scene shader gl m_pShaderManager].
    unfold setBoolValue, setVec3Value, setFloatValue.
    set (sm' := set_uniform "pointLights[3].bActive" _ _).
    enough (Hsm : sm' = write_all _ sm) by (rewrite Hsm; reflexivity).
    subst sm'. repeat apply write_all_step. apply write_all_nil.
  - split; reflexivity.
Qed.

(** X25.  [SetupSceneLights] sets every uniform it touches to a value fixed
    by the code.  From any two states with a shader manager attached it
    returns, and each uniform either is set and holds the same value in both
    results, or is left as it was in both; running it a second time changes
    no uniform. *)
Theorem SetupSceneLights_fixed_values (w w' : World F) :
  m_pShaderManager (scene w) = shader_address →
  m_pShaderManager (scene w') = shader_address →
  ∃ w1 w1' w2,
    SetupSceneLights w = Ok w1 ∧ SetupSceneLights w' = Ok w1' ∧
    SetupSceneLights w1 = Ok w2 ∧
    (∀ name,
       (is_Some (uniforms (shader w1) !! name) ∧
        uniforms (shader w1) !! name = uniforms (shader w1') !! name) ∨
       (uniforms (shader w1) !! name = uniforms (shader w) !! name ∧
        uniforms (shader w1') !! name = uniforms (shader w') !! name)) ∧
    uniforms (shader w2) = uniforms (shader w1) ∧
    length (written (shader w2)) = (length (written (shader w)) + 100)%nat.
Proof.
  intros Hptr Hptr'.
  destruct SetupSceneLights_writes_all as (ws & Hrun & Hlen & _).
  pose proof (Hrun (with_shader (write_all ws (shader w)) w)) as Hagain.
  rewrite (Hrun w Hptr), (Hrun w' Hptr').
  eexists. eexists. eexists.
  split_and!; [done | done | apply Hagain; by destruct w | | |].
  - intros name. destruct w as [sc g sm], w' as [sc' g' sm'].
    cbn [with_shader shader]. rewrite !write_all_uniforms, !after_writes_lookup.
    destruct (last_write name ws); [left | right]; eauto.
  - destruct w as [sc g sm]. cbn [with_shader shader].
    rewrite !write_all_uniforms. apply after_writes_twice.
  - destruct w as [sc g sm]. cbn [with_shader shader].
    rewrite !write_all_written, !length_app, Hlen. lia.
Qed.

Lemma BindGLTextures_state (w : World F) :
  (m_loadedTextures (scene w) ≤ length (m_textureIDs (scene w)))%nat →
  ∃ g', BindGLTextures w = Ok (with_gl g' w) ∧
        ∀ i, (i < m_loadedTextures (scene w))%nat →
             gl_bound_2D g' !! i = ID <$> m_textureIDs (scene w) !! i.
Proof.
  intros Hn. unfold BindGLTextures.
  destruct (BindGLTextures_loop_binds (m_loadedTextures (scene w)) 0
              (m_textureIDs (scene w)) (gl w)) as (g' & -> & _ & Hfrom); [lia|].
  cbn. exists g'. split; [done|]. intros i Hi. apply Hfrom. lia.
Qed.

(** [PrepareScene] up to the loading of the textures: the materials are
    appended and the lights written. *)
Lemma PrepareScene_unfold (s : Stage F) :
  m_pShaderManager (scene (stage_world s)) = shader_address →
  ∃ w2 ws wood plastic,
    m_objectMaterials (scene w2)
      = m_objectMaterials (scene (stage_world s)) ++ [wood; plastic] ∧
    material_tag wood = "wood" ∧ material_tag plastic = "plastic" ∧
    m_textureIDs (scene w2) = m_textureIDs (scene (stage_world s)) ∧
    m_loadedTextures (scene w2) = m_loadedTextures (scene (stage_world s)) ∧
    m_pShaderManager (scene w2) = shader_address ∧
    gl w2 = gl (stage_world s) ∧
    shader w2 = write_all ws (shader (stage_world s)) ∧
    last_write g_UseLightingName ws = Some (UBool true) ∧
    PrepareScene stbi_load s =
      (wc ← CreateGLTextures stbi_load scene_textures w2;
       w3 ← BindGLTextures wc;
       Ok (mk_Stage w3 (mesh_events s ++ PrepareScene_loads))).
Proof.
  destruct s as [[[p ids n ms] g sm] events]. cbn [stage_world scene m_pShaderManager].
  intros ->.
  destruct SetupSceneLights_writes_all as (ws & Hrun & _ & Hlast).
  set (wood := mk_OBJECT_MATERIAL (lit3 0.3 0.2 0.1) (lit3 0.1 0.1 0.1) (fliteral 0.3) "wood").
  set (plastic := mk_OBJECT_MATERIAL (lit3 0.3 0.3 0.4) (lit3 0.05 0.05 0.05)
                                     (fliteral 0.02) "plastic").
  set (w1 := mk_World (mk_SceneManager shader_address ids n (ms ++ [wood; plastic])) g sm).
  set (w2 := mk_World (mk_SceneManager shader_address ids n (ms ++ [wood; plastic])) g
                      (write_all ws sm)).
  set (s0 := mk_Stage (mk_World (mk_SceneManager shader_address ids n ms) g sm) events).
  assert (Hdefine : on_world DefineObjectMaterials s0 = Ok (mk_Stage w1 events)).
  { unfold on_world, DefineObjectMaterials. subst s0 w1 wood plastic. cbn.
    by rewrite <- app_assoc. }
  assert (Hlights : on_world SetupSceneLights (mk_Stage w1 events)
                    = Ok (mk_Stage w2 events)).
  { unfold on_world. cbn [stage_world mesh_events]. by rewrite (Hrun w1 eq_refl). }
  exists w2, ws, wood, plastic.
  do 9 (split; [first [reflexivity | exact Hlast]|]).
  unfold PrepareScene. rewrite Hdefine, outcome_bind_Ok, Hlights, outcome_bind_Ok.
  unfold on_world, LoadSceneTextures, LoadSceneTextures_of.
  cbn [stage_world mesh_events].
  destruct (CreateGLTextures stbi_load scene_textures w2) as [wc|]; [|done].
  cbn [mbind outcome_bind].
  destruct (BindGLTextures wc) as [w3|]; [|done].
  unfold load_mesh. cbn [mbind outcome_bind stage_world mesh_events].
  by rewrite <- !app_assoc.
Qed.

(** X26.  [PrepareScene] needs the shader manager: [SetupSceneLights]
    dereferences the pointer without the test the per-draw setters make, so
    with a null pointer the call is undefined, in every state and for every
    texture directory. *)
Theorem PrepareScene_null_pointer (s : Stage F) :
  m_pShaderManager (scene (stage_world s)) = NULL →
  PrepareScene stbi_load s = Undefined NullDereference.
Proof.
  destruct s as [[[p ids n ms] g sm] events]. cbn [stage_world scene m_pShaderManager].
  intros ->. reflexivity.
Qed.

(** X27.  With a shader manager attached, the registry invariant and six
    free cells, [PrepareScene] returns for every texture directory: "wood"
    and "plastic" are appended to the materials, lighting is switched on,
    between none and six textures are registered and each loaded cell's
    texture is bound on the unit of its index, the five meshes are loaded in
    the order plane, cylinder, torus, box, sphere, and the invariant holds
    afterwards. *)
Theorem PrepareScene_returns (s : Stage F) :
  m_pShaderManager (scene (stage_world s)) = shader_address →
  registry_ok (stage_world s) →
  (m_loadedTextures (scene (stage_world s)) + 6 ≤ MAX_TEXTURES)%nat →
  ∃ s' wood plastic,
    PrepareScene stbi_load s = Ok s' ∧
    registry_ok (stage_world s') ∧
    m_pShaderManager (scene (stage_world s')) = shader_address ∧
    m_objectMaterials (scene (stage_world s'))
      = m_objectMaterials (scene (stage_world s)) ++ [wood; plastic] ∧
    material_tag wood = "wood" ∧ material_tag plastic = "plastic" ∧
    (m_loadedTextures (scene (stage_world s))
       ≤ m_loadedTextures (scene (stage_world s'))
       ≤ m_loadedTextures (scene (stage_world s)) + 6)%nat ∧
    (∀ i e, (i < m_loadedTextures (scene (stage_world s')))%nat →
            m_textureIDs (scene (stage_world s')) !! i = Some e →
            gl_bound_2D (gl (stage_world s')) !! i = Some (ID e)) ∧
    uniforms (shader (stage_world s')) !! g_UseLightingName = Some (UBool true) ∧
    mesh_events s' = mesh_events s ++ PrepareScene_loads.
Proof.
  intros Hptr [Hlen Hn] Hroom.
  destruct (PrepareScene_unfold s Hptr)
    as (w2 & ws & wood & plastic & Hms & Hwood & Hplastic & Hids & Hcount & Hptr2 & Hgl
        & Hshader & Hlast & ->).
  pose proof (length_filter (λ ft, loadableb stbi_load ft.1 = true) scene_textures) as Hfl.
  change (length scene_textures) with 6%nat in Hfl.
  destruct (CreateGLTextures_filter stbi_load scene_textures w2)
    as (wc & -> & Hnc & Hlenc & Hmsc & Hptrc & Hshc & _ & _); [rewrite Hcount, Hids; lia|].
  cbn [mbind outcome_bind].
  destruct (BindGLTextures_state wc) as (g' & -> & Hunits); [rewrite Hnc, Hlenc, Hcount, Hids; lia|].
  cbn [mbind outcome_bind].
  eexists. exists wood, plastic. split; [reflexivity|].
  cbn [stage_world mesh_events]. destruct wc as [scc gc smc].
  cbn [with_gl scene gl shader] in *. rewrite Hids in Hlenc. rewrite Hcount in Hnc.
  split_and!; [split; cbn; lia | congruence | congruence | done | done | lia | lia | | | done].
  - intros i e Hi Hie. rewrite Hunits by done. by rewrite Hie.
  - rewrite Hshc, Hshader, write_all_uniforms, after_writes_lookup. by rewrite Hlast.
Qed.

Lemma CreateGLTextures_overflow (textures : list (string * string)) (w : World F) :
  (m_loadedTextures (scene w) ≤ length (m_textureIDs (scene w)))%nat →
  (length (m_textureIDs (scene w))
     < m_loadedTextures (scene w)
       + length (filter (λ ft, loadableb stbi_load ft.1 = true) textures))%nat →
  CreateGLTextures stbi_load textures w = Undefined OutOfBounds.
Proof.
  revert w. induction textures as [|[filename t0] rest IH]; intros w Hn Hover.
  - cbn in Hover. lia.
  - cbn [CreateGLTextures].
    destruct (loadableb stbi_load filename) eqn:Hb.
    + rewrite filter_cons_True in Hover by done. cbn in Hover.
      apply loadableb_loadable in Hb.
      destruct (decide (m_loadedTextures (scene w) < length (m_textureIDs (scene w)))%nat)
        as [Hroom|Hfull].
      * destruct (CreateGLTexture_loadable stbi_load filename t0 w Hb Hroom) as (g & ->).
        cbn [mbind outcome_bind]. apply IH; cbn; rewrite length_insert; lia.
      * by rewrite CreateGLTexture_no_room by (done || lia).
    + rewrite filter_cons_False in Hover by (cbn; congruence).
      destruct (CreateGLTexture_refused stbi_load filename t0 w) as (w1 & -> & Hscene & _).
      { rewrite <- loadableb_loadable, Hb. done. }
      cbn [mbind outcome_bind]. apply IH; rewrite Hscene; lia.
Qed.

(** X28.  Nothing stops [PrepareScene] at a full registry.  When the files
    that load are more than the free cells, the call writes past the end of
    the texture array: with all six files present that is every call made
    with more than ten textures registered. *)
Theorem PrepareScene_overflow (s : Stage F) :
  m_pShaderManager (scene (stage_world s)) = shader_address →
  registry_ok (stage_world s) →
  (MAX_TEXTURES
     < m_loadedTextures (scene (stage_world s))
       + length (filter (λ ft, loadableb stbi_load ft.1 = true) scene_textures))%nat →
  PrepareScene stbi_load s = Undefined OutOfBounds.
Proof.
  intros Hptr [Hlen Hn] Hover.
  destruct (PrepareScene_unfold s Hptr)
    as (w2 & ws & wood & plastic & _ & _ & _ & Hids & Hcount & _ & _ & _ & _ & ->).
  by rewrite CreateGLTextures_overflow by (rewrite Hcount, Hids; lia).
Qed.

Lemma filter_loadable_all (textures : list (string * string)) :
  Forall (λ ft, loadable stbi_load ft.1) textures →
  filter (λ ft, loadableb stbi_load ft.1 = true) textures = textures.
Proof.
  induction 1 as [|ft rest Hft _ IH]; [done|].
  rewrite filter_cons_True by (by apply loadableb_loadable). by rewrite IH.
Qed.

(** X29.  A frame of the prepared scene.  From a state with a shader
    manager attached and no texture registered, with the six image files
    loadable, [PrepareScene] and then [RenderScene] return, and every draw
    samples the unit on which the texture with the tag selected for it is
    bound, and is made with the values of a material that carries the
    material tag selected for it. *)
Theorem prepared_scene_frame (stack : nat → nat → OBJECT_MATERIAL F) (s : Stage F) :
  m_pShaderManager (scene (stage_world s)) = shader_address →
  registry_ok (stage_world s) →
  m_loadedTextures (scene (stage_world s)) = 0%nat →
  Forall (λ ft, loadable stbi_load ft.1) scene_textures →
  ∃ s1 s2,
    PrepareScene stbi_load s = Ok s1 ∧ RenderScene stack s1 = Ok s2 ∧
    ∀ i d texture material,
      RenderScene_draws !! i = Some (d, texture, material) →
      ∃ seen k e m,
        events_since s1 s2 !! i = Some (MeshDrawn d seen) ∧
        seen !! g_UseTextureName = Some (UInt 1) ∧
        seen !! g_TextureValueName = Some (USampler2D (Z.of_nat k)) ∧
        m_textureIDs (scene (stage_world s2)) !! k = Some e ∧ tag e = texture ∧
        gl_bound_2D (gl (stage_world s2)) !! k = Some (ID e) ∧
        m ∈ m_objectMaterials (scene (stage_world s2)) ∧ material_tag m = material ∧
        seen !! "material.diffuseColor" = Some (UVec3 (diffuseColor m)) ∧
        seen !! "material.specularColor" = Some (UVec3 (specularColor m)) ∧
        seen !! "material.shininess" = Some (UFloat (shininess m)).
Proof.
  intros Hptr [Hlen Hn] Hzero Hfiles.
  destruct (PrepareScene_unfold s Hptr)
    as (w2 & ws & wood & plastic & Hms & Hwood & Hplastic & Hids & Hcount & Hptr2 & Hgl
        & Hshader & Hlast & ->).
  pose proof (filter_loadable_all scene_textures Hfiles) as Hall.
  destruct (CreateGLTextures_filter stbi_load scene_textures w2)
    as (wc & Hrun & Hnc & Hlenc & Hmsc & Hptrc & Hshc & _ & _).
  { rewrite Hall, Hcount, Hids, Hzero, Hlen. cbn. unfold MAX_TEXTURES. lia. }
  destruct (CreateGLTextures_registered stbi_load scene_textures w2)
    as (wc' & Hrun' & Hreg).
  { rewrite Hall, Hcount, Hids, Hzero, Hlen. cbn. unfold MAX_TEXTURES. lia. }
  { rewrite Hall. apply (bool_decide_unpack _). vm_compute. exact I. }
  rewrite Hrun in Hrun'. injection Hrun' as <-. rewrite Hrun.
  rewrite Hall, Hcount, Hzero in Hnc, Hreg. cbn in Hnc.
  cbn [mbind outcome_bind].
  destruct (BindGLTextures_state wc) as (g' & -> & Hunits);
    [rewrite Hnc, Hlenc, Hids, Hlen; unfold MAX_TEXTURES; lia|].
  cbn [mbind outcome_bind].
  set (s1 := mk_Stage (with_gl g' wc) (mesh_events s ++ PrepareScene_loads)).
  assert (Hscene1 : scene (stage_world s1) = scene wc) by (by destruct wc).
  assert (Hptr1 : m_pShaderManager (scene (stage_world s1)) = shader_address)
    by (rewrite Hscene1; congruence).
  assert (Hok1 : registry_ok (stage_world s1)).
  { unfold registry_ok. rewrite Hscene1, Hlenc, Hids, Hnc. split; [done|]. 
    unfold MAX_TEXTURES. lia. }
  destruct (RenderScene_returns stack s1 Hptr1 Hok1) as (s2 & Hframe & Hrun2 & Hscene2 & Hgl2).
  exists s1, s2. split; [done|]. split; [done|].
  destruct (first_material_dec (m_objectMaterials (scene (stage_world s1))) "wood")
    as [(iw & mw & Hfw)|Hno].
  2:{ exfalso. apply (Hno wood); [|done]. rewrite Hscene1, Hmsc, Hms.
      apply elem_of_app. right. apply list_elem_of_here. }
  destruct (first_material_dec (m_objectMaterials (scene (stage_world s1))) "plastic")
    as [(ip & mp & Hfp)|Hno].
  2:{ exfalso. apply (Hno plastic); [|done]. rewrite Hscene1, Hmsc, Hms.
      apply elem_of_app. right. apply list_elem_of_further, list_elem_of_here. }
  intros i d texture material Hi.
  destruct (RenderScene_samplers stack s1 s2 Hptr1 Hok1 Hrun2 i d texture material Hi)
    as (seen & slot & Hev & Hslot & Huse & Hsampler).
  destruct (RenderScene_materials stack s1 s2 iw ip mw mp Hptr1 Hok1 Hfw Hfp Hrun2
              i d texture material Hi)
    as (seen' & m & Hev' & Hwhich & Hdiffuse & Hspecular & Hshininess).
  rewrite Hev in Hev'. injection Hev' as <-.
  assert (Hin : texture ∈ scene_textures.*2).
  { do 9 (destruct i as [|i];
          [injection Hi as <- <- <-; apply (bool_decide_unpack _); vm_compute; exact I|]).
    done. }
  apply list_elem_of_lookup_1 in Hin as (k & Hk).
  destruct (Hreg k texture Hk) as (e & He).
  { intros j e' Hj. rewrite Hcount, Hzero in Hj. lia. }
  cbn in He.
  assert (Hreg1 : registered_at (stage_world s1) texture k e).
  { destruct He as [Hklt Hfirst]. split; by rewrite Hscene1. }
  destruct (FindTexture_registered (stage_world s1) texture k e) as [Hfound _];
    [rewrite Hscene1, Hnc, Hlenc, Hids, Hlen; unfold MAX_TEXTURES; lia | done |].
  rewrite Hfound in Hslot. injection Hslot as <-.
  destruct He as [Hklt (Hcell & Htag & _)].
  exists seen, k, e, m. rewrite Hscene2, Hgl2, Hscene1.
  split_and!; [done | done | done | done | done | | | | done | done | done].
  - subst s1. destruct wc as [scc gc smc]. cbn [stage_world with_gl gl scene] in *.
    rewrite Hunits by done. by rewrite Hcell.
  - destruct Hwhich as [[_ ->] | [_ ->]].
    + destruct Hfw as (Hcellw & _ & _). apply list_elem_of_lookup_2 in Hcellw.
      by rewrite Hscene1 in Hcellw.
    + destruct Hfp as (Hcellp & _ & _). apply list_elem_of_lookup_2 in Hcellp.
      by rewrite Hscene1 in Hcellp.
  - destruct Hwhich as [[-> ->] | [-> ->]].
    + by destruct Hfw as (_ & ? & _).
    + by destruct Hfp as (_ & ? & _).
Qed.
End Prepare.

(** ** The frame and the preparation on the example stages *)

Lemma textured_stage_ok : registry_ok (stage_world textured_stage).
Proof. apply two_textures_ok. Qed.

Lemma defined_stage_ok : registry_ok (stage_world defined_stage).
Proof. split; [reflexivity | cbn; lia]. Qed.

Lemma plastic_only_stage_ok : registry_ok (stage_world plastic_only_stage).
Proof. split; [reflexivity | cbn; lia]. Qed.

Lemma fresh_stage_ok (p : ShaderManager_ptr) : registry_ok (stage_world (fresh_stage p)).
Proof. split; [reflexivity | cbn; lia]. Qed.

Lemma wood_is_first :
  first_material_at (m_objectMaterials (scene (stage_world defined_stage))) "wood" 0
    (mk_OBJECT_MATERIAL (lit3 0.3 0.2 0.1) (lit3 0.1 0.1 0.1) (fliteral 0.3) "wood").
Proof. split_and!; [reflexivity | reflexivity | intros; lia]. Qed.

Lemma plastic_only_no_wood :
  no_material (m_objectMaterials (scene (stage_world plastic_only_stage))) "wood".
Proof. intros m Hm. apply list_elem_of_singleton in Hm as ->. done. Qed.

(** On the stage with two textures the frame returns, keeps the registry
    and asks for the nine draws. *)
Lemma RenderScene_nine_draws_witness :
  ∃ s', RenderScene garbage_stack textured_stage = Ok s' ∧
        scene (stage_world s') = scene (stage_world textured_stage) ∧
        drawn_calls (mesh_events s') =
          [ DrawBoxMesh; DrawCylinderMesh false false true;
            DrawCylinderMesh false true false; DrawTorusMesh; DrawBoxMeshSide front;
            DrawBoxMesh; DrawHalfSphereMesh; DrawCylinderMesh false false true;
            DrawBoxMesh ].
Proof.
  destruct (RenderScene_returns garbage_stack textured_stage eq_refl textured_stage_ok)
    as (s' & Hframe & _).
  exists s'. split; [exact Hframe|].
  destruct (RenderScene_nine_draws garbage_stack textured_stage s' Hframe)
    as (Hscene & _ & Hev & Hcalls).
  split; [exact Hscene|]. rewrite Hev. exact Hcalls.
Defined.

(** With no shader manager the frame is drawn while no material is defined
    and is undefined once "wood" and "plastic" are. *)
Lemma RenderScene_null_pointer_witness :
  (∃ s', RenderScene garbage_stack (fresh_stage NULL) = Ok s' ∧
         stage_world s' = fresh_world NULL ∧
         length (events_since (fresh_stage NULL) s') = 9%nat) ∧
  RenderScene garbage_stack (mk_Stage (materials_defined NULL) [])
    = Undefined NullDereference.
Proof.
  split.
  - destruct (RenderScene_null_pointer garbage_stack (fresh_stage NULL) eq_refl)
      as [Hnone _].
    destruct (Hnone eq_refl) as (s' & Hframe & Hworld & Hev).
    exists s'. split; [exact Hframe|]. split; [exact Hworld|]. rewrite Hev. reflexivity.
  - destruct (RenderScene_null_pointer garbage_stack (mk_Stage (materials_defined NULL) [])
                eq_refl) as [_ Hsome].
    apply Hsome. discriminate.
Defined.

(** "table" is in slot 0 and no "flag" is registered: the table top samples
    slot 0, the mug samples -1 with texturing on. *)
Lemma RenderScene_draws_textured_witness :
  ∃ s' table mug,
    RenderScene garbage_stack textured_stage = Ok s' ∧
    events_since textured_stage s' !! 0%nat = Some (MeshDrawn DrawBoxMesh table) ∧
    table !! g_TextureValueName = Some (USampler2D 0) ∧
    events_since textured_stage s' !! 1%nat
      = Some (MeshDrawn (DrawCylinderMesh false false true) mug) ∧
    mug !! g_UseTextureName = Some (UInt 1) ∧
    mug !! g_TextureValueName = Some (USampler2D (-1)).
Proof.
  destruct (RenderScene_draws_textured garbage_stack textured_stage eq_refl
              textured_stage_ok) as (s' & Hframe & _ & Hdraws).
  destruct (Hdraws 0%nat _ _ _ eq_refl) as (table & slot0 & Hev0 & Hslot0 & _ & Hsampler0).
  destruct (Hdraws 1%nat _ _ _ eq_refl) as (mug & slot1 & Hev1 & Hslot1 & Huse1 & Hsampler1).
  injection Hslot0 as <-. injection Hslot1 as <-.
  exists s', table, mug.
  split; [exact Hframe|]. split; [exact Hev0|]. split; [exact Hsampler0|].
  split; [exact Hev1|]. split; [exact Huse1 | exact Hsampler1].
Defined.

(** The half sphere of the trash can is drawn with the shininess of
    "plastic". *)
Lemma RenderScene_draws_material_witness :
  ∃ s' seen,
    RenderScene garbage_stack defined_stage = Ok s' ∧
    events_since defined_stage s' !! 6%nat = Some (MeshDrawn DrawHalfSphereMesh seen) ∧
    seen !! "material.shininess" = Some (UFloat (fliteral 0.02)).
Proof.
  destruct (RenderScene_draws_material garbage_stack defined_stage 0 1 _ _ eq_refl
              defined_stage_ok wood_is_first plastic_is_second) as (s' & Hframe & Hdraws).
  destruct (Hdraws 6%nat _ _ _ eq_refl) as (seen & m & Hev & Hwhich & _ & _ & Hshininess).
  exists s', seen. split; [exact Hframe|]. split; [exact Hev|].
  destruct Hwhich as [[Hne _] | [_ ->]]; [discriminate Hne | exact Hshininess].
Defined.

(** Two stacks with different contents give the same frame. *)
Lemma RenderScene_ignores_locals_witness :
  ∃ s', RenderScene garbage_stack defined_stage = Ok s' ∧
        RenderScene (λ _ _, mk_OBJECT_MATERIAL (lit3 0 0 0) (lit3 0 0 0) (fliteral 0) "")
                    defined_stage = Ok s'.
Proof.
  apply (RenderScene_ignores_locals garbage_stack _ defined_stage 0 1 _ _ eq_refl
           defined_stage_ok wood_is_first plastic_is_second).
Defined.


(** In the first frame the table top is drawn with no UV scale set at all. *)
Lemma RenderScene_texture_scale_witness :
  ∃ s' table,
    RenderScene garbage_stack textured_stage = Ok s' ∧
    events_since textured_stage s' !! 0%nat = Some (MeshDrawn DrawBoxMesh table) ∧
    table !! "UVscale" = None ∧
    uniforms (shader (stage_world s')) !! "UVscale"
      = Some (UVec2 (mk_vec2 (fliteral 1.0) (fliteral 1.0))).
Proof.
  destruct (RenderScene_texture_scale garbage_stack textured_stage eq_refl
              textured_stage_ok)
    as (s' & table & torus & Hframe & Hev & Hscale & _ & _ & Hafter).
  exists s', table. split; [exact Hframe|]. split; [exact Hev|].
  split; [rewrite Hscale; reflexivity | exact Hafter].
Defined.

Lemma RenderScene_steady_witness :
  ∃ s1 s2,
    RenderScene garbage_stack defined_stage = Ok s1 ∧
    RenderScene garbage_stack s1 = Ok s2 ∧
    uniforms (shader (stage_world s2)) = uniforms (shader (stage_world s1)).
Proof.
  destruct (RenderScene_steady garbage_stack garbage_stack defined_stage 0 1 _ _ eq_refl
              defined_stage_ok wood_is_first plastic_is_second)
    as (s1 & s2 & Hframe1 & Hframe2 & Hsame & _).
  exists s1, s2. split; [exact Hframe1|]. split; [exact Hframe2 | exact Hsame].
Defined.

(** The lights come out the same on a fresh shader and on one in use. *)
Lemma SetupSceneLights_fixed_values_witness :
  ∃ w1 w1',
    SetupSceneLights (fresh_world (F := R) shader_address) = Ok w1 ∧
    SetupSceneLights after_color_draw = Ok w1' ∧
    ∀ name,
      (is_Some (uniforms (shader w1) !! name) ∧
       uniforms (shader w1) !! name = uniforms (shader w1') !! name) ∨
      (uniforms (shader w1) !! name = None ∧
       uniforms (shader w1') !! name = uniforms (shader after_color_draw) !! name).
Proof.
  destruct (SetupSceneLights_fixed_values (fresh_world (F := R) shader_address)
              after_color_draw eq_refl eq_refl)
    as (w1 & w1' & w2 & Hrun & Hrun' & _ & Hnames & _).
  exists w1, w1'. split; [exact Hrun|]. split; [exact Hrun'|].
  intros name. destruct (Hnames name) as [Hset | [Hkept Hkept']]; [left; exact Hset|].
  right. split; [rewrite Hkept; reflexivity | exact Hkept'].
Defined.

Lemma PrepareScene_null_pointer_witness :
  PrepareScene scene_files (fresh_stage NULL) = Undefined NullDereference.
Proof. apply (PrepareScene_null_pointer scene_files (fresh_stage NULL) eq_refl). Defined.

(** With none of the files in the texture directory the scene is still
    prepared. *)
Lemma PrepareScene_returns_witness :
  ∃ s', PrepareScene two_files (fresh_stage shader_address) = Ok s' ∧
        registry_ok (stage_world s') ∧
        length (m_objectMaterials (scene (stage_world s'))) = 2%nat ∧
        mesh_events s' = PrepareScene_loads.
Proof.
  destruct (PrepareScene_returns two_files (fresh_stage shader_address) eq_refl
              (fresh_stage_ok shader_address))
    as (s' & wood & plastic & Hrun & Hok & _ & Hms & _ & _ & _ & _ & _ & Hev).
  { cbn. unfold MAX_TEXTURES. lia. }
  exists s'. split; [exact Hrun|]. split; [exact Hok|].
  split; [rewrite Hms; reflexivity | exact Hev].
Defined.

(** With the registry full and the six files present the preparation
    writes past the array. *)
Lemma PrepareScene_overflow_witness :
  PrepareScene scene_files full_stage = Undefined OutOfBounds.
Proof.
  apply (PrepareScene_overflow scene_files full_stage eq_refl (full_world_ok shader_address)).
  vm_compute. lia.
Defined.

(** After the preparation of a fresh scene the table top samples the unit
    on which the texture tagged "table" is bound. *)
Lemma prepared_scene_frame_witness :
  ∃ s1 s2 seen k e,
    PrepareScene scene_files (fresh_stage shader_address) = Ok s1 ∧
    RenderScene garbage_stack s1 = Ok s2 ∧
    events_since s1 s2 !! 0%nat = Some (MeshDrawn DrawBoxMesh seen) ∧
    seen !! g_TextureValueName = Some (USampler2D (Z.of_nat k)) ∧
    tag e = "table" ∧
    gl_bound_2D (gl (stage_world s2)) !! k = Some (ID e).
Proof.
  destruct (prepared_scene_frame scene_files garbage_stack (fresh_stage shader_address)
              eq_refl (fresh_stage_ok shader_address) eq_refl scene_textures_loadable)
    as (s1 & s2 & Hprepare & Hframe & Hdraws).
  destruct (Hdraws 0%nat _ _ _ eq_refl)
    as (seen & k & e & m & Hev & _ & Hsampler & _ & Htag & Hbound & _).
  exists s1, s2, seen, k, e.
  split; [exact Hprepare|]. split; [exact Hframe|]. split; [exact Hev|].
  split; [exact Hsampler|]. split; [exact Htag | exact Hbound].
Defined.
